(** * Agentic retrieval and search orchestration: the code against its specification

    A shallow embedding of the parts of the repository that the specification
    makes promises about:

    - [AgentRAGIndexer]  ([src/rag/agent_based/indexer.py]): page extraction,
      batching, section construction and index persistence;
    - [AgentRetrieval] and [ChunkEvaluator] ([src/rag/agent_based/retrieval.py],
      [chunk_evaluator.py]): index loading, the three-phase index-guided path
      and the full-document judge path;
    - [SQLQueryTool] ([src/tools/sql_query_tool.py]) with the constants of
      [src/agents/buscador/config.py];
    - [AgenteBuscador] ([src/agents/buscador/agent.py]): the ReAct loop;
    - [RetrievalAgentTool] and [FinishTool] ([src/tools]): the tools the loop
      calls besides the SQL one;
    - [DocumentReader] and [SectionLoader]
      ([src/rag/agent_based/document_reader.py], [retrieval.py]): reading a
      range of pages and loading the content of the sections of an index;
    - [IndexerKeywords]: the keyword extraction of the indexer.

    The language model, the PDF library, the database and [json.loads] are
    collaborators outside the repository; they appear as oracles (function
    arguments), so every theorem holds whatever they answer.

    Conventions.  A Python [str] is a [string]; only the ASCII range has case
    and white-space behaviour here (code points whose case mapping lands in
    ASCII, such as U+017F, are outside the model).  A function that can raise
    returns a [Result]. *)

From Stdlib Require Import String Ascii List ZArith QArith Lia Bool Arith.
From Stdlib Require Import DecimalString DecimalNat DecimalFacts Sorted Permutation.
From stdpp Require Import base option list gmap strings sorting.

Local Open Scope string_scope.
Local Open Scope list_scope.
Local Open Scope nat_scope.

(** ** Exceptions and results *)

Inductive Exn : Type :=
| FileNotFoundError (msg : string)
| ValueError (msg : string)
| IndexError (msg : string)
| KeyError (key : string)
| TypeError (msg : string)
| RuntimeError (msg : string).

Inductive Result (A : Type) : Type :=
| Ok (a : A)
| Raise (e : Exn).

Arguments Ok {A} a.
Arguments Raise {A} e.

Definition rbind {A B : Type} (r : Result A) (k : A -> Result B) : Result B :=
  match r with
  | Ok a => k a
  | Raise e => Raise e
  end.

Notation "x <-! r ; k" := (rbind r (fun x => k))
  (at level 100, r at next level, right associativity).

Definition is_ok {A : Type} (r : Result A) : bool :=
  match r with Ok _ => true | Raise _ => false end.

(** ** Python string primitives used by the code *)

Module Py.

(** [str(n)] for a natural number. *)
Definition str_of_nat (n : nat) : string :=
  NilEmpty.string_of_uint (Nat.to_uint n).

(** [c.isspace()] on the ASCII range: TAB, LF, VT, FF, CR, the four
    separators 0x1c-0x1f and the space. *)
Definition is_space (c : ascii) : bool :=
  let n := nat_of_ascii c in
  ((9 <=? n) && (n <=? 13)) || ((28 <=? n) && (n <=? 31)) || (n =? 32).

Definition upper_char (c : ascii) : ascii :=
  let n := nat_of_ascii c in
  if (97 <=? n) && (n <=? 122) then ascii_of_nat (n - 32) else c.

Definition lower_char (c : ascii) : ascii :=
  let n := nat_of_ascii c in
  if (65 <=? n) && (n <=? 90) then ascii_of_nat (n + 32) else c.

Fixpoint upper (s : string) : string :=
  match s with
  | EmptyString => EmptyString
  | String c s' => String (upper_char c) (upper s')
  end.

Fixpoint lower (s : string) : string :=
  match s with
  | EmptyString => EmptyString
  | String c s' => String (lower_char c) (lower s')
  end.

Fixpoint lstrip (s : string) : string :=
  match s with
  | EmptyString => EmptyString
  | String c s' => if is_space c then lstrip s' else s
  end.

(** [s.rstrip()]: the empty string when everything that is left is blank. *)
Fixpoint rstrip (s : string) : string :=
  match s with
  | EmptyString => EmptyString
  | String c s' =>
      match rstrip s' with
      | EmptyString => if is_space c then EmptyString else String c EmptyString
      | t => String c t
      end
  end.

Definition strip (s : string) : string := rstrip (lstrip s).

(** [s.rstrip(chars)] for a one-character [chars]. *)
Fixpoint rstrip_char (x : ascii) (s : string) : string :=
  match s with
  | EmptyString => EmptyString
  | String c s' =>
      match rstrip_char x s' with
      | EmptyString => if Ascii.eqb c x then EmptyString else String c EmptyString
      | t => String c t
      end
  end.

(** [s.startswith(p)] *)
Fixpoint startswith (s p : string) {struct p} : bool :=
  match p with
  | EmptyString => true
  | String x p' =>
      match s with
      | EmptyString => false
      | String c s' => Ascii.eqb c x && startswith s' p'
      end
  end.

(** [sub in s]. *)
Fixpoint contains (sub s : string) : bool :=
  startswith s sub ||
  match s with
  | EmptyString => false
  | String _ s' => contains sub s'
  end.

Fixpoint endswith (s p : string) : bool :=
  String.eqb s p ||
  match s with
  | EmptyString => false
  | String _ s' => endswith s' p
  end.

(** [s.replace(x, "")] for a one-character [x]. *)
Fixpoint remove_char (x : ascii) (s : string) : string :=
  match s with
  | EmptyString => EmptyString
  | String c s' => if Ascii.eqb c x then remove_char x s' else String c (remove_char x s')
  end.

(** [bool(s)] *)
Definition truthy_str (s : string) : bool := negb (String.eqb s "").

End Py.

(** ** The document indexer ([src/rag/agent_based/indexer.py]) *)

Module AgentRAGIndexer.

(** A page as [_read_pdf_pages] returns it: [{"page_num": n, "text": t}]. *)
Record Page : Type := mkPage { page_num : nat; text : string }.

(** A section of the index.  [pages] is the ["pages"] list and [page_range]
    the ["page_range"] string of the source. *)
Record Section : Type := mkSection {
  section_id : string;
  title : string;
  pages : list nat;
  page_range : string;
  summary : string;
  keywords : list string
}.

Record Metadata : Type := mkMetadata {
  md_source_file : string;
  md_category : string;
  md_total_pages : nat;
  md_indexed_at : string;
  md_procedure_code : string;
  md_version : string;
  md_date : string;
  md_title : string
}.

Record IndexMeta : Type := mkIndexMeta {
  im_procedure_code : string;
  im_version : string;
  im_date : string;
  im_indexed_at : string
}.

Record Index : Type := mkIndex {
  document_id : string;
  idx_title : string;
  category : string;
  source_file : string;
  total_pages : nat;
  idx_summary : string;
  metadata : IndexMeta;
  sections : list Section
}.

(** What the indexer asks of the outside world: the two summarisation calls
    (each with its own fallback inside), the keyword extraction and the
    pattern matching that produces the textual metadata fields. *)
Record Collaborators : Type := mkCollaborators {
  summarize_batch : list Page -> string;
  summarize_document : list Section -> string;
  extract_keywords : string -> list string;
  infer_category : string;
  infer_source_file : string;
  utc_now : string;
  find_procedure_code : list Page -> string;
  find_version : list Page -> string;
  find_date : list Page -> string;
  find_title : list Page -> string
}.

(** [_read_pdf_pages]: the loop over [range(len(doc))]; [doc] is the list of
    the texts [page.get_text()] returns, in page order.  [page_num] below is
    the loop variable, so the recorded number is [page_num + 1]. *)
Fixpoint read_pages_from (page_num : nat) (doc : list string) : list Page :=
  match doc with
  | [] => []
  | text :: rest =>
      if Py.truthy_str text && Py.truthy_str (Py.strip text)
      then mkPage (page_num + 1) (Py.strip text) :: read_pages_from (S page_num) rest
      else read_pages_from (S page_num) rest
  end.

Definition _read_pdf_pages (doc : list string) : list Page :=
  read_pages_from 0 doc.

(** [range(0, stop, step)] for a positive [step]; at most [stop] values. *)
Fixpoint range_from (fuel start stop step : nat) : list nat :=
  match fuel with
  | O => []
  | S fuel' =>
      if start <? stop then start :: range_from fuel' (start + step) stop step
      else []
  end.

(** [range(0, stop, step)]: [ValueError] for a zero step, empty for a
    negative one. *)
Definition py_range0 (stop : nat) (step : Z) : Result (list nat) :=
  if (step =? 0)%Z then Raise (ValueError "range() arg 3 must not be zero")
  else if (step <? 0)%Z then Ok []
  else Ok (range_from stop 0 stop (Z.to_nat step)).

(** [pages[i:i + batch_size]] for [i >= 0] and [batch_size > 0]. *)
Definition slice {A : Type} (l : list A) (i j : nat) : list A :=
  firstn (j - i) (skipn i l).

Definition _create_batches (pages : list Page) (batch_size : Z)
  : Result (list (list Page)) :=
  starts <-! py_range0 (length pages) batch_size ;
  Ok (map (fun i => slice pages i (i + Z.to_nat batch_size)) starts).

(** The shape the specification gives the batches: each one is full,
    except possibly the last, which is not empty. *)
Fixpoint full_but_last {A : Type} (n : nat) (batches : list (list A)) : Prop :=
  match batches with
  | [] => True
  | b :: rest =>
      match rest with
      | [] => 1 <= length b <= n
      | _ :: _ => length b = n
      end /\ full_but_last n rest
  end.

(** One iteration of the loop over [enumerate(batches, 1)]. *)
Definition make_section (env : Collaborators) (i : nat) (batch : list Page)
  : Result Section :=
  match batch with
  | [] => Raise (IndexError "list index out of range")
  | first :: _ =>
      let summary := summarize_batch env batch in
      let keywords := extract_keywords env summary in
      Ok (mkSection
            (Py.str_of_nat i)
            ("Sección " +:+ Py.str_of_nat i)
            (map page_num batch)
            (Py.str_of_nat (page_num first) +:+ "-" +:+
             Py.str_of_nat (page_num (List.last batch first)))
            summary
            keywords)
  end.

Fixpoint make_sections (env : Collaborators) (i : nat) (batches : list (list Page))
  : Result (list Section) :=
  match batches with
  | [] => Ok []
  | batch :: rest =>
      s <-! make_section env i batch ;
      ss <-! make_sections env (S i) rest ;
      Ok (s :: ss)
  end.

Definition _extract_metadata_from_content (env : Collaborators) (pages : list Page)
  : Metadata :=
  mkMetadata (infer_source_file env) (infer_category env) (length pages)
             (utc_now env +:+ "Z")
             (find_procedure_code env pages) (find_version env pages)
             (find_date env pages) (find_title env pages).

Definition _create_index (md : Metadata) (global_summary : string)
           (sections : list Section) : Index :=
  mkIndex (md_procedure_code md) (md_title md) (md_category md)
          (md_source_file md) (md_total_pages md) global_summary
          (mkIndexMeta (md_procedure_code md) (md_version md) (md_date md)
                       (md_indexed_at md))
          sections.

(** What [json.dump(index, f)] leaves on disk, as a reader sees it after
    [json.load]: a JSON object whose keys may or may not be there.  The
    indexer writes [document_id], [category], [summary] and [sections] (with
    [pages] and [page_range]); it writes no top-level [procedure_code],
    [procedure_name] or [path], and no [page_start]/[page_end]. *)
Record SectionData : Type := mkSectionData {
  sd_section_id : string;
  sd_title : string;
  sd_pages : option (list nat);
  sd_page_range : option string;
  sd_page_start : option nat;
  sd_page_end : option nat;
  sd_summary : option string
}.

Record IndexData : Type := mkIndexData {
  d_document_id : option string;
  d_procedure_code : option string;
  d_procedure_name : option string;
  d_category : option string;
  d_summary : option string;
  d_path : option string;
  d_sections : list SectionData
}.

Definition section_to_json (s : Section) : SectionData :=
  mkSectionData (section_id s) (title s) (Some (pages s)) (Some (page_range s))
                None None (Some (summary s)).

Definition to_json (index : Index) : IndexData :=
  mkIndexData (Some (document_id index)) None None (Some (category index))
              (Some (idx_summary index)) None
              (map section_to_json (sections index)).

(** A directory of index files: file name to content.  A file holds either
    a JSON object or something the reader skips (bytes [json.load] rejects,
    or a JSON value that is not an object). *)
Inductive FileContent : Type :=
| JsonFile (data : IndexData)
| NotJson.

(** [_save_index]: the file is named [{document_id}.json]. *)
Definition _save_index (index : Index) (dir : gmap string FileContent)
  : gmap string FileContent * string :=
  let filename := document_id index +:+ ".json" in
  (<[filename := JsonFile (to_json index)]> dir, filename).

(** [index_document].  [doc] is [None] when the path does not exist.  The
    result is the index together with the directory after [_save_index]. *)
Definition index_document (env : Collaborators) (doc : option (list string))
           (output_dir : gmap string FileContent) (batch_size : Z)
  : Result (Index * gmap string FileContent) :=
  match doc with
  | None => Raise (FileNotFoundError "PDF no existe")
  | Some doc =>
      let pages := _read_pdf_pages doc in
      match pages with
      | [] => Raise (ValueError "No se pudo extraer texto del PDF")
      | _ =>
          batches <-! _create_batches pages batch_size ;
          sections <-! make_sections env 1 batches ;
          let global_summary := summarize_document env sections in
          let md := _extract_metadata_from_content env pages in
          let index := _create_index md global_summary sections in
          Ok (index, fst (_save_index index output_dir))
      end
  end.

(** A page of the PDF whose text survives the blank test of
    [_read_pdf_pages]. *)
Definition has_text (text : string) : bool :=
  Py.truthy_str text && Py.truthy_str (Py.strip text).

(** The bounds a section's [page_range] is printed from:
    [batch[0]['page_num']] and [batch[-1]['page_num']]. *)
Definition range_lo (s : Section) : nat := List.hd 0 (pages s).
Definition range_hi (s : Section) : nat := List.last (pages s) 0.

(** The invariant of the specification, in its words: page ranges are
    non-empty and strictly increasing from one section to the next, their
    union is exactly the pages [1 .. total_pages], and section ids are
    pairwise distinct. *)
Fixpoint ranges_increasing (ss : list Section) : Prop :=
  match ss with
  | [] => True
  | s :: rest =>
      range_lo s <= range_hi s /\
      match rest with
      | [] => True
      | s' :: _ => range_hi s < range_lo s'
      end /\
      ranges_increasing rest
  end.

Definition covered (ss : list Section) (p : nat) : Prop :=
  exists s, In s ss /\ range_lo s <= p <= range_hi s.

Definition coverage_invariant (idx : Index) : Prop :=
  ranges_increasing (sections idx) /\
  (forall p, covered (sections idx) p <-> 1 <= p <= total_pages idx) /\
  NoDup (map section_id (sections idx)).

(** Collaborators that answer with fixed texts, for the examples. *)
Definition plain_env : Collaborators :=
  mkCollaborators (fun _ => "resumen") (fun _ => "resumen global") (fun _ => [])
                  "jubilacion" "proc-jub-001.pdf" "2024-01-01T00:00:00"
                  (fun _ => "PROC-JUB-001") (fun _ => "1.0")
                  (fun _ => "2024-01-01") (fun _ => "Proc Jub 001").

Definition two_pages : list Page := [mkPage 1 "uno"; mkPage 2 "dos"].

(** A PDF of three pages whose second page has no text. *)
Definition blank_middle : list string := ["uno"; ""; "tres"].

End AgentRAGIndexer.

(** ** JSON values, and what the language model can answer *)

#[local] Set Warnings "-register-all".

Inductive json : Type :=
| JNull
| JBool (b : bool)
| JNum (q : Q)
| JStr (s : string)
| JArr (items : list json)
| JObj (fields : list (string * json)).

(** [d.get(key)] on a JSON object: the first binding of [key]. *)
Fixpoint obj_get (key : string) (fields : list (string * json)) : option json :=
  match fields with
  | [] => None
  | (k, v) :: rest => if String.eqb k key then Some v else obj_get key rest
  end.

(** [d[key] = v]: replace the binding in place or add it at the end. *)
Fixpoint obj_set (key : string) (v : json) (fields : list (string * json))
  : list (string * json) :=
  match fields with
  | [] => [(key, v)]
  | (k, v0) :: rest =>
      if String.eqb k key then (k, v) :: rest else (k, v0) :: obj_set key v rest
  end.

(** One call of the gateway: it raises, or answers with text, or (when tools
    are registered) answers with something that is not text. *)
Inductive Generated : Type :=
| GenRaise (msg : string)
| GenText (s : string)
| GenOther.

(** ** The relevance judge ([src/rag/agent_based/chunk_evaluator.py]) *)

Module ChunkEvaluator.

Record DocMetadata : Type := mkDocMetadata {
  dm_procedure_code : option string;
  dm_category : option string;
  dm_procedure_name : option string
}.

Record Document : Type := mkDocument {
  doc_id : string;
  doc_content : string;
  doc_metadata : DocMetadata
}.

(** The prompt of [_build_evaluation_prompt], by its variable parts. *)
Record EvaluationPrompt : Type := mkEvaluationPrompt {
  ep_query : string;
  ep_category : string;
  ep_procedure_name : string;
  ep_procedure_code : string;
  ep_content : string
}.

(** Collaborators: the model (asked once per document; [n] is the position
    of the document, so that equal prompts may get different answers),
    [json.loads] ([None] for [JSONDecodeError]) and the two [re.sub] calls
    that remove markdown fences. *)
Record World : Type := mkWorld {
  generate : nat -> EvaluationPrompt -> Generated;
  json_loads : string -> option json;
  strip_fences : string -> string
}.

Definition _build_evaluation_prompt (query content : string) (md : DocMetadata)
  : EvaluationPrompt :=
  mkEvaluationPrompt query
    (default "general" (dm_category md))
    (default "N/A" (dm_procedure_name md))
    (default "N/A" (dm_procedure_code md))
    content.

(** [s.find(c)] and [s.rfind(c)] for a character, [None] for [-1]. *)
Fixpoint find_char (c : ascii) (s : string) : option nat :=
  match s with
  | EmptyString => None
  | String x s' => if Ascii.eqb x c then Some 0 else S <$> find_char c s'
  end.

Fixpoint rfind_char (c : ascii) (s : string) : option nat :=
  match s with
  | EmptyString => None
  | String x s' =>
      match rfind_char c s' with
      | Some i => Some (S i)
      | None => if Ascii.eqb x c then Some 0 else None
      end
  end.

Definition fallback_evaluation : json :=
  JObj [("relevance_score", JNum 0);
        ("reasoning", JStr "No se pudo parsear la respuesta del LLM");
        ("relevant_sections", JArr [])].

(** [_parse_json_response]: direct parse, then the text between the first
    opening and the last closing brace, then the fallback. *)
Definition _parse_json_response (w : World) (response : string) : json :=
  let cleaned := Py.strip response in
  let cleaned :=
    if Py.contains "```" cleaned then Py.strip (strip_fences w cleaned) else cleaned in
  match json_loads w cleaned with
  | Some v => v
  | None =>
      match find_char "{" cleaned, rfind_char "}" cleaned with
      | Some start, Some end_ =>
          if start <? end_ then
            match json_loads w (String.substring start (end_ + 1 - start) cleaned) with
            | Some v => v
            | None => fallback_evaluation
            end
          else fallback_evaluation
      | _, _ => fallback_evaluation
      end
  end.

Definition error_evaluation (doc_id msg : string) : list (string * json) :=
  [("document_id", JStr doc_id);
   ("relevance_score", JNum 0);
   ("reasoning", JStr ("Error al evaluar: " +:+ msg));
   ("relevant_sections", JArr [])].

(** [evaluate_relevance]: everything after the prompt is inside [try], so
    the function returns a dict whatever the model does.  Item assignment on
    a parsed value that is not an object raises [TypeError], which the
    handler turns into the error evaluation. *)
Definition evaluate_relevance (w : World) (n : nat) (query : string) (document : Document)
  : list (string * json) :=
  let prompt :=
    _build_evaluation_prompt query (doc_content document) (doc_metadata document) in
  match generate w n prompt with
  | GenRaise msg => error_evaluation (doc_id document) msg
  | GenOther =>
      error_evaluation (doc_id document) "'dict' object has no attribute 'strip'"
  | GenText response =>
      match _parse_json_response w response with
      | JObj fields => obj_set "document_id" (JStr (doc_id document)) fields
      | _ =>
          error_evaluation (doc_id document)
            "object does not support item assignment"
      end
  end.

(** The two outcomes the specification singles out. *)
Definition evaluation_errors (w : World) (n : nat) (query : string) (document : Document)
  : Prop :=
  exists msg,
    generate w n (_build_evaluation_prompt query (doc_content document)
                    (doc_metadata document)) = GenRaise msg.

Definition unparseable (w : World) (response : string) : Prop :=
  let cleaned := Py.strip response in
  let cleaned :=
    if Py.contains "```" cleaned then Py.strip (strip_fences w cleaned) else cleaned in
  json_loads w cleaned = None /\
  forall start end_,
    find_char "{" cleaned = Some start -> rfind_char "}" cleaned = Some end_ ->
    start < end_ ->
    json_loads w (String.substring start (end_ + 1 - start) cleaned) = None.

Definition evaluation_unparseable (w : World) (n : nat) (query : string)
           (document : Document) : Prop :=
  exists response,
    generate w n (_build_evaluation_prompt query (doc_content document)
                    (doc_metadata document)) = GenText response /\
    unparseable w response.

End ChunkEvaluator.

(** ** The retrieval engine ([src/rag/agent_based/retrieval.py]) *)

Module AgentRetrieval.

Import AgentRAGIndexer ChunkEvaluator.

Record ChunkMetadata : Type := mkChunkMetadata {
  cm_document_id : option string;
  cm_procedure_code : option string;
  cm_procedure_name : option string;
  cm_page_start : option nat;
  cm_page_end : option nat;
  cm_category : option string
}.

Record Chunk : Type := mkChunk {
  content : string;
  chunk_metadata : ChunkMetadata;
  score : Q;
  reasoning : json;
  citation : string
}.

Record RetrievalResult : Type := mkRetrievalResult {
  chunks : list Chunk;
  method : string;
  message : option string;
  response : option string;
  error : option string;
  sections_consulted : list string
}.

(** *** Full-document judge retrieval *)

(** A document with its evaluation, as the loop over [zip(documents,
    evaluations)] builds it. *)
Record RawScoredDoc : Type := mkRawScoredDoc {
  rs_content : string;
  rs_metadata : DocMetadata;
  rs_score : json;
  rs_reasoning : json
}.

Record ScoredDoc : Type := mkScoredDoc {
  sc_content : string;
  sc_metadata : DocMetadata;
  sc_score : Q;
  sc_reasoning : json
}.

(** [evaluation[key]] *)
Definition obj_item (key : string) (fields : list (string * json)) : Result json :=
  match obj_get key fields with
  | Some v => Ok v
  | None => Raise (KeyError key)
  end.

Definition score_document (document : Document) (evaluation : list (string * json))
  : Result RawScoredDoc :=
  s <-! obj_item "relevance_score" evaluation ;
  r <-! obj_item "reasoning" evaluation ;
  _ <-! obj_item "relevant_sections" evaluation ;
  Ok (mkRawScoredDoc (doc_content document) (doc_metadata document) s r).

Fixpoint score_documents (w : World) (n : nat) (query : string) (documents : list Document)
  : Result (list RawScoredDoc) :=
  match documents with
  | [] => Ok []
  | document :: rest =>
      d <-! score_document document (evaluate_relevance w n query document) ;
      ds <-! score_documents w (S n) query rest ;
      Ok (d :: ds)
  end.

(** The score as a number.  A JSON number is a Python [float] or [int], and
    [True]/[False] count as 1/0.  Any other value makes the sort or the
    citation raise (strings of digits apart, which are outside the model). *)
Definition as_number (v : json) : Result Q :=
  match v with
  | JNum q => Ok q
  | JBool b => Ok (if b then 1 else 0)%Q
  | _ => Raise (TypeError "score is not a number")
  end.

Fixpoint numeric_scores (l : list RawScoredDoc) : Result (list ScoredDoc) :=
  match l with
  | [] => Ok []
  | d :: rest =>
      q <-! as_number (rs_score d) ;
      ds <-! numeric_scores rest ;
      Ok (mkScoredDoc (rs_content d) (rs_metadata d) q (rs_reasoning d) :: ds)
  end.

Definition Qltb (x y : Q) : bool := negb (Qle_bool y x).

(** [list.sort(key=score, reverse=True)]: stable, so a document stays in
    front of the later documents with an equal score. *)
Fixpoint insert_desc (d : ScoredDoc) (l : list ScoredDoc) : list ScoredDoc :=
  match l with
  | [] => [d]
  | e :: rest =>
      if Qltb (sc_score d) (sc_score e) then e :: insert_desc d rest
      else d :: e :: rest
  end.

Fixpoint sort_desc (l : list ScoredDoc) : list ScoredDoc :=
  match l with
  | [] => []
  | d :: rest => insert_desc d (sort_desc rest)
  end.

(** [l[:k]] for any integer [k]. *)
Definition slice_to {A : Type} (l : list A) (k : Z) : list A :=
  if (0 <=? k)%Z then firstn (Z.to_nat k) l
  else firstn (length l - Z.to_nat (- k)) l.

Definition str_of_Z (z : Z) : string := NilEmpty.string_of_int (Z.to_int z).

(** [int(x)] on a number: truncation towards zero. *)
Definition py_int (q : Q) : Z := Z.quot (Qnum q) (Z.pos (Qden q)).

Definition _format_citation (md : DocMetadata) (score : Q) : string :=
  let proc_code := default "UNKNOWN" (dm_procedure_code md) in
  let category := default "general" (dm_category md) in
  let score_pct := py_int (score * 100)%Q in
  "[Doc: " +:+ proc_code +:+ " (" +:+ category +:+ "), relevancia LLM: " +:+
  str_of_Z score_pct +:+ "%]".

Definition format_chunk (d : ScoredDoc) : Chunk :=
  mkChunk (sc_content d)
          (mkChunkMetadata None (dm_procedure_code (sc_metadata d))
                           (dm_procedure_name (sc_metadata d)) None None
                           (dm_category (sc_metadata d)))
          (sc_score d) (sc_reasoning d)
          (_format_citation (sc_metadata d) (sc_score d)).

(** [retrieve].  [read_all_documents] is the outcome of reading the
    documents directory ([FileNotFoundError] when it does not exist). *)
Definition retrieve (w : World) (query : string) (k : Z)
           (read_all_documents : Result (list Document))
  : Result RetrievalResult :=
  documents <-! read_all_documents ;
  raw_docs <-! score_documents w 0 query documents ;
  scored_docs <-! numeric_scores raw_docs ;
  let top_docs := slice_to (sort_desc scored_docs) k in
  Ok (mkRetrievalResult (map format_chunk top_docs) "agent_rag" None None None []).

(** *** Index-guided retrieval *)

(** [index_file.stem] for a name that ends in [.json]. *)
Definition stem (name : string) : string :=
  String.substring 0 (String.length name - 5) name.

(** [fnmatch(name, "index-*.json")] *)
Definition glob_index_json (name : string) : bool :=
  Py.startswith name "index-" && Py.endswith name ".json" &&
  (11 <=? String.length name).

Definition load_one (entry : string * FileContent) (indices : gmap string IndexData)
  : gmap string IndexData :=
  let '(name, file) := entry in
  if glob_index_json name then
    match file with
    | JsonFile index_data =>
        <[default (stem name) (d_document_id index_data) := index_data]> indices
    | NotJson => indices
    end
  else indices.

(** [_load_all_indices]; [None] is a directory that does not exist.  The
    order in which [glob] yields the files is the order of [map_to_list]. *)
Definition _load_all_indices (indices_dir : option (gmap string FileContent))
  : gmap string IndexData :=
  match indices_dir with
  | None => ∅
  | Some files => foldr load_one ∅ (map_to_list files)
  end.

(** The prompts, by their variable parts. *)
Inductive Prompt : Type :=
| DocumentFilterPrompt (query : string) (indices : list (string * IndexData))
| SectionFilterPrompt (query : string) (document_index : IndexData)
| AnswerPrompt (query : string) (sections : list string).

(** What happens while [retrieve_with_index] runs, in order. *)
Inductive Event : Type :=
| Phase1Call (p : Prompt)
| Phase2Call (p : Prompt)
| Phase3Load (document_index : IndexData) (section_ids : json)
| Phase3Call (p : Prompt)
| JudgeFallback.

Record SectionContent : Type := mkSectionContent {
  sec_id : string;
  sec_title : string;
  sec_content : string;
  sec_metadata : ChunkMetadata
}.

(** Collaborators of the index-guided path: the chat model, [json.loads],
    and the file and PDF access of [_load_section_content]. *)
Record IndexWorld : Type := mkIndexWorld {
  chat : Prompt -> Generated;
  loads : string -> option json;
  _load_section_content : IndexData -> json -> list SectionContent
}.

(** [s.split(sep)[0]] and the rest after the first [sep], for a non-empty
    [sep]. *)
Fixpoint before_first (sep s : string) : string :=
  if Py.startswith s sep then EmptyString
  else match s with
       | EmptyString => EmptyString
       | String c s' => String c (before_first sep s')
       end.

Fixpoint after_first (sep s : string) : option string :=
  if Py.startswith s sep
  then Some (String.substring (String.length sep) (String.length s) s)
  else match s with
       | EmptyString => None
       | String _ s' => after_first sep s'
       end.

(** [s.split(sep)[1]]: between the first and the second [sep]. *)
Definition split_second (sep s : string) : Result string :=
  match after_first sep s with
  | Some rest => Ok (before_first sep rest)
  | None => Raise (IndexError "list index out of range")
  end.

(** The markdown cleaning shared by phases 1 and 2. *)
Definition clean_markdown (response_text : string) : Result string :=
  if Py.startswith response_text "```json" then
    t <-! split_second "```json" response_text ;
    Ok (Py.strip (before_first "```" t))
  else if Py.startswith response_text "```" then
    t <-! split_second "```" response_text ;
    Ok (Py.strip (before_first "```" t))
  else Ok response_text.

(** [for doc_id in result.get("relevant_documents", [])]: the ids that are
    keys of [indices], in order; [None] when the loop raises (an element
    that cannot be hashed, a value that cannot be iterated). *)
Fixpoint select_documents (indices : gmap string IndexData) (reason : json)
         (ids : list json) : option (list (string * IndexData * json)) :=
  match ids with
  | [] => Some []
  | JStr doc_id :: rest =>
      tail ← select_documents indices reason rest ;
      match indices !! doc_id with
      | Some index => Some ((doc_id, index, reason) :: tail)
      | None => Some tail
      end
  | JArr _ :: _ | JObj _ :: _ => None
  | _ :: rest => select_documents indices reason rest
  end.

Definition chars_as_ids (s : string) : list json :=
  map (fun c => JStr (String c EmptyString)) (list_ascii_of_string s).

Definition relevant_documents_of (indices : gmap string IndexData) (result : json)
  : list (string * IndexData * json) :=
  match result with
  | JObj fields =>
      let reason := default (JStr "") (obj_get "reasoning" fields) in
      let ids :=
        match obj_get "relevant_documents" fields with
        | None => Some []
        | Some (JArr ids) => Some ids
        | Some (JStr s) => Some (chars_as_ids s)
        | Some (JObj kvs) => Some (map (fun kv => JStr (fst kv)) kvs)
        | Some _ => None
        end in
      default [] (ids ≫= select_documents indices reason)
  | _ => []
  end.

(** A computation that logs its events. *)
Definition Logged (A : Type) : Type := A * list Event.

Definition lret {A : Type} (a : A) : Logged A := (a, []).

Definition lbind {A B : Type} (m : Logged A) (k : A -> Logged B) : Logged B :=
  let '(a, l1) := m in
  let '(b, l2) := k a in
  (b, l1 ++ l2).

Definition log (e : Event) : Logged unit := (tt, [e]).

Notation "x <~ m ; k" := (lbind m (fun x => k))
  (at level 100, m at next level, right associativity).

(** [_filter_relevant_documents] (phase 1). *)
Definition _filter_relevant_documents (w : IndexWorld) (query : string)
           (indices : gmap string IndexData)
  : Logged (list (string * IndexData * json)) :=
  if decide (indices = ∅) then lret []
  else
    let prompt := DocumentFilterPrompt query (map_to_list indices) in
    _ <~ log (Phase1Call prompt) ;
    match chat w prompt with
    | GenText content =>
        match clean_markdown (Py.strip content) with
        | Ok response_text =>
            match loads w response_text with
            | Some result => lret (relevant_documents_of indices result)
            | None => lret []
            end
        | Raise _ => lret []
        end
    | _ => lret []
    end.

(** [_filter_relevant_sections] (phase 2): the value of
    ["relevant_sections"] as the model gave it, and every section of the
    document when the call or the parsing fails. *)
Definition _filter_relevant_sections (w : IndexWorld) (query : string)
           (document_index : IndexData) : Logged json :=
  let sections := d_sections document_index in
  match sections with
  | [] => lret (JArr [])
  | _ =>
      let all_ids := JArr (map (fun s => JStr (sd_section_id s)) sections) in
      let prompt := SectionFilterPrompt query document_index in
      _ <~ log (Phase2Call prompt) ;
      match chat w prompt with
      | GenText content =>
          match clean_markdown (Py.strip content) with
          | Ok response_text =>
              match loads w response_text with
              | Some (JObj fields) =>
                  lret (default (JArr []) (obj_get "relevant_sections" fields))
              | _ => lret all_ids
              end
          | Raise _ => lret all_ids
          end
      | _ => lret all_ids
      end
  end.

(** [bool(v)] *)
Definition json_truthy (v : json) : bool :=
  match v with
  | JNull => false
  | JBool b => b
  | JNum q => negb (Qeq_bool q 0)
  | JStr s => Py.truthy_str s
  | JArr items => match items with [] => false | _ => true end
  | JObj fields => match fields with [] => false | _ => true end
  end.

(** [', '.join(v)] does not raise: [v] is a string, a dict, or a list of
    strings. *)
Definition joinable (v : json) : bool :=
  match v with
  | JStr _ | JObj _ => true
  | JArr items => forallb (fun i => match i with JStr _ => true | _ => false end) items
  | _ => false
  end.

Definition section_citation (s : SectionContent) : string :=
  "[" +:+ default "None" (cm_procedure_code (sec_metadata s)) +:+ " - " +:+
  sec_title s +:+ ", páginas " +:+
  from_option Py.str_of_nat "None" (cm_page_start (sec_metadata s)) +:+ "-" +:+
  from_option Py.str_of_nat "None" (cm_page_end (sec_metadata s)) +:+ "]".

Definition section_chunk (s : SectionContent) : Chunk :=
  mkChunk (sec_content s) (sec_metadata s) 1
          (JStr ("Sección relevante: " +:+ sec_title s)) (section_citation s).

(** [_generate_response_with_sections] (the end of phase 3). *)
Definition _generate_response_with_sections (w : IndexWorld) (query : string)
           (sections_content : list SectionContent) : Logged RetrievalResult :=
  match sections_content with
  | [] =>
      lret (mkRetrievalResult [] "agent_rag_indexed"
              (Some "No se encontraron secciones relevantes") None None [])
  | _ =>
      let prompt :=
        AnswerPrompt query
          (map (fun s => section_citation s +:+ sec_content s) sections_content) in
      _ <~ log (Phase3Call prompt) ;
      match chat w prompt with
      | GenText content =>
          lret (mkRetrievalResult (map section_chunk sections_content)
                  "agent_rag_indexed" None (Some content) None
                  (map (fun s => default "None" (cm_procedure_code (sec_metadata s))
                                 +:+ ": " +:+ sec_title s) sections_content))
      | GenRaise msg =>
          lret (mkRetrievalResult [] "agent_rag_indexed" None None (Some msg) [])
      | GenOther =>
          lret (mkRetrievalResult [] "agent_rag_indexed" None None
                  (Some "object has no attribute 'content'") [])
      end
  end.

(** The loop over [relevant_docs] (phases 2 and 3).  The progress line
    joins the section ids, which raises when they are not strings. *)
Fixpoint collect_sections (w : IndexWorld) (query : string)
         (relevant_docs : list (string * IndexData * json))
  : Logged (Result (list SectionContent)) :=
  match relevant_docs with
  | [] => lret (Ok [])
  | (_, doc_index, _) :: rest =>
      section_ids <~ _filter_relevant_sections w query doc_index ;
      if json_truthy section_ids then
        if joinable section_ids then
          _ <~ log (Phase3Load doc_index section_ids) ;
          let here := _load_section_content w doc_index section_ids in
          others <~ collect_sections w query rest ;
          lret (ss <-! others ; Ok (here ++ ss))
        else lret (Raise (TypeError "sequence item: expected str instance"))
      else collect_sections w query rest
  end.

(** [retrieve_with_index].  [judge] is the world of the fallback path and
    [read_all_documents] the outcome of reading the documents directory for
    it.  The [elapsed_ms] entry of the result is left out. *)
Definition retrieve_with_index (w : IndexWorld) (judge : World) (query : string)
           (indices_dir : option (gmap string FileContent))
           (read_all_documents : Result (list Document))
  : Logged (Result RetrievalResult) :=
  let indices := _load_all_indices indices_dir in
  if decide (indices = ∅) then
    _ <~ log JudgeFallback ;
    lret (retrieve judge query 5 read_all_documents)
  else
    relevant_docs <~ _filter_relevant_documents w query indices ;
    match relevant_docs with
    | [] =>
        lret (Ok (mkRetrievalResult [] "agent_rag_indexed"
                    (Some "No se encontraron documentos relevantes para tu consulta")
                    None None []))
    | _ =>
        collected <~ collect_sections w query relevant_docs ;
        match collected with
        | Raise e => lret (Raise e)
        | Ok all_sections =>
            result <~ _generate_response_with_sections w query all_sections ;
            lret (Ok result)
        end
    end.

(** The two ways phase 1 comes back empty-handed in the words of the
    specification: the model's answer cannot be parsed, or the list of
    relevant documents is empty. *)
Definition phase1_unparseable (w : IndexWorld) (query : string)
           (indices : gmap string IndexData) : Prop :=
  exists content,
    chat w (DocumentFilterPrompt query (map_to_list indices)) = GenText content /\
    match clean_markdown (Py.strip content) with
    | Ok response_text => loads w response_text = None
    | Raise _ => True
    end.

Definition phase1_empty (w : IndexWorld) (query : string)
           (indices : gmap string IndexData) : Prop :=
  fst (_filter_relevant_documents w query indices) = [].

Definition no_relevant_documents : RetrievalResult :=
  mkRetrievalResult [] "agent_rag_indexed"
    (Some "No se encontraron documentos relevantes para tu consulta")
    None None [].

(** An evaluation of the shape the judge prompt asks for. *)
Definition well_formed_evaluation (evaluation : list (string * json)) : Prop :=
  exists q r s,
    obj_get "relevance_score" evaluation = Some (JNum q) /\
    obj_get "reasoning" evaluation = Some r /\
    obj_get "relevant_sections" evaluation = Some s.

(** Scores in descending order. *)
Definition descending (scores : list Q) : Prop :=
  StronglySorted (fun a b => (b <= a)%Q) scores.

(** Sample worlds for the examples: a model that always raises, and an index
    the indexer has written for [PROC-JUB-001]. *)
Definition failing_judge : World :=
  mkWorld (fun _ _ => GenRaise "503") (fun _ => None) (fun s => s).

Definition silent_index_world : IndexWorld :=
  mkIndexWorld (fun _ => GenText "no json here") (fun _ => None) (fun _ _ => []).

Definition sample_index : Index :=
  mkIndex "PROC-JUB-001" "Jubilación" "jubilacion" "proc-jub-001.pdf" 2
          "resumen global" (mkIndexMeta "PROC-JUB-001" "1.0" "2024-01-01" "2024-01-01Z")
          [mkSection "1" "Sección 1" [1; 2] "1-2" "resumen" []].

Definition sample_document : Document :=
  mkDocument "PROC-JUB-001" "contenido" (mkDocMetadata (Some "PROC-JUB-001") None None).

Definition one_index_dir : gmap string FileContent :=
  {[ "index-PROC-JUB-001.json" := JsonFile (to_json sample_index) ]}.

(** An event of phase 2 or phase 3. *)
Definition later_phase (e : Event) : bool :=
  match e with
  | Phase2Call _ | Phase3Load _ _ | Phase3Call _ => true
  | _ => false
  end.

End AgentRetrieval.

(** ** The structured-query tool ([src/tools/sql_query_tool.py]) *)

Module SQLQueryTool.

(** The constants of [src/agents/buscador/config.py].  The two sets are
    listed in source order; Python iterates a set in an order of its own,
    which only decides which forbidden keyword an error message names. *)
Definition ALLOWED_TABLES : list string :=
  ["afiliados"; "aportes"; "traspasos"; "reclamos"; "beneficiarios";
   "pensiones"; "movimientos"; "empleadores";
   "vista_resumen_afiliado"; "vista_empleadores_morosos"].

Definition FORBIDDEN_SQL_KEYWORDS : list string :=
  ["DROP"; "DELETE"; "UPDATE"; "INSERT"; "ALTER";
   "CREATE"; "TRUNCATE"; "EXEC"; "EXECUTE"; "--"; "/*"].

Definition MAX_SQL_ROWS : nat := 100.

(** [normalize_rut]: [rut.replace(".", "")]. *)
Definition normalize_rut (rut : string) : string := Py.remove_char "." rut.

(** [SQLValidator.validate] *)
Definition validate (query : string) : bool * string :=
  let query_upper := Py.strip (Py.upper query) in
  if negb (Py.startswith query_upper "SELECT") then
    (false, "Solo consultas SELECT permitidas")
  else
    match List.find (fun keyword => Py.contains keyword query_upper)
                    FORBIDDEN_SQL_KEYWORDS with
    | Some keyword => (false, "Keyword prohibido: " +:+ keyword)
    | None =>
        let query_lower := Py.lower query in
        if existsb (fun table => Py.contains table query_lower) ALLOWED_TABLES
        then (true, "OK")
        else (false, "Tabla no permitida. Tablas válidas: " +:+
                     String.concat ", " ALLOWED_TABLES)
    end.

(** *** The pattern ['(\d{1,2}\.\d{3}\.\d{3}-[\dkK])'], compiled by hand

    Each piece consumes a prefix of the text and returns what it matched
    with the rest. *)
Definition is_digit (c : ascii) : bool :=
  let n := nat_of_ascii c in (48 <=? n) && (n <=? 57).

Definition is_check_digit (c : ascii) : bool :=
  is_digit c || Ascii.eqb c "k" || Ascii.eqb c "K".

Definition one (p : ascii -> bool) (s : string) : option (string * string) :=
  match s with
  | String c rest => if p c then Some (String c EmptyString, rest) else None
  | EmptyString => None
  end.

Definition lit (x : ascii) : string -> option (string * string) := one (Ascii.eqb x).

(** [a] followed by [b]. *)
Definition andthen (a b : string -> option (string * string)) (s : string)
  : option (string * string) :=
  match a s with
  | Some (m1, rest1) =>
      match b rest1 with
      | Some (m2, rest2) => Some (m1 +:+ m2, rest2)
      | None => None
      end
  | None => None
  end.

(** [a] if it matches, otherwise [b] (the order in which the regex engine
    tries the two lengths of [\d{1,2}]). *)
Definition orelse (a b : string -> option (string * string)) (s : string)
  : option (string * string) :=
  match a s with
  | Some r => Some r
  | None => b s
  end.

Definition digits3 : string -> option (string * string) :=
  andthen (one is_digit) (andthen (one is_digit) (one is_digit)).

(** [\.\d{3}\.\d{3}-[\dkK]] *)
Definition rut_tail : string -> option (string * string) :=
  andthen (lit ".") (andthen digits3 (andthen (lit ".") (andthen digits3
    (andthen (lit "-") (one is_check_digit))))).

(** The group: [\d{1,2}\.\d{3}\.\d{3}-[\dkK]], two leading digits first. *)
Definition rut_group : string -> option (string * string) :=
  orelse (andthen (one is_digit) (andthen (one is_digit) rut_tail))
         (andthen (one is_digit) rut_tail).

(** A match at the start of [s]: the text of group 1 and what follows the
    closing quote. *)
Definition match_rut (s : string) : option (string * string) :=
  match lit "'" s with
  | Some (_, s1) =>
      match rut_group s1 with
      | Some (group1, s2) =>
          match lit "'" s2 with
          | Some (_, rest) => Some (group1, rest)
          | None => None
          end
      | None => None
      end
  | None => None
  end.

(** [re.sub]: leftmost matches, none overlapping; a match is replaced and
    the scan goes on behind it.  [fuel] bounds the scan; the length of the
    text is enough. *)
Fixpoint sub_ruts (fuel : nat) (s : string) : string :=
  match fuel with
  | O => s
  | S fuel' =>
      match match_rut s with
      | Some (group1, rest) =>
          "'" +:+ normalize_rut group1 +:+ "'" +:+ sub_ruts fuel' rest
      | None =>
          match s with
          | EmptyString => EmptyString
          | String c s' => String c (sub_ruts fuel' s')
          end
      end
  end.

Definition _normalize_ruts_in_query (query : string) : string :=
  sub_ruts (String.length query) query.

(** *** Execution *)

Definition Row : Type := list (string * string).

(** The connection pool: [conn.fetch(query)] returns rows or raises; the
    message is [str(e)]. *)
Record Database : Type := mkDatabase {
  fetch : string -> Result (list Row)
}.

Definition str_of_exn (e : Exn) : string :=
  match e with
  | FileNotFoundError m | ValueError m | IndexError m | KeyError m
  | TypeError m | RuntimeError m => m
  end.

(** The dict [execute] returns; [error] is [None] when the key is absent. *)
Record ToolResult : Type := mkToolResult {
  error : option string;
  query : string;
  results : list Row;
  count : nat
}.

(** The query [execute] sends to the database once it is validated. *)
Definition with_limit (query : string) : string :=
  if negb (Py.contains "LIMIT" (Py.upper query))
  then Py.rstrip_char ";" query +:+ " LIMIT " +:+ Py.str_of_nat MAX_SQL_ROWS
  else query.

Definition execute (db : Database) (query : string) : ToolResult :=
  let query := _normalize_ruts_in_query query in
  let '(is_safe, error) := validate query in
  if negb is_safe then mkToolResult (Some error) query [] 0
  else
    let query := with_limit query in
    match fetch db query with
    | Ok rows => mkToolResult None query rows (length rows)
    | Raise e => mkToolResult (Some (str_of_exn e)) query [] 0
    end.

(** *** Dotted RUTs and their surroundings *)

(** The texts group 1 of the pattern matches: one or two digits, a dot,
    three digits, a dot, three digits, a dash, and a digit or [k] or [K]. *)
Definition rut_body (a1 a2 a3 b1 b2 b3 v : ascii) : string :=
  String "." (String a1 (String a2 (String a3 (String "."
    (String b1 (String b2 (String b3 (String "-" (String v EmptyString))))))))).

Inductive dotted_rut : string -> Prop :=
| dotted_rut_1 d1 a1 a2 a3 b1 b2 b3 v :
    is_digit d1 = true ->
    is_digit a1 = true -> is_digit a2 = true -> is_digit a3 = true ->
    is_digit b1 = true -> is_digit b2 = true -> is_digit b3 = true ->
    is_check_digit v = true ->
    dotted_rut (String d1 (rut_body a1 a2 a3 b1 b2 b3 v))
| dotted_rut_2 d1 d2 a1 a2 a3 b1 b2 b3 v :
    is_digit d1 = true -> is_digit d2 = true ->
    is_digit a1 = true -> is_digit a2 = true -> is_digit a3 = true ->
    is_digit b1 = true -> is_digit b2 = true -> is_digit b3 = true ->
    is_check_digit v = true ->
    dotted_rut (String d1 (String d2 (rut_body a1 a2 a3 b1 b2 b3 v))).

(** The last character of [s] could end a RUT; the first could start one. *)
Fixpoint ends_with_check_digit (s : string) : bool :=
  match s with
  | EmptyString => false
  | String c EmptyString => is_check_digit c
  | String _ s' => ends_with_check_digit s'
  end.

Definition starts_with_digit (s : string) : bool :=
  match s with
  | EmptyString => false
  | String c _ => is_digit c
  end.

(** No quote in the text; an even number of quotes in the text (so that a
    quote that follows opens a literal). *)
Fixpoint quote_free (s : string) : bool :=
  match s with
  | EmptyString => true
  | String c s' => negb (Ascii.eqb c "'") && quote_free s'
  end.

Fixpoint quotes_balanced (s : string) : bool :=
  match s with
  | EmptyString => true
  | String c s' =>
      if Ascii.eqb c "'" then negb (quotes_balanced s') else quotes_balanced s'
  end.

(** [t] is [s] with some of its dots taken out, each of them standing
    right before a digit. *)
Inductive dots_removed : string -> string -> Prop :=
| dots_removed_nil : dots_removed EmptyString EmptyString
| dots_removed_keep c s t :
    dots_removed s t -> dots_removed (String c s) (String c t)
| dots_removed_drop s t :
    starts_with_digit s = true -> dots_removed s t ->
    dots_removed (String "." s) t.

(** A word without digits, dots or white space: the keywords and table
    names of the validator are such words. *)
Fixpoint plain_word (w : string) : bool :=
  match w with
  | EmptyString => true
  | String c w' =>
      negb (is_digit c) && negb (Ascii.eqb c ".") && negb (Py.is_space c) &&
      plain_word w'
  end.

(** The two shapes of a result, and what the validator lets through, in
    the words of the specification. *)
Definition rejected (r : ToolResult) : Prop :=
  (exists msg, error r = Some msg) /\ results r = [] /\ count r = 0.

Definition answered (r : ToolResult) : Prop :=
  error r = None /\ count r = length (results r).

Definition accepted (query : string) : Prop :=
  Py.startswith (Py.strip (Py.upper query)) "SELECT" = true /\
  (forall keyword, List.In keyword FORBIDDEN_SQL_KEYWORDS ->
                   Py.contains keyword (Py.strip (Py.upper query)) = false) /\
  (exists table, List.In table ALLOWED_TABLES /\
                 Py.contains table (Py.lower query) = true).

(** *** The words of a statement, for the reading of the specification

    A statement has a LIMIT clause only if [LIMIT] is one of its words
    outside string literals.  [mask_literals] blanks the literals, [words]
    cuts what is left at every character that cannot be part of a name. *)
Definition is_name_char (c : ascii) : bool :=
  let n := nat_of_ascii c in
  is_digit c || ((65 <=? n) && (n <=? 90)) || ((97 <=? n) && (n <=? 122)) ||
  Ascii.eqb c "_".

Fixpoint mask_literals (inside : bool) (s : string) : string :=
  match s with
  | EmptyString => EmptyString
  | String c s' =>
      if Ascii.eqb c "'" then String " " (mask_literals (negb inside) s')
      else String (if inside then " "%char else c) (mask_literals inside s')
  end.

Fixpoint words_from (current : string) (s : string) : list string :=
  match s with
  | EmptyString => match current with EmptyString => [] | _ => [current] end
  | String c s' =>
      if is_name_char c then words_from (current +:+ String c EmptyString) s'
      else match current with
           | EmptyString => words_from EmptyString s'
           | _ => current :: words_from EmptyString s'
           end
  end.

Definition sql_words (query : string) : list string :=
  words_from EmptyString (mask_literals false query).

Definition has_limit_clause (query : string) : bool :=
  existsb (String.eqb "LIMIT") (map Py.upper (sql_words query)).

(** Sample inputs: a database that returns one row for every query, and a
    query about a company whose name contains the letters of LIMIT. *)
Definition one_row_db : Database :=
  mkDatabase (fun _ => Ok [[("rut", "12345678-9")]]).

(** A statement in which a RUT literal directly follows another RUT. *)
Definition crowded_prefix : string :=
  "SELECT * FROM afiliados WHERE rut = ''11.234.567-8".

Definition limitada_query : string :=
  "SELECT * FROM empleadores WHERE razon_social = 'Comercial Limitada'".

End SQLQueryTool.

(** ** The termination tool ([src/tools/finish_tool.py]) *)

Module FinishTool.

Record FinishResult : Type := mkFinishResult {
  summary : string;
  sources : list string;
  confidence : string;
  finished : bool
}.

(** [execute(summary, sources=None, confidence="medium")] *)
Definition execute (summary : string) (sources : option (list string))
           (confidence : option string) : FinishResult :=
  mkFinishResult summary (default [] sources) (default "medium" confidence) true.

End FinishTool.

(** ** The reasoning loop ([src/agents/buscador/agent.py]) *)

Module AgenteBuscador.

Definition MAX_ITERATIONS : nat := 10.
Definition MAX_LOOP_REPEATS : nat := 3.

(** The tools [register_tools] finds on the agent.  The gateway raises for
    any other name, so an action always names one of them. *)
Inductive Tool : Type := sql_query | list_documents | read_document | finish.

Definition tool_name (t : Tool) : string :=
  match t with
  | sql_query => "sql_query"
  | list_documents => "list_documents"
  | read_document => "read_document"
  | finish => "finish"
  end.

Definition is_finish (t : Tool) : bool :=
  match t with finish => true | _ => false end.

(** The output of a tool: the keys of the dict that the loop reads. *)
Record Output : Type := mkOutput {
  out_error : option string;
  out_count : option Z;
  out_summary : option string;
  out_sources : option (list string);
  out_confidence : option string
}.

Definition finish_output (r : FinishTool.FinishResult) : Output :=
  mkOutput None None (Some (FinishTool.summary r)) (Some (FinishTool.sources r))
           (Some (FinishTool.confidence r)).

Section Loop.

(** The values of tool arguments and how Python prints a sorted list of
    [(name, value)] pairs; the loop never looks inside either. *)
Context {ArgVal : Type}.
Variable repr_items : list (string * ArgVal) -> string.

Record Observation : Type := mkObservation {
  step : nat;
  tool : Tool;
  input : gmap string ArgVal;
  output : Output
}.

(** What the gateway can answer when asked to act, and when asked to plan. *)
Inductive Action : Type :=
| TextResponse (text : string)
| ToolCall (tool_name : Tool) (arguments : gmap string ArgVal) (result : Output)
| ActionError (msg : string).

Inductive Planned : Type :=
| PlanText (plan : string)
| PlanToolCall
| PlanError (msg : string).

(** The gateway, asked at iteration [n] with the history so far. *)
Record Gateway : Type := mkGateway {
  plan_for : nat -> string -> list Observation -> Planned;
  act_for : nat -> string -> string -> list Observation -> Action
}.

Record ResponseMetadata : Type := mkResponseMetadata {
  md_plan : option string;
  md_observations : list Observation;
  md_iterations : nat;
  md_finished_by : option string;
  md_error : option string;
  md_sources : option (list string);
  md_confidence : option string;
  md_completed : option bool
}.

Record AgentResponse : Type := mkAgentResponse {
  content : string;
  metadata : ResponseMetadata
}.

(** [sorted(args.items())]: the keys of a dict are distinct, so the order of
    the pairs is the order of their keys. *)
Fixpoint insert_by_key (kv : string * ArgVal) (l : list (string * ArgVal))
  : list (string * ArgVal) :=
  match l with
  | [] => [kv]
  | kv' :: rest =>
      if String.leb (fst kv) (fst kv') then kv :: l
      else kv' :: insert_by_key kv rest
  end.

Definition sorted_items (args : gmap string ArgVal) : list (string * ArgVal) :=
  foldr insert_by_key [] (map_to_list args).

(** [signature(obs)] inside [_detect_loop] *)
Definition signature (obs : Observation) : string :=
  tool_name (tool obs) +:+ ":" +:+ repr_items (sorted_items (input obs)).

(** [signatures.count(sig)] *)
Definition count_signature (sig : string) (observations : list Observation) : nat :=
  length (filter (fun o => signature o = sig) observations).

(** [_detect_loop].  [max_repeats = 0] stands for every non-positive value.
    [signatures[-1]] raises on an empty history. *)
Definition _detect_loop (observations : list Observation) (max_repeats : nat)
  : Result bool :=
  if length observations <? max_repeats then Ok false
  else
    match last observations with
    | None => Raise (IndexError "list index out of range")
    | Some last_obs =>
        Ok (max_repeats <=? count_signature (signature last_obs) observations)
    end.

(** [_should_replan] *)
Definition _should_replan (observations : list Observation) : bool :=
  match last observations with
  | None => false
  | Some last_obs =>
      let output := output last_obs in
      if Py.truthy_str (default "" (out_error output)) then true
      else if (default (-1) (out_count output) =? 0)%Z then true
      else false
  end.

Definition useful_result (obs : Observation) : option string :=
  let output := output obs in
  if negb (Py.truthy_str (default "" (out_error output))) &&
     (0 <? default 0 (out_count output))%Z
  then Some ("- " +:+ tool_name (tool obs) +:+ ": " +:+
             AgentRetrieval.str_of_Z (default 0%Z (out_count output)) +:+
             " resultados")
  else None.

Definition newline : string := String (ascii_of_nat 10) EmptyString.

(** [_build_partial_summary] *)
Definition _build_partial_summary (query : string) (observations : list Observation)
  : string :=
  let summary := "Búsqueda parcial para: " +:+ query +:+ newline +:+ newline in
  match omap useful_result observations with
  | [] => summary +:+ "No se encontraron resultados relevantes."
  | results =>
      summary +:+ "Resultados encontrados:" +:+ newline +:+
      String.concat newline results
  end.

(** The pretty-printer of [_build_summary_from_observations] reads rows of
    the database; only its result matters to the loop. *)
Variable _build_summary_from_observations : string -> list Observation -> string.

Variable model_provider : Gateway.
Variable max_iterations : nat.

(** [_fallback_response] *)
Definition _fallback_response (query : string) (observations : list Observation)
           (plan : option string) : AgentResponse :=
  let summary :=
    _build_partial_summary query observations +:+ newline +:+ newline +:+
    "(Búsqueda terminada por límite de " +:+ Py.str_of_nat max_iterations +:+
    " iteraciones)" in
  mkAgentResponse summary
    (mkResponseMetadata plan observations max_iterations None
       (Some "max_iterations_reached") None None (Some false)).

(** [_generate_plan] *)
Definition _generate_plan (iteration : nat) (query : string)
           (observations : list Observation) : Result string :=
  match plan_for model_provider iteration query observations with
  | PlanText plan => Ok plan
  | PlanToolCall =>
      Ok ("1. Buscar información relevante" +:+ newline +:+
          "2. Consolidar resultados")
  | PlanError msg => Raise (RuntimeError msg)
  end.

(** The variables of [run] at the top of an iteration. *)
Record State : Type := mkState {
  iteration : nat;
  observations : list Observation;
  current_plan : option string
}.

Inductive Outcome : Type :=
| Continue (st : State)
| Return (r : AgentResponse)
| Raised (e : Exn).

(** Step 1 of the body: a plan is generated when there is none or when
    the last observation asks for a new one. *)
Definition plan_phase (query : string) (st : State) : Result string :=
  match current_plan st with
  | None => _generate_plan (iteration st) query (observations st)
  | Some plan =>
      if _should_replan (observations st)
      then _generate_plan (iteration st) query (observations st)
      else Ok plan
  end.

Definition loop_detected_response (query : string) (plan : string)
           (observations : list Observation) (iterations : nat) : AgentResponse :=
  mkAgentResponse (_build_partial_summary query observations)
    (mkResponseMetadata (Some plan) observations iterations
       None (Some "loop_detected") None None None).

Definition finish_response (plan : string) (observations : list Observation)
           (iterations : nat) (result : Output) : Outcome :=
  match out_summary result with
  | None => Raised (KeyError "summary")
  | Some summary =>
      Return (mkAgentResponse summary
                (mkResponseMetadata (Some plan) observations iterations None None
                   (Some (default [] (out_sources result)))
                   (Some (default "medium" (out_confidence result)))
                   None))
  end.

(** Step 2 for a model that answers with text. *)
Definition text_outcome (query : string) (st : State) (plan result : string) : Outcome :=
  match observations st with
  | [] => Continue (mkState (S (iteration st)) (observations st) (Some plan))
  | _ =>
      if Py.truthy_str (Py.strip result) then
        Return (mkAgentResponse result
                  (mkResponseMetadata (Some plan) (observations st) (iteration st + 1)
                     (Some "text_response") None None None None))
      else
        Return (mkAgentResponse
                  (_build_summary_from_observations query (observations st))
                  (mkResponseMetadata (Some plan) (observations st) (iteration st + 1)
                     (Some "auto_summary") None None None None))
  end.

(** The body of the [for] loop of [run]: plan, act, observe, decide.  The
    decision tests [_detect_loop] first and the finish tool second. *)
Definition body (query : string) (st : State) : Outcome :=
  match plan_phase query st with
  | Raise e => Raised e
  | Ok plan =>
      match act_for model_provider (iteration st) query plan (observations st) with
      | ActionError msg => Raised (RuntimeError msg)
      | TextResponse result => text_outcome query st plan result
      | ToolCall tool_name arguments result =>
          let observations :=
            observations st ++
            [mkObservation (iteration st + 1) tool_name arguments result] in
          match _detect_loop observations MAX_LOOP_REPEATS with
          | Raise e => Raised e
          | Ok true =>
              Return (loop_detected_response query plan observations (iteration st + 1))
          | Ok false =>
              if is_finish tool_name
              then finish_response plan observations (iteration st + 1) result
              else Continue (mkState (S (iteration st)) observations (Some plan))
          end
      end
  end.

(** The same body with the decision in the order of the specification: the
    finish tool first, loop detection second. *)
Definition body_in_spec_order (query : string) (st : State) : Outcome :=
  match plan_phase query st with
  | Raise e => Raised e
  | Ok plan =>
      match act_for model_provider (iteration st) query plan (observations st) with
      | ActionError msg => Raised (RuntimeError msg)
      | TextResponse result => text_outcome query st plan result
      | ToolCall tool_name arguments result =>
          let observations :=
            observations st ++
            [mkObservation (iteration st + 1) tool_name arguments result] in
          if is_finish tool_name
          then finish_response plan observations (iteration st + 1) result
          else
            match _detect_loop observations MAX_LOOP_REPEATS with
            | Raise e => Raised e
            | Ok true =>
                Return (loop_detected_response query plan observations (iteration st + 1))
            | Ok false => Continue (mkState (S (iteration st)) observations (Some plan))
            end
      end
  end.

(** [for iteration in range(max_iterations)], then the fallback. *)
Fixpoint iterate (remaining : nat) (query : string) (st : State) : Result AgentResponse :=
  match remaining with
  | O => Ok (_fallback_response query (observations st) (current_plan st))
  | S remaining' =>
      match body query st with
      | Continue st' => iterate remaining' query st'
      | Return r => Ok r
      | Raised e => Raise e
      end
  end.

Definition initial : State := mkState 0 [] None.

Definition run (query : string) : Result AgentResponse :=
  iterate max_iterations query initial.

(** The states at the top of the iterations that [run] goes through. *)
Fixpoint trace (remaining : nat) (query : string) (st : State) : list State :=
  match remaining with
  | O => [st]
  | S remaining' =>
      st :: match body query st with
            | Continue st' => trace remaining' query st'
            | _ => []
            end
  end.

Fixpoint strictly_increasing (l : list nat) : Prop :=
  match l with
  | [] => True
  | x :: rest =>
      match rest with
      | [] => True
      | y :: _ => x < y
      end /\ strictly_increasing rest
  end.

(** What holds of the history at the top of every iteration: the steps
    increase strictly and each is the number (from 1) of an iteration that
    has been run. *)
Definition steps_ok (upto : nat) (observations : list Observation) : Prop :=
  strictly_increasing (map step observations) /\
  Forall (fun o => 1 <= step o <= upto) observations.

(** A state in which no recorded action is a call of [finish]. *)
Definition no_finish (st : State) : Prop :=
  Forall (fun o => is_finish (tool o) = false) (observations st).

(** The reading of the specification: steps count 1, 2, 3, ... *)
Definition steps_from_one (observations : list Observation) : Prop :=
  match observations with
  | [] => True
  | first :: _ => step first = 1
  end.

End Loop.

(** Sample gateways for the examples; argument values are strings printed
    as they are. *)
Definition plain_repr (items : list (string * string)) : string :=
  String.concat ", " (map (fun kv => fst kv +:+ "=" +:+ snd kv) items).

Definition same_query : gmap string string :=
  {[ "query" := "SELECT * FROM afiliados" ]}.

Definition no_rows : Output := mkOutput None (Some 0%Z) None None None.

(** A model that asks for the same query again and again. *)
Definition stubborn : Gateway (ArgVal := string) :=
  mkGateway (fun _ _ _ => PlanText "1. consultar")
            (fun _ _ _ _ => ToolCall sql_query same_query no_rows).

(** A model that answers with empty text first and calls [finish] next. *)
Definition hesitant : Gateway (ArgVal := string) :=
  mkGateway (fun _ _ _ => PlanText "1. terminar")
            (fun n _ _ _ =>
               match n with
               | O => TextResponse ""
               | S _ =>
                   ToolCall finish ∅
                     (finish_output (FinishTool.execute "listo" None None))
               end).

(** The state of a run with [stubborn] after two iterations. *)
Definition asked_twice : State (ArgVal := string) :=
  mkState 2 [mkObservation 1 sql_query same_query no_rows;
             mkObservation 2 sql_query same_query no_rows]
          (Some "1. consultar").

Definition asked_thrice : list (Observation (ArgVal := string)) :=
  [mkObservation 1 sql_query same_query no_rows;
   mkObservation 2 sql_query same_query no_rows;
   mkObservation 3 sql_query same_query no_rows].

(** The state of a run with [hesitant] after its first iteration. *)
Definition hesitated : State (ArgVal := string) :=
  mkState 1 [] (Some "1. terminar").

Definition no_summary (query : string) (observations : list (Observation (ArgVal := string)))
  : string := "".

End AgenteBuscador.

(** ** More of the code: samples *)

Module BuscadorSamples.

Import AgenteBuscador.

(** A model that answers every prompt with text and never calls a tool. *)
Definition chatty : Gateway (ArgVal := string) :=
  mkGateway (fun _ _ _ => PlanText "1. responder")
            (fun _ _ _ _ => TextResponse "Hola").

(** The state of a run with [stubborn] after one iteration. *)
Definition asked_once : State (ArgVal := string) :=
  mkState 1 [mkObservation 1 sql_query same_query no_rows] (Some "1. consultar").

(** A gateway that cannot reach the model. *)
Definition offline : Gateway (ArgVal := string) :=
  mkGateway (fun _ _ _ => PlanError "Error generando con Gemini: 503")
            (fun _ _ _ _ => ActionError "Error generando con Gemini: 503").

End BuscadorSamples.

(** ** The retrieval tool ([src/tools/retrieval_agent_tool.py]) *)

Module RetrievalAgentTool.

Import ChunkEvaluator AgentRetrieval.

(** The dict of [retrieve] with the [query] key that [execute] adds. *)
Record ToolOutput : Type := mkToolOutput {
  result : RetrievalResult;
  query : string
}.

(** [execute(query, top_k=3)]: [top_k = min(top_k, 5)], then [retrieve]
    with the default documents path. *)
Definition execute (w : World) (query : string) (top_k : option Z)
           (read_all_documents : Result (list Document)) : Result ToolOutput :=
  let top_k := Z.min (default 3%Z top_k) 5 in
  result <-! retrieve w query top_k read_all_documents ;
  Ok (mkToolOutput result query).

End RetrievalAgentTool.

Module RetrievalSamples.

Import ChunkEvaluator AgentRetrieval.

(** A judge that answers every document with the empty JSON object. *)
Definition terse_judge : World :=
  mkWorld (fun _ _ => GenText "{}")
          (fun s => if String.eqb s "{}" then Some (JObj []) else None)
          (fun s => s).

(** A call of the model among the events of [retrieve_with_index]. *)
Definition is_model_call (e : Event) : bool :=
  match e with
  | Phase1Call _ | Phase2Call _ | Phase3Call _ => true
  | _ => false
  end.

End RetrievalSamples.

(** ** Reading pages back ([src/rag/agent_based/document_reader.py]) *)

Module DocumentReader.

Import AgentRAGIndexer.

Definition newline : string := String (ascii_of_nat 10) EmptyString.

(** What [read_pdf_pages] puts out for the page at index [page_num]. *)
Definition page_part (page_num : nat) (page_text : string) : string :=
  "--- Página " +:+ Py.str_of_nat (page_num + 1) +:+ " ---" +:+ newline +:+ page_text.

(** The loop over the page indices; [doc[page_num]] raises outside the
    document.  Pages without text are left out. *)
Fixpoint read_range (doc : list string) (page_nums : list nat) : Result (list string) :=
  match page_nums with
  | [] => Ok []
  | page_num :: rest =>
      match doc !! page_num with
      | None => Raise (IndexError "page not in document")
      | Some page_text =>
          text_parts <-! read_range doc rest ;
          Ok (if has_text page_text
              then page_part page_num page_text :: text_parts
              else text_parts)
      end
  end.

(** [range(page_start - 1, page_end)] for [page_start >= 1]. *)
Definition page_indices (page_start page_end : Z) : list nat :=
  seq (Z.to_nat (page_start - 1)) (Z.to_nat (page_end - (page_start - 1))).

(** [read_pdf_pages(file_path, page_start, page_end)]; [doc] is the list of
    the page texts of the PDF that [fitz.open] returns. *)
Definition read_pdf_pages (doc : list string) (page_start page_end : Z)
  : Result string :=
  let total_pages := length doc in
  if (page_start <? 1)%Z || (Z.of_nat total_pages <? page_end)%Z then
    Raise (ValueError "Rango de páginas inválido")
  else
    text_parts <-! read_range doc (page_indices page_start page_end) ;
    Ok (String.concat (newline +:+ newline) text_parts).

End DocumentReader.

(** ** Loading the content of sections ([_load_section_content] of
    [src/rag/agent_based/retrieval.py]) *)

Module SectionLoader.

Import AgentRAGIndexer AgentRetrieval.

(** [s.split(sep)] for a one-character [sep]: never empty. *)
Fixpoint split_on (sep : ascii) (s : string) : list string :=
  match s with
  | EmptyString => [EmptyString]
  | String c s' =>
      if Ascii.eqb c sep then EmptyString :: split_on sep s'
      else match split_on sep s' with
           | [] => [String c EmptyString]
           | part :: parts => String c part :: parts
           end
  end.

(** [int(s)] for a string, [None] for [ValueError]: white space around, an
    optional sign, then decimal digits, which single underscores may
    separate.  (Digits outside ASCII and the limit on the number of digits
    of recent versions are outside the model.) *)
Fixpoint parse_digits (acc : Z) (after_digit : bool) (s : string) : option Z :=
  match s with
  | EmptyString => if after_digit then Some acc else None
  | String c s' =>
      if Ascii.eqb c "_" then
        if after_digit then parse_digits acc false s' else None
      else if SQLQueryTool.is_digit c then
        parse_digits (acc * 10 + Z.of_nat (nat_of_ascii c - 48)) true s'
      else None
  end.

Definition py_int_of_str (s : string) : option Z :=
  match Py.strip s with
  | String "+" rest => parse_digits 0 false rest
  | String "-" rest => Z.opp <$> parse_digits 0 false rest
  | t => parse_digits 0 false t
  end.

(** A string of decimal digits only, as [str] prints a natural number. *)
Fixpoint all_digits (s : string) : bool :=
  match s with
  | EmptyString => true
  | String c s' => SQLQueryTool.is_digit c && all_digits s'
  end.

(** [bool(v)] for an optional number. *)
Definition truthy_num (v : option Z) : bool :=
  match v with
  | Some z => negb (z =? 0)%Z
  | None => false
  end.

(** The page range of a section, in the three formats the loader knows:
    the list [pages], the string [page_range], the fields [page_start] and
    [page_end].  A [page_range] that cannot be read leaves what was
    assigned before the exception. *)
Definition page_bounds (section : SectionData) : option Z * option Z :=
  match sd_pages section with
  | Some (p :: ps) =>
      (Some (Z.of_nat (foldr Nat.min p ps)), Some (Z.of_nat (foldr Nat.max p ps)))
  | _ =>
      match sd_page_range section with
      | Some (String c r) =>
          match split_on "-" (String c r) with
          | [] => (None, None)
          | part0 :: parts =>
              match py_int_of_str part0 with
              | None => (None, None)
              | Some page_start =>
                  match parts with
                  | [] => (Some page_start, None)
                  | part1 :: _ => (Some page_start, py_int_of_str part1)
                  end
              end
          end
      | _ =>
          match sd_page_start section, sd_page_end section with
          | Some a, Some b =>
              if negb (a =? 0) && negb (b =? 0)
              then (Some (Z.of_nat a), Some (Z.of_nat b))
              else (None, None)
          | _, _ => (None, None)
          end
      end
  end.

(** [x in container] for a string [x]. *)
Definition py_in (x : string) (container : json) : Result bool :=
  match container with
  | JArr items =>
      Ok (existsb (fun i => match i with JStr s => String.eqb s x | _ => false end) items)
  | JStr s => Ok (Py.contains x s)
  | JObj fields => Ok (existsb (fun kv => String.eqb (fst kv) x) fields)
  | _ => Raise (TypeError "argument is not iterable")
  end.

(** The file system as the loader sees it: whether a path exists, its
    suffix, the page texts of the PDF at a path, and the text that
    [_read_file] followed by [_extract_section_from_content] gives for a
    section. *)
Record Files : Type := mkFiles {
  path_exists : string -> bool;
  suffix : string -> string;
  open_pdf : string -> Result (list string);
  read_section : string -> SectionData -> Result string
}.

Definition section_content (fs : Files) (doc_path : string) (is_pdf : bool)
           (section : SectionData) : Result string :=
  let '(page_start, page_end) := page_bounds section in
  if is_pdf && truthy_num page_start && truthy_num page_end then
    doc <-! open_pdf fs doc_path ;
    DocumentReader.read_pdf_pages doc (default 0%Z page_start) (default 0%Z page_end)
  else read_section fs doc_path section.

(** The loop over [all_sections]: a section that is not asked for is
    passed over, and so is one whose content cannot be read. *)
Fixpoint load_sections (fs : Files) (doc_path : string) (is_pdf : bool)
         (document_index : IndexData) (section_ids : json)
         (all_sections : list SectionData) : Result (list SectionContent) :=
  match all_sections with
  | [] => Ok []
  | section :: rest =>
      wanted <-! py_in (sd_section_id section) section_ids ;
      if negb wanted then
        load_sections fs doc_path is_pdf document_index section_ids rest
      else
        match section_content fs doc_path is_pdf section with
        | Raise _ => load_sections fs doc_path is_pdf document_index section_ids rest
        | Ok content =>
            others <-! load_sections fs doc_path is_pdf document_index section_ids rest ;
            Ok (mkSectionContent (sd_section_id section) (sd_title section) content
                  (mkChunkMetadata (d_document_id document_index)
                     (d_procedure_code document_index)
                     (d_procedure_name document_index)
                     (Z.to_nat <$> fst (page_bounds section))
                     (Z.to_nat <$> snd (page_bounds section))
                     (d_category document_index))
                :: others)
        end
  end.

Definition _load_section_content (fs : Files) (document_index : IndexData)
           (section_ids : json) : Result (list SectionContent) :=
  let doc_path := default "" (d_path document_index) in
  if negb (path_exists fs doc_path) then Ok []
  else
    let is_pdf := String.eqb (Py.lower (suffix fs doc_path)) ".pdf" in
    load_sections fs doc_path is_pdf document_index section_ids
                  (d_sections document_index).

(** An index file that also names the document it was made from. *)
Definition with_path (path : string) (d : IndexData) : IndexData :=
  mkIndexData (d_document_id d) (d_procedure_code d) (d_procedure_name d)
              (d_category d) (d_summary d) (Some path) (d_sections d).

(** A section that gives its pages only as a [page_range] string. *)
Definition range_only (s : Section) : SectionData :=
  mkSectionData (section_id s) (title s) None (Some (page_range s))
                None None (Some (summary s)).

(** A file system with one PDF of three pages, the second one blank, for
    the examples. *)
Definition one_pdf : Files :=
  mkFiles (fun _ => true) (fun _ => ".PDF") (fun _ => Ok blank_middle)
          (fun _ _ => Raise (ValueError "not a text file")).

(** A file system in which the empty path is the current directory: it
    exists, has no suffix and cannot be read as a file. *)
Definition no_path_files : Files :=
  mkFiles (fun _ => true) (fun _ => "") (fun _ => Raise (RuntimeError "not a PDF"))
          (fun _ _ => Raise (RuntimeError "Is a directory")).

End SectionLoader.

(** ** The keywords of a summary ([_extract_keywords] of
    [src/rag/agent_based/indexer.py]) *)

Module IndexerKeywords.

Definition stopwords : list string :=
  ["el"; "la"; "los"; "las"; "un"; "una"; "unos"; "unas";
   "de"; "del"; "al"; "y"; "o"; "en"; "a"; "por"; "para";
   "con"; "sin"; "sobre"; "que"; "es"; "son"; "está"; "están";
   "se"; "su"; "sus"; "este"; "esta"; "estos"; "estas";
   "como"; "si"; "no"; "más"; "pero"; "cuando"; "donde"].

(** The dict [word_freq], with its keys in the order in which they were
    first inserted: [word_freq.get(word, 0)] and [word_freq[word] = v]. *)
Fixpoint dict_get (word : string) (word_freq : list (string * nat)) : nat :=
  match word_freq with
  | [] => 0
  | (w, n) :: rest => if String.eqb w word then n else dict_get word rest
  end.

Fixpoint dict_set (word : string) (v : nat) (word_freq : list (string * nat))
  : list (string * nat) :=
  match word_freq with
  | [] => [(word, v)]
  | (w, n) :: rest =>
      if String.eqb w word then (w, v) :: rest
      else (w, n) :: dict_set word v rest
  end.

(** [word_freq[word] = word_freq.get(word, 0) + 1] *)
Definition bump (word : string) (word_freq : list (string * nat))
  : list (string * nat) :=
  dict_set word (dict_get word word_freq + 1) word_freq.

Definition count_words (words : list string) : list (string * nat) :=
  fold_left (fun word_freq word => bump word word_freq) words [].

(** [sorted(items, key=lambda x: x[1], reverse=True)]: by decreasing
    frequency; the sort is stable, so items of equal frequency keep their
    order. *)
Fixpoint insert_by_freq (x : string * nat) (sorted : list (string * nat))
  : list (string * nat) :=
  match sorted with
  | [] => [x]
  | y :: rest =>
      if snd x <? snd y then y :: insert_by_freq x rest else x :: y :: rest
  end.

Fixpoint sort_by_freq (items : list (string * nat)) : list (string * nat) :=
  match items with
  | [] => []
  | x :: rest => insert_by_freq x (sort_by_freq rest)
  end.

(** [_extract_keywords], from the list of words that [re.findall] gives
    for the lower-cased text. *)
Definition _extract_keywords (words : list string) (max_keywords : Z)
  : list string :=
  let words := List.filter (fun w => negb (existsb (String.eqb w) stopwords)) words in
  let word_freq := count_words words in
  let top_words := AgentRetrieval.slice_to (sort_by_freq word_freq) max_keywords in
  map fst top_words.

End IndexerKeywords.



(** * Theorems *)

(** ** Strings *)

Module StringFacts.

Lemma append_cons (c : ascii) (s t : string) : String c s +:+ t = String c (s +:+ t).
Proof. reflexivity. Qed.

Lemma append_nil_l (s : string) : "" +:+ s = s.
Proof. reflexivity. Qed.

Lemma append_nil_r (s : string) : s +:+ "" = s.
Proof.
  induction s as [|c s IH]; [reflexivity|]. rewrite append_cons, IH. reflexivity.
Qed.

Lemma append_assoc (a b c : string) : (a +:+ b) +:+ c = a +:+ (b +:+ c).
Proof.
  induction a as [|x a IH]; [reflexivity|]. rewrite !append_cons, IH. reflexivity.
Qed.

Lemma length_append (a b : string) :
  String.length (a +:+ b) = String.length a + String.length b.
Proof.
  induction a as [|c a IH]; [reflexivity|].
  rewrite append_cons. cbn [String.length]. rewrite IH. reflexivity.
Qed.

Lemma endswith_append (d p : string) : Py.endswith (d +:+ p) p = true.
Proof.
  induction d as [|c d IH]; simpl.
  - destruct p; simpl; rewrite ?String.eqb_refl, ?Ascii.eqb_refl; reflexivity.
  - rewrite IH. apply orb_true_r.
Qed.

Lemma startswith_append (d p s : string) :
  Py.startswith d p = true -> Py.startswith (d +:+ s) p = true.
Proof.
  revert d. induction p as [|x p IH]; intros d; [reflexivity|].
  destruct d as [|c d]; simpl; [discriminate|].
  intros H. apply andb_true_iff in H. destruct H as [-> H]. simpl. apply IH, H.
Qed.

Lemma startswith_length (d p : string) :
  Py.startswith d p = true -> String.length p <= String.length d.
Proof.
  revert d. induction p as [|x p IH]; intros d; simpl; [lia|].
  destruct d as [|c d]; [discriminate|]. intros H.
  apply andb_true_iff in H. destruct H as [_ H]. apply IH in H. simpl. lia.
Qed.

End StringFacts.


(** ** The indexer: batches and sections *)

Module IndexerFacts.

Import AgentRAGIndexer.

Lemma full_but_last_lookup {A : Type} (n : nat) (bs : list (list A)) i b :
  full_but_last n bs -> bs !! i = Some b -> S i < length bs -> length b = n.
Proof.
  revert i. induction bs as [|b0 rest IH]; intros i Hs Hi Hlen; [discriminate|].
  destruct Hs as [Hb Hrest]. destruct i as [|i]; simpl in *.
  - injection Hi as <-. destruct rest; simpl in *; [lia|exact Hb].
  - eapply IH; eauto. lia.
Qed.

Lemma full_but_last_last {A : Type} (n : nat) (bs : list (list A)) b :
  full_but_last n bs -> last bs = Some b -> 1 <= length b <= n.
Proof.
  induction bs as [|b0 rest IH]; intros Hs Hl; [discriminate|].
  destruct Hs as [Hb Hrest]. destruct rest as [|b1 rest'].
  - simpl in Hl. injection Hl as <-. exact Hb.
  - apply IH; [exact Hrest|]. exact Hl.
Qed.

Section Batches.

Context {A : Type}.
Variable l : list A.
Variable n : nat.
Hypothesis n_pos : 1 <= n.

Lemma slice_take_drop i : slice l i (i + n) = take n (drop i l).
Proof using n_pos. unfold slice. f_equal. lia. Qed.

(** The starting points [range] produces leave nothing out. *)
Lemma range_from_concat fuel start :
  length l - start <= fuel ->
  concat (map (fun i => slice l i (i + n)) (range_from fuel start (length l) n))
  = drop start l.
Proof using n_pos.
  revert start. induction fuel as [|fuel IH]; intros start Hfuel; simpl.
  - rewrite drop_ge by lia. reflexivity.
  - destruct (Nat.ltb_spec start (length l)) as [Hlt|Hge]; simpl.
    + rewrite IH by lia. rewrite slice_take_drop.
      rewrite <- (take_drop n (drop start l)) at 2.
      rewrite drop_drop. reflexivity.
    + rewrite drop_ge by lia. reflexivity.
Qed.

Lemma range_from_shape fuel start :
  length l - start <= fuel ->
  full_but_last n (map (fun i => slice l i (i + n)) (range_from fuel start (length l) n)).
Proof using n_pos.
  revert start. induction fuel as [|fuel IH]; intros start Hfuel; simpl; [exact I|].
  destruct (Nat.ltb_spec start (length l)) as [Hlt|Hge]; simpl; [|exact I].
  split; [|apply IH; lia].
  rewrite slice_take_drop, length_take, length_drop.
  destruct fuel as [|fuel']; simpl.
  - lia.
  - destruct (Nat.ltb_spec (start + n) (length l)); simpl; lia.
Qed.

Lemma full_but_last_nonempty (bs : list (list A)) :
  full_but_last n bs -> Forall (fun b => b <> []) bs.
Proof using n_pos.
  induction bs as [|b0 rest IH]; intros Hs; constructor.
  - destruct Hs as [Hb _]. destruct rest; intros ->; simpl in Hb; lia.
  - apply IH, Hs.
Qed.

End Batches.

(** What [_create_batches] returns for a positive batch size. *)
Lemma create_batches_ok (pages : list Page) (batch_size : Z) :
  (1 <= batch_size)%Z ->
  _create_batches pages batch_size =
  Ok (map (fun i => slice pages i (i + Z.to_nat batch_size))
          (range_from (length pages) 0 (length pages) (Z.to_nat batch_size))).
Proof.
  intros Hb. unfold _create_batches, py_range0.
  destruct (Z.eqb_spec batch_size 0) as [->|_]; [lia|].
  destruct (Z.ltb_spec batch_size 0) as [?|_]; [lia|].
  reflexivity.
Qed.

(** C9.  For a non-empty sequence of pages and a batch size of at least
    one, [_create_batches] returns consecutive batches whose concatenation
    is the sequence; every batch but the last has exactly [batch_size]
    pages and the last has between 1 and [batch_size]. *)
Theorem create_batches_partition (pages : list Page) (batch_size : Z) :
  pages <> [] -> (1 <= batch_size)%Z ->
  exists batches,
    _create_batches pages batch_size = Ok batches /\
    concat batches = pages /\
    batches <> [] /\
    (forall i b, batches !! i = Some b -> S i < length batches ->
                 Z.of_nat (length b) = batch_size) /\
    (forall b, last batches = Some b ->
               (1 <= Z.of_nat (length b) <= batch_size)%Z).
Proof.
  intros Hne Hb. eexists. split; [apply create_batches_ok, Hb|].
  assert (Hn : 1 <= Z.to_nat batch_size) by lia.
  pose proof (range_from_concat pages _ Hn (length pages) 0 ltac:(lia)) as Hcat.
  pose proof (range_from_shape pages _ Hn (length pages) 0 ltac:(lia)) as Hshape.
  rewrite drop_0 in Hcat.
  split; [exact Hcat|]. split.
  - intros Hnil. rewrite Hnil in Hcat. simpl in Hcat. congruence.
  - split.
    + intros i b Hi Hlen.
      pose proof (full_but_last_lookup (Z.to_nat batch_size) _ i b Hshape Hi Hlen).
      lia.
    + intros b Hl.
      pose proof (full_but_last_last (Z.to_nat batch_size) _ b Hshape Hl). lia.
Qed.

Lemma create_batches_partition_witness :
  exists batches,
    _create_batches two_pages 5 = Ok batches /\
    concat batches = two_pages /\
    batches <> [] /\
    (forall i b, batches !! i = Some b -> S i < length batches ->
                 Z.of_nat (length b) = 5%Z) /\
    (forall b, last batches = Some b ->
               (1 <= Z.of_nat (length b) <= 5)%Z).
Proof.
  apply (create_batches_partition two_pages 5); [discriminate | lia].
Defined.

(** *** Pages and sections *)

(** [_read_pdf_pages] numbers the pages it keeps by their place in the
    document: the numbers increase and stay within the document. *)
Lemma read_pages_from_sorted k doc :
  StronglySorted lt (map page_num (read_pages_from k doc)) /\
  Forall (fun p => k < p <= k + length doc) (map page_num (read_pages_from k doc)).
Proof.
  revert k. induction doc as [|t rest IH]; intros k; simpl.
  - split; constructor.
  - destruct (IH (S k)) as [Hs Hb].
    assert (Hb' : Forall (fun p => k < p <= k + S (length rest))
                         (map page_num (read_pages_from (S k) rest))).
    { eapply Forall_impl; [exact Hb|]. simpl. intros; lia. }
    destruct (Py.truthy_str t && Py.truthy_str (Py.strip t)); simpl.
    + split.
      * constructor; [exact Hs|].
        eapply Forall_impl; [exact Hb|]. simpl. intros; lia.
      * constructor; [simpl; lia | exact Hb'].
    + split; assumption.
Qed.

(** Without blank pages the numbers are exactly 1, 2, ..., n. *)
Lemma read_pages_from_all k doc :
  Forall (fun t => has_text t = true) doc ->
  map page_num (read_pages_from k doc) = seq (k + 1) (length doc).
Proof.
  revert k. induction doc as [|t rest IH]; intros k Hall; simpl; [reflexivity|].
  inversion Hall as [|? ? Ht Hrest]; subst. unfold has_text in Ht. rewrite Ht. simpl.
  rewrite IH by assumption. reflexivity.
Qed.

Lemma read_pages_length_all doc :
  Forall (fun t => has_text t = true) doc ->
  length (_read_pdf_pages doc) = length doc.
Proof.
  intros Hall. rewrite <- (length_map page_num). unfold _read_pdf_pages.
  rewrite read_pages_from_all by exact Hall. apply length_seq.
Qed.

Lemma make_sections_ok env i batches :
  Forall (fun b => b <> []) batches ->
  exists ss,
    make_sections env i batches = Ok ss /\
    map pages ss = map (map page_num) batches /\
    map section_id ss = map Py.str_of_nat (seq i (length batches)).
Proof.
  revert i. induction batches as [|b rest IH]; intros i Hne; simpl.
  - exists []. auto.
  - inversion Hne as [|? ? Hb Hrest]; subst.
    destruct (IH (S i) Hrest) as (ss & Hss & Hp & Hid).
    destruct b as [|first more]; [congruence|].
    unfold make_section. simpl. rewrite Hss. simpl.
    eexists. split; [reflexivity|]. simpl. rewrite Hp, Hid. auto.
Qed.

Lemma str_of_nat_inj n m : Py.str_of_nat n = Py.str_of_nat m -> n = m.
Proof.
  unfold Py.str_of_nat. intros H.
  apply (f_equal NilEmpty.uint_of_string) in H.
  rewrite !NilEmpty.usu in H. injection H as H.
  apply (f_equal Nat.of_uint) in H. rewrite !Unsigned.of_to in H. exact H.
Qed.

Lemma section_ids_nodup i n : NoDup (map Py.str_of_nat (seq i n)).
Proof.
  apply NoDup_fmap_2; [intros x y; apply str_of_nat_inj|]. apply NoDup_seq.
Qed.

Lemma sorted_hd_le_last (c : list nat) :
  StronglySorted lt c -> List.hd 0 c <= List.last c 0.
Proof.
  destruct c as [|x c]; intros Hs; simpl; [lia|].
  inversion Hs as [|? ? _ Hall]; subst.
  destruct c as [|y c']; [lia|].
  assert (Hin : List.In (List.last (y :: c') 0) (y :: c')).
  { destruct (exists_last (l:=y :: c') ltac:(discriminate)) as (l' & z & Heq).
    rewrite Heq, List.last_last. apply List.in_or_app. right. left. reflexivity. }
  rewrite List.Forall_forall in Hall. specialize (Hall _ Hin). lia.
Qed.

Lemma last_in (c : list nat) : c <> [] -> List.In (List.last c 0) c.
Proof.
  intros Hne. destruct (exists_last Hne) as (l' & z & Heq).
  rewrite Heq, List.last_last. apply List.in_or_app. right. left. reflexivity.
Qed.

Lemma hd_in (c : list nat) : c <> [] -> List.In (List.hd 0 c) c.
Proof. destruct c; [congruence|]. intros _. left. reflexivity. Qed.

(** Consecutive non-empty pieces of an increasing sequence have increasing,
    non-overlapping bounds. *)
Lemma ranges_increasing_of_sorted (ss : list Section) :
  Forall (fun s => pages s <> []) ss ->
  StronglySorted lt (concat (map pages ss)) ->
  ranges_increasing ss.
Proof.
  induction ss as [|s rest IH]; intros Hne Hs; simpl; [exact I|].
  inversion Hne as [|? ? Hs0 Hrest]; subst. simpl in Hs.
  split; [|split].
  - apply sorted_hd_le_last. eapply StronglySorted_app_1_l. exact Hs.
  - destruct rest as [|s' rest']; [exact I|].
    inversion Hrest as [|? ? Hs1 _]; subst.
    apply (StronglySorted_app_1_elem_of lt _ _ _ _ Hs).
    + apply list_elem_of_In, last_in, Hs0.
    + simpl. apply elem_of_app. left. apply list_elem_of_In, hd_in, Hs1.
  - apply IH; [exact Hrest|]. eapply StronglySorted_app_1_r. exact Hs.
Qed.

Lemma sorted_bounds (c : list nat) (p : nat) :
  StronglySorted lt c -> List.In p c -> List.hd 0 c <= p <= List.last c 0.
Proof.
  induction c as [|x c IH]; intros Hs Hin; [destruct Hin|].
  inversion Hs as [|? ? Hc Hall]; subst.
  rewrite List.Forall_forall in Hall.
  destruct c as [|y c'].
  - destruct Hin as [<-|[]]. simpl. lia.
  - change (List.last (x :: y :: c') 0) with (List.last (y :: c') 0).
    pose proof (Hall _ (last_in (y :: c') ltac:(discriminate))) as Hlast.
    destruct Hin as [<-|Hin]; simpl List.hd; [lia|].
    specialize (IH Hc Hin). pose proof (Hall _ Hin). simpl List.hd in IH. lia.
Qed.

Lemma sorted_concat_piece (cs : list (list nat)) (c : list nat) :
  StronglySorted lt (concat cs) -> List.In c cs -> StronglySorted lt c.
Proof.
  induction cs as [|c0 cs IH]; intros Hs Hin; [destruct Hin|].
  simpl in Hs. destruct Hin as [<-|Hin].
  - eapply StronglySorted_app_1_l. exact Hs.
  - apply IH; [|exact Hin]. eapply StronglySorted_app_1_r. exact Hs.
Qed.

(** When the pages are the consecutive numbers [a, a+1, ...], the bounds of
    the sections cover exactly these numbers. *)
Lemma covered_iff_seq (ss : list Section) (a n p : nat) :
  Forall (fun s => pages s <> []) ss ->
  concat (map pages ss) = seq a n ->
  covered ss p <-> a <= p < a + n.
Proof.
  intros Hne Hcat. rewrite List.Forall_forall in Hne. split.
  - intros (s & Hin & Hlo & Hhi).
    assert (Hsub : forall q, List.In q (pages s) -> a <= q < a + n).
    { intros q Hq. apply List.in_seq. rewrite <- Hcat.
      apply List.in_concat. exists (pages s). split; [|exact Hq].
      apply List.in_map. exact Hin. }
    pose proof (Hsub _ (hd_in _ (Hne s Hin))) as H1.
    pose proof (Hsub _ (last_in _ (Hne s Hin))) as H2.
    unfold range_lo, range_hi in *. lia.
  - intros Hp. apply List.in_seq in Hp. rewrite <- Hcat in Hp.
    apply List.in_concat in Hp. destruct Hp as (c & Hc & Hpc).
    apply List.in_map_iff in Hc. destruct Hc as (s & <- & Hs).
    exists s. split; [exact Hs|]. unfold range_lo, range_hi.
    apply sorted_bounds; [|exact Hpc].
    apply (sorted_concat_piece (map pages ss)).
    + rewrite Hcat. clear. revert a. induction n as [|n IH]; intros a; simpl.
      * constructor.
      * constructor; [apply IH|]. apply List.Forall_forall. intros q Hq.
        apply List.in_seq in Hq. lia.
    + apply List.in_map. exact Hs.
Qed.

Lemma last_map_nonempty {A B : Type} (f : A -> B) (l : list A) (d : A) (d' : B) :
  l <> [] -> List.last (map f l) d' = f (List.last l d).
Proof.
  induction l as [|x l IH]; [congruence|]. intros _.
  destruct l as [|y l']; [reflexivity|].
  change (List.last (map f (x :: y :: l')) d') with (List.last (map f (y :: l')) d').
  change (List.last (x :: y :: l') d) with (List.last (y :: l') d).
  apply IH. discriminate.
Qed.

Lemma make_sections_ranges env i batches ss :
  make_sections env i batches = Ok ss ->
  Forall (fun s => page_range s =
                   Py.str_of_nat (range_lo s) +:+ "-" +:+ Py.str_of_nat (range_hi s)) ss.
Proof.
  revert i ss. induction batches as [|b rest IH]; intros i ss; simpl.
  - intros [= <-]. constructor.
  - destruct b as [|first more]; [discriminate|]. unfold make_section.
    cbn [rbind]. destruct (make_sections env (S i) rest) as [ss'|e] eqn:Hrest;
      cbn [rbind]; [|discriminate].
    intros [= <-]. constructor; [|eapply IH; exact Hrest].
    unfold range_lo, range_hi. cbn [pages page_range].
    change (page_num first :: map page_num more) with (map page_num (first :: more)).
    rewrite (last_map_nonempty page_num (first :: more) first 0) by discriminate.
    reflexivity.
Qed.

Lemma concat_map_map {A B : Type} (f : A -> B) (ls : list (list A)) :
  concat (map (map f) ls) = map f (concat ls).
Proof.
  induction ls as [|l ls IH]; simpl; [reflexivity|].
  rewrite List.map_app, IH. reflexivity.
Qed.

(** C7, as the code has it.  [index_document] succeeds on a document with at
    least one page of text; the sections have increasing, non-overlapping
    page ranges and distinct ids, each [page_range] string prints the bounds
    of its section, the pages listed by the sections are exactly the pages
    with text, in order, and [total_pages] counts them.  When no page of
    the document is blank the ranges cover exactly the pages
    [1 .. total_pages]: the invariant of the specification holds. *)
Theorem index_document_sections (env : Collaborators) (doc : list string)
        (dir : gmap string FileContent) (batch_size : Z) :
  (1 <= batch_size)%Z ->
  _read_pdf_pages doc <> [] ->
  exists index dir',
    index_document env (Some doc) dir batch_size = Ok (index, dir') /\
    ranges_increasing (sections index) /\
    NoDup (map section_id (sections index)) /\
    Forall (fun s => page_range s =
                     Py.str_of_nat (range_lo s) +:+ "-" +:+ Py.str_of_nat (range_hi s))
           (sections index) /\
    concat (map pages (sections index)) = map page_num (_read_pdf_pages doc) /\
    total_pages index = length (_read_pdf_pages doc) /\
    (Forall (fun t => has_text t = true) doc -> coverage_invariant index).
Proof.
  intros Hb Hne.
  pose proof (create_batches_ok (_read_pdf_pages doc) batch_size Hb) as Hbat.
  set (batches := map _ _) in Hbat.
  assert (Hcat : concat batches = _read_pdf_pages doc).
  { unfold batches. rewrite range_from_concat by lia. apply drop_0. }
  assert (Hshape : full_but_last (Z.to_nat batch_size) batches).
  { apply range_from_shape; lia. }
  assert (Hnonempty : Forall (fun b => b <> []) batches).
  { eapply full_but_last_nonempty; [|exact Hshape]. lia. }
  destruct (make_sections_ok env 1 batches Hnonempty) as (ss & Hss & Hpages & Hids).
  assert (Hconcat : concat (map pages ss) = map page_num (_read_pdf_pages doc)).
  { rewrite Hpages, concat_map_map, Hcat. reflexivity. }
  assert (Hss_ne : Forall (fun s => pages s <> []) ss).
  { apply List.Forall_forall. intros s Hs Hnil.
    assert (Hin : List.In (pages s) (map (map page_num) batches)).
    { rewrite <- Hpages. apply List.in_map. exact Hs. }
    rewrite Hnil in Hin. apply List.in_map_iff in Hin.
    destruct Hin as (b & Hb0 & Hbin).
    rewrite List.Forall_forall in Hnonempty.
    apply (Hnonempty b Hbin). destruct b; [reflexivity|discriminate]. }
  assert (Hinc : ranges_increasing ss).
  { apply ranges_increasing_of_sorted; [exact Hss_ne|].
    rewrite Hconcat. apply read_pages_from_sorted. }
  assert (Hdup : NoDup (map section_id ss)).
  { rewrite Hids. apply section_ids_nodup. }
  exists (_create_index (_extract_metadata_from_content env (_read_pdf_pages doc))
                         (summarize_document env ss) ss).
  exists (fst (_save_index
                 (_create_index (_extract_metadata_from_content env (_read_pdf_pages doc))
                                (summarize_document env ss) ss) dir)).
  split.
  { unfold index_document. destruct (_read_pdf_pages doc) as [|p ps] eqn:Hread;
      [congruence|].
    rewrite Hbat. cbn [rbind]. rewrite Hss. cbn [rbind]. reflexivity. }
  cbn [sections total_pages _create_index _extract_metadata_from_content md_total_pages].
  split; [exact Hinc|]. split; [exact Hdup|].
  split; [eapply make_sections_ranges; exact Hss|].
  split; [exact Hconcat|]. split; [reflexivity|].
  intros Hall. unfold coverage_invariant.
  cbn [sections total_pages _create_index _extract_metadata_from_content md_total_pages].
  split; [exact Hinc|]. split; [|exact Hdup].
  intros p. unfold _read_pdf_pages in Hconcat.
  rewrite read_pages_from_all in Hconcat by exact Hall.
  rewrite (read_pages_length_all doc) by exact Hall.
  rewrite (covered_iff_seq ss _ _ p Hss_ne Hconcat). lia.
Qed.

Lemma index_document_sections_witness :
  exists index dir',
    index_document plain_env (Some ["uno"; "dos"]) ∅ 5 = Ok (index, dir') /\
    ranges_increasing (sections index) /\
    NoDup (map section_id (sections index)) /\
    Forall (fun s => page_range s =
                     Py.str_of_nat (range_lo s) +:+ "-" +:+ Py.str_of_nat (range_hi s))
           (sections index) /\
    concat (map pages (sections index)) = map page_num (_read_pdf_pages ["uno"; "dos"]) /\
    total_pages index = length (_read_pdf_pages ["uno"; "dos"]) /\
    (Forall (fun t => has_text t = true) ["uno"; "dos"] -> coverage_invariant index).
Proof.
  apply (index_document_sections plain_env ["uno"; "dos"] ∅ 5); [lia|].
  vm_compute. discriminate.
Defined.

(** C7, as the specification states it, fails when the PDF has a page
    without text: [_read_pdf_pages] skips the page, so with batches of one
    page the sections are 1-1 and 3-3 and [total_pages] is 2; page 2 is
    covered by no section. *)
Lemma coverage_fails_on_blank_page :
  exists index dir',
    index_document plain_env (Some blank_middle) ∅ 1 = Ok (index, dir') /\
    map page_range (sections index) = ["1-1"; "3-3"] /\
    total_pages index = 2 /\
    ~ coverage_invariant index.
Proof.
  eexists _, _. split; [reflexivity|].
  split; [reflexivity|]. split; [reflexivity|].
  intros (_ & Hcov & _).
  destruct (proj2 (Hcov 2)) as (s & Hin & Hlo & Hhi); [vm_compute; lia|].
  cbn in Hin. destruct Hin as [<-|[<-|[]]]; vm_compute in Hlo, Hhi; lia.
Qed.

End IndexerFacts.


(** ** Index persistence and retrieval *)

Module RetrievalFacts.

Import AgentRAGIndexer ChunkEvaluator AgentRetrieval StringFacts.

(** *** The name the indexer writes and the names the reader opens *)

Lemma load_nothing (entries : list (string * FileContent)) :
  Forall (fun e => glob_index_json (fst e) = false) entries ->
  foldr load_one ∅ entries = ∅.
Proof.
  induction entries as [|[name file] rest IH]; intros Hall; [reflexivity|].
  inversion Hall as [|? ? Hname Hrest]; subst. simpl in *.
  rewrite Hname. apply IH, Hrest.
Qed.

(** A file name [d.json] matches [index-*.json] only if [d] starts with
    [index-]. *)
Lemma json_name_matches (d : string) :
  Py.startswith d "index-" = false ->
  glob_index_json (d +:+ ".json") = false.
Proof.
  unfold glob_index_json. intros Hd.
  assert (Hp : Py.startswith (d +:+ ".json") "index-" = false); [|rewrite Hp; reflexivity].
  do 6 (destruct d as [|? d]; simpl in Hd |- *; [reflexivity|];
        match goal with
        | |- context [Ascii.eqb ?a ?b] =>
            destruct (Ascii.eqb_spec a b); [subst; simpl in Hd |- *|reflexivity]
        end).
  destruct d; discriminate.
Qed.

(** Written into a fresh directory, an index is found again by
    [_load_all_indices] exactly when its [document_id] starts with
    [index-]; then it is keyed by that id. *)
Lemma load_after_save_fresh (index : Index) :
  _load_all_indices (Some (fst (_save_index index ∅))) =
  if Py.startswith (document_id index) "index-"
  then {[ document_id index := to_json index ]}
  else ∅.
Proof.
  unfold _load_all_indices, _save_index. cbn [fst].
  rewrite insert_empty, map_to_list_singleton. cbn [foldr load_one].
  destruct (Py.startswith (document_id index) "index-") eqn:Hd.
  - unfold glob_index_json.
    rewrite (startswith_append _ _ _ Hd), endswith_append.
    pose proof (startswith_length _ _ Hd) as Hlen. cbn in Hlen.
    assert (Hl : (11 <=? String.length (document_id index +:+ ".json")) = true).
    { apply Nat.leb_le. rewrite length_append. cbn. lia. }
    rewrite Hl. cbn [andb to_json d_document_id default from_option].
    reflexivity.
  - rewrite (json_name_matches _ Hd). reflexivity.
Qed.

(** C3.  The indexer saves the index of [PROC-JUB-001] as
    [PROC-JUB-001.json]; the retrieval engine only opens files named
    [index-*.json], so it loads nothing from the directory the indexer has
    just written. *)
Theorem saved_index_is_not_loaded :
  snd (_save_index sample_index ∅) = "PROC-JUB-001.json" /\
  glob_index_json (snd (_save_index sample_index ∅)) = false /\
  _load_all_indices (Some (fst (_save_index sample_index ∅))) = ∅ /\
  _load_all_indices (Some (fst (_save_index sample_index ∅)))
    !! document_id sample_index = None.
Proof.
  split; [reflexivity|]. split; [reflexivity|].
  rewrite load_after_save_fresh. cbn. split; [reflexivity|]. apply lookup_empty.
Qed.

(** *** Phase 1 of the index-guided path *)

(** With at least one index loaded, phase 1 makes exactly one call. *)
Lemma filter_documents_log w query indices :
  indices <> ∅ ->
  snd (_filter_relevant_documents w query indices)
  = [Phase1Call (DocumentFilterPrompt query (map_to_list indices))].
Proof.
  intros Hne. unfold _filter_relevant_documents.
  destruct (decide (indices = ∅)) as [Heq|_]; [contradiction|].
  unfold lbind, log, lret.
  destruct (chat w _) as [msg|content|]; try reflexivity.
  destruct (clean_markdown _) as [response_text|e]; try reflexivity.
  destruct (loads w response_text); reflexivity.
Qed.

(** An answer that cannot be parsed yields the empty list. *)
Lemma unparseable_is_empty w query indices :
  phase1_unparseable w query indices -> phase1_empty w query indices.
Proof.
  intros (content & Hchat & Hparse). unfold phase1_empty, _filter_relevant_documents.
  destruct (decide (indices = ∅)); [reflexivity|].
  unfold lbind, log, lret. rewrite Hchat.
  destruct (clean_markdown _) as [response_text|e]; [|reflexivity].
  rewrite Hparse. reflexivity.
Qed.

(** So does a call that raises. *)
Lemma gateway_error_is_empty w query indices msg :
  chat w (DocumentFilterPrompt query (map_to_list indices)) = GenRaise msg ->
  phase1_empty w query indices.
Proof.
  intros Hchat. unfold phase1_empty, _filter_relevant_documents.
  destruct (decide (indices = ∅)); [reflexivity|].
  unfold lbind, log, lret. rewrite Hchat. reflexivity.
Qed.

(** C4.  Once indices are loaded, if phase 1 returns the empty list, or the
    answer of the model cannot be parsed as JSON, [retrieve_with_index]
    returns the result with no chunks and the no-relevant-documents
    message, and the only thing that has happened is the phase 1 call:
    no phase 2 call, no section load, no phase 3 call. *)
Theorem empty_phase1_stops_retrieval (w : IndexWorld) (judge : World) (query : string)
        (indices_dir : option (gmap string FileContent))
        (read_all_documents : Result (list Document)) :
  _load_all_indices indices_dir <> ∅ ->
  phase1_empty w query (_load_all_indices indices_dir) \/
  phase1_unparseable w query (_load_all_indices indices_dir) ->
  let '(result, events) :=
    retrieve_with_index w judge query indices_dir read_all_documents in
  result = Ok no_relevant_documents /\
  chunks no_relevant_documents = [] /\
  events = [Phase1Call (DocumentFilterPrompt query
                          (map_to_list (_load_all_indices indices_dir)))] /\
  existsb later_phase events = false.
Proof.
  intros Hne Hempty.
  assert (He : phase1_empty w query (_load_all_indices indices_dir)).
  { destruct Hempty as [H|H]; [exact H|apply unparseable_is_empty, H]. }
  pose proof (filter_documents_log w query _ Hne) as Hlog.
  unfold retrieve_with_index.
  destruct (decide (_load_all_indices indices_dir = ∅)) as [Heq|_]; [contradiction|].
  unfold phase1_empty in He.
  destruct (_filter_relevant_documents w query (_load_all_indices indices_dir))
    as [relevant_docs events] eqn:Hf.
  cbn [fst snd] in He, Hlog. subst relevant_docs events.
  cbn [lbind lret app]. repeat split; reflexivity.
Qed.

Lemma one_index_loaded :
  _load_all_indices (Some one_index_dir) = {[ "PROC-JUB-001" := to_json sample_index ]}.
Proof.
  unfold _load_all_indices, one_index_dir.
  rewrite map_to_list_singleton. reflexivity.
Qed.

Lemma empty_phase1_stops_retrieval_witness :
  let '(result, events) :=
    retrieve_with_index silent_index_world failing_judge "jubilacion"
                        (Some one_index_dir) (Ok []) in
  result = Ok no_relevant_documents /\
  chunks no_relevant_documents = [] /\
  events = [Phase1Call (DocumentFilterPrompt "jubilacion"
                          (map_to_list (_load_all_indices (Some one_index_dir))))] /\
  existsb later_phase events = false.
Proof.
  apply (empty_phase1_stops_retrieval silent_index_world failing_judge "jubilacion"
           (Some one_index_dir) (Ok [])).
  - rewrite one_index_loaded. apply insert_non_empty.
  - right. exists "no json here". split; reflexivity.
Defined.

(** *** The judge path *)

Lemma error_evaluation_zero doc_id msg :
  obj_get "relevance_score" (error_evaluation doc_id msg) = Some (JNum 0) /\
  well_formed_evaluation (error_evaluation doc_id msg).
Proof.
  split; [reflexivity|]. unfold well_formed_evaluation. eexists _, _, _.
  repeat split; reflexivity.
Qed.

Lemma unparseable_fallback w response :
  unparseable w response -> _parse_json_response w response = fallback_evaluation.
Proof.
  unfold unparseable, _parse_json_response. cbv zeta.
  intros [Hdirect Hbraces]. rewrite Hdirect.
  destruct (find_char "{" _) as [start|] eqn:Hs; [|reflexivity].
  destruct (rfind_char "}" _) as [end_|] eqn:He; [|reflexivity].
  destruct (Nat.ltb_spec start end_) as [Hlt|_]; [|reflexivity].
  rewrite (Hbraces start end_ eq_refl eq_refl Hlt). reflexivity.
Qed.

(** A failed evaluation has score 0 and the three fields [retrieve] reads. *)
Lemma failed_evaluation_zero w n query document :
  evaluation_errors w n query document \/ evaluation_unparseable w n query document ->
  obj_get "relevance_score" (evaluate_relevance w n query document) = Some (JNum 0) /\
  well_formed_evaluation (evaluate_relevance w n query document).
Proof.
  unfold evaluate_relevance. intros [(msg & Hgen)|(response & Hgen & Hun)]; rewrite Hgen.
  - apply error_evaluation_zero.
  - rewrite (unparseable_fallback _ _ Hun). split; [reflexivity|].
    unfold well_formed_evaluation. eexists _, _, _. repeat split; reflexivity.
Qed.

Lemma score_document_ok document evaluation :
  well_formed_evaluation evaluation ->
  exists d, score_document document evaluation = Ok d /\
            exists q, rs_score d = JNum q /\
                      obj_get "relevance_score" evaluation = Some (JNum q).
Proof.
  intros (q & r & s & Hq & Hr & Hs). unfold score_document, obj_item.
  rewrite Hq, Hr, Hs. cbn [rbind]. eexists. split; [reflexivity|].
  exists q. split; reflexivity.
Qed.

Lemma score_documents_ok w n query documents :
  (forall i document, documents !! i = Some document ->
     well_formed_evaluation (evaluate_relevance w (n + i) query document)) ->
  exists raw, score_documents w n query documents = Ok raw /\
              length raw = length documents /\
              Forall (fun d => exists q, rs_score d = JNum q) raw.
Proof.
  revert n. induction documents as [|document rest IH]; intros n Hwf; simpl.
  - exists []. repeat split; constructor.
  - destruct (score_document_ok document _ (Hwf 0 document eq_refl ))
      as (d & Hd & q & Hq & _).
    rewrite Nat.add_0_r in Hd. rewrite Hd. cbn [rbind].
    destruct (IH (S n)) as (raw & Hraw & Hlen & Hnum).
    { intros i doc Hi. replace (S n + i) with (n + S i) by lia. apply Hwf. exact Hi. }
    rewrite Hraw. cbn [rbind]. eexists. split; [reflexivity|].
    split; [simpl; lia|]. constructor; [exists q; exact Hq|exact Hnum].
Qed.

Lemma numeric_scores_ok raw :
  Forall (fun d => exists q, rs_score d = JNum q) raw ->
  exists scored, numeric_scores raw = Ok scored /\ length scored = length raw.
Proof.
  induction raw as [|d rest IH]; intros Hnum; simpl.
  - exists []. split; reflexivity.
  - inversion Hnum as [|? ? (q & Hq) Hrest]; subst.
    rewrite Hq. cbn [as_number rbind].
    destruct (IH Hrest) as (scored & Hs & Hlen). rewrite Hs. cbn [rbind].
    eexists. split; [reflexivity|]. simpl. lia.
Qed.

Lemma Qltb_false x y : Qltb x y = false -> (y <= x)%Q.
Proof.
  unfold Qltb. intros H. apply negb_false_iff in H. apply Qle_bool_iff. exact H.
Qed.

Lemma Qltb_true x y : Qltb x y = true -> (x <= y)%Q.
Proof.
  unfold Qltb. intros H. apply negb_true_iff in H.
  destruct (Qlt_le_dec x y) as [Hlt|Hle]; [apply Qlt_le_weak, Hlt|].
  apply Qle_bool_iff in Hle. congruence.
Qed.

Lemma insert_desc_elem d l x :
  List.In x (insert_desc d l) -> x = d \/ List.In x l.
Proof.
  induction l as [|e rest IH]; simpl.
  - intros [<-|[]]. left. reflexivity.
  - destruct (Qltb (sc_score d) (sc_score e)); simpl.
    + intros [<-|H]; [right; left; reflexivity|].
      destruct (IH H) as [->|H']; [left; reflexivity|right; right; exact H'].
    + intros [<-|[<-|H]]; auto.
Qed.

Lemma insert_desc_sorted d l :
  descending (map sc_score l) -> descending (map sc_score (insert_desc d l)).
Proof.
  unfold descending. induction l as [|e rest IH]; intros Hs; simpl.
  - repeat constructor.
  - inversion Hs as [|? ? Hrest Hall]; subst.
    destruct (Qltb (sc_score d) (sc_score e)) eqn:Hcmp; simpl.
    + constructor; [apply IH, Hrest|].
      apply List.Forall_forall. intros q Hq.
      apply List.in_map_iff in Hq. destruct Hq as (x & <- & Hx).
      destruct (insert_desc_elem _ _ _ Hx) as [->|Hin].
      * apply Qltb_true, Hcmp.
      * rewrite List.Forall_forall in Hall. apply Hall.
        apply List.in_map. exact Hin.
    + constructor; [exact Hs|].
      constructor; [apply Qltb_false, Hcmp|].
      eapply List.Forall_impl; [|exact Hall]. simpl. intros q Hq.
      eapply Qle_trans; [exact Hq|]. apply Qltb_false, Hcmp.
Qed.

Lemma sort_desc_sorted l : descending (map sc_score (sort_desc l)).
Proof.
  induction l as [|d rest IH]; simpl; [constructor|]. apply insert_desc_sorted, IH.
Qed.

Lemma insert_desc_length d l : length (insert_desc d l) = S (length l).
Proof.
  induction l as [|e rest IH]; simpl; [reflexivity|].
  destruct (Qltb _ _); simpl; [rewrite IH|]; reflexivity.
Qed.

Lemma sort_desc_length l : length (sort_desc l) = length l.
Proof.
  induction l as [|d rest IH]; simpl; [reflexivity|].
  rewrite insert_desc_length, IH. reflexivity.
Qed.

Lemma descending_take (scores : list Q) n :
  descending scores -> descending (take n scores).
Proof.
  unfold descending. intros Hs. rewrite <- (take_drop n scores) in Hs.
  eapply StronglySorted_app_1_l. exact Hs.
Qed.



End RetrievalFacts.


(** ** The structured-query tool *)

Module SQLFacts.

Import SQLQueryTool StringFacts.

(** *** The pattern *)

Lemma one_inv p s m rest :
  one p s = Some (m, rest) ->
  exists c, s = String c rest /\ m = String c "" /\ p c = true.
Proof.
  destruct s as [|c s']; simpl; [discriminate|].
  destruct (p c) eqn:Hp; [|discriminate]. intros [= <- <-]. eauto.
Qed.

Lemma lit_inv x s m rest :
  lit x s = Some (m, rest) -> s = String x rest /\ m = String x "".
Proof.
  unfold lit. intros H. apply one_inv in H. destruct H as (c & -> & -> & Hc).
  apply Ascii.eqb_eq in Hc. subst. auto.
Qed.

Lemma andthen_inv a b s m rest :
  andthen a b s = Some (m, rest) ->
  exists m1 rest1 m2,
    a s = Some (m1, rest1) /\ b rest1 = Some (m2, rest) /\ m = m1 +:+ m2.
Proof.
  unfold andthen. destruct (a s) as [[m1 rest1]|] eqn:Ha; [|discriminate].
  destruct (b rest1) as [[m2 rest2]|] eqn:Hb; [|discriminate].
  intros [= <- <-]. exists m1, rest1, m2. split; [reflexivity|]. split; [exact Hb|reflexivity].
Qed.

Ltac invert_pattern :=
  repeat match goal with
    | H : andthen _ _ _ = Some _ |- _ =>
        apply andthen_inv in H; destruct H as (? & ? & ? & ? & ? & ?)
    | H : digits3 _ = Some _ |- _ => unfold digits3 in H
    | H : lit _ _ = Some _ |- _ => apply lit_inv in H; destruct H as [? ?]
    | H : one _ _ = Some _ |- _ =>
        apply one_inv in H; destruct H as (? & ? & ? & ?)
    end; subst.

Lemma rut_tail_inv s m rest :
  rut_tail s = Some (m, rest) ->
  exists a1 a2 a3 b1 b2 b3 v,
    m = rut_body a1 a2 a3 b1 b2 b3 v /\ s = m +:+ rest /\
    is_digit a1 = true /\ is_digit a2 = true /\ is_digit a3 = true /\
    is_digit b1 = true /\ is_digit b2 = true /\ is_digit b3 = true /\
    is_check_digit v = true.
Proof.
  unfold rut_tail. intros H. invert_pattern.
  do 7 eexists. split; [reflexivity|]. split; [reflexivity|].
  repeat split; assumption.
Qed.

Lemma rut_tail_intro a1 a2 a3 b1 b2 b3 v rest :
  is_digit a1 = true -> is_digit a2 = true -> is_digit a3 = true ->
  is_digit b1 = true -> is_digit b2 = true -> is_digit b3 = true ->
  is_check_digit v = true ->
  rut_tail (rut_body a1 a2 a3 b1 b2 b3 v +:+ rest)
  = Some (rut_body a1 a2 a3 b1 b2 b3 v, rest).
Proof.
  intros Ha1 Ha2 Ha3 Hb1 Hb2 Hb3 Hv.
  unfold rut_body. rewrite !append_cons, append_nil_l.
  unfold rut_tail, digits3, andthen, lit, one.
  repeat (cbv beta iota;
          first [rewrite Ascii.eqb_refl | rewrite Ha1 | rewrite Ha2 | rewrite Ha3
                | rewrite Hb1 | rewrite Hb2 | rewrite Hb3 | rewrite Hv]).
  reflexivity.
Qed.

Lemma digit_not_dot c : is_digit c = true -> c <> "."%char.
Proof. intros H ->. discriminate. Qed.

Lemma rut_group_inv s g rest :
  rut_group s = Some (g, rest) -> dotted_rut g /\ s = g +:+ rest.
Proof.
  unfold rut_group, orelse.
  destruct (andthen (one is_digit) (andthen (one is_digit) rut_tail) s)
    as [[g2 rest2]|] eqn:H2.
  - intros [= <- <-]. invert_pattern.
    match goal with H : rut_tail _ = Some _ |- _ => apply rut_tail_inv in H;
      destruct H as (a1 & a2 & a3 & b1 & b2 & b3 & v & -> & -> & ? & ? & ? & ? & ? & ? & ?)
    end.
    split; [constructor; assumption|reflexivity].
  - intros H1. invert_pattern.
    match goal with H : rut_tail _ = Some _ |- _ => apply rut_tail_inv in H;
      destruct H as (a1 & a2 & a3 & b1 & b2 & b3 & v & -> & -> & ? & ? & ? & ? & ? & ? & ?)
    end.
    split; [constructor; assumption|reflexivity].
Qed.

Lemma one_intro (p : ascii -> bool) c rest :
  p c = true -> one p (String c rest) = Some (String c "", rest).
Proof. intros H. unfold one. rewrite H. reflexivity. Qed.

Lemma andthen_intro a b s m1 rest1 m2 rest2 :
  a s = Some (m1, rest1) -> b rest1 = Some (m2, rest2) ->
  andthen a b s = Some (m1 +:+ m2, rest2).
Proof. intros Ha Hb. unfold andthen. rewrite Ha, Hb. reflexivity. Qed.

Lemma rut_group_intro g rest :
  dotted_rut g -> rut_group (g +:+ rest) = Some (g, rest).
Proof.
  intros Hg. unfold rut_group, orelse.
  destruct Hg as [d1 a1 a2 a3 b1 b2 b3 v Hd1 Ha1 Ha2 Ha3 Hb1 Hb2 Hb3 Hv
                 |d1 d2 a1 a2 a3 b1 b2 b3 v Hd1 Hd2 Ha1 Ha2 Ha3 Hb1 Hb2 Hb3 Hv].
  - rewrite append_cons.
    assert (Hno : andthen (one is_digit) (andthen (one is_digit) rut_tail)
                    (String d1 (rut_body a1 a2 a3 b1 b2 b3 v +:+ rest)) = None).
    { unfold andthen at 1. rewrite (one_intro _ _ _ Hd1). reflexivity. }
    rewrite Hno.
    rewrite (andthen_intro _ _ _ _ _ _ _ (one_intro _ _ _ Hd1)
               (rut_tail_intro _ _ _ _ _ _ _ rest Ha1 Ha2 Ha3 Hb1 Hb2 Hb3 Hv)).
    reflexivity.
  - rewrite !append_cons.
    rewrite (andthen_intro _ _ _ _ _ _ _ (one_intro _ _ _ Hd1)
               (andthen_intro _ _ _ _ _ _ _ (one_intro _ _ _ Hd2)
                  (rut_tail_intro _ _ _ _ _ _ _ rest Ha1 Ha2 Ha3 Hb1 Hb2 Hb3 Hv))).
    reflexivity.
Qed.

(** A match is a quoted dotted RUT at the start of the text, and every
    quoted dotted RUT at the start of a text is matched. *)
Lemma match_rut_inv s g rest :
  match_rut s = Some (g, rest) ->
  dotted_rut g /\ s = "'" +:+ g +:+ "'" +:+ rest.
Proof.
  unfold match_rut.
  destruct (lit "'" s) as [[q s1]|] eqn:Hq; [|discriminate].
  destruct (rut_group s1) as [[g1 s2]|] eqn:Hg; [|discriminate].
  destruct (lit "'" s2) as [[q' s3]|] eqn:Hq'; [|discriminate].
  intros [= <- <-].
  apply lit_inv in Hq, Hq'. destruct Hq as [-> _], Hq' as [-> _].
  apply rut_group_inv in Hg. destruct Hg as [Hg ->]. split; [exact Hg|reflexivity].
Qed.

Lemma match_rut_intro g rest :
  dotted_rut g -> match_rut ("'" +:+ g +:+ "'" +:+ rest) = Some (g, rest).
Proof.
  intros Hg. unfold match_rut. rewrite append_cons, append_nil_l.
  unfold lit at 1. rewrite (one_intro _ _ _ (Ascii.eqb_refl _)).
  rewrite (rut_group_intro g _ Hg). rewrite append_cons, append_nil_l.
  unfold lit. rewrite (one_intro _ _ _ (Ascii.eqb_refl _)). reflexivity.
Qed.

Lemma match_rut_shorter s g rest :
  match_rut s = Some (g, rest) -> String.length rest < String.length s.
Proof.
  intros H. apply match_rut_inv in H. destruct H as [_ ->].
  rewrite !length_append. cbn [String.length]. lia.
Qed.

Lemma match_rut_head c s g rest :
  match_rut (String c s) = Some (g, rest) -> c = "'"%char.
Proof.
  intros H. apply match_rut_inv in H. destruct H as [_ H].
  rewrite append_cons in H. injection H as -> _. reflexivity.
Qed.

(** *** The scan *)

(** Any fuel that covers the text gives the same result. *)
Lemma sub_ruts_fuel fuel : forall fuel' s,
  String.length s <= fuel -> String.length s <= fuel' ->
  sub_ruts fuel s = sub_ruts fuel' s.
Proof.
  induction fuel as [|fuel IH]; intros fuel' s Hf Hf'.
  - destruct s; [|cbn in Hf; lia]. destruct fuel'; reflexivity.
  - destruct fuel' as [|fuel'].
    + destruct s; [reflexivity|cbn in Hf'; lia].
    + cbn [sub_ruts]. destruct (match_rut s) as [[g rest]|] eqn:Hm.
      * pose proof (match_rut_shorter _ _ _ Hm).
        rewrite (IH fuel' rest) by lia. reflexivity.
      * destruct s as [|c s']; [reflexivity|]. cbn in Hf, Hf'.
        rewrite (IH fuel' s') by lia. reflexivity.
Qed.

Lemma normalize_nil : _normalize_ruts_in_query "" = "".
Proof. reflexivity. Qed.

Lemma normalize_match s g rest :
  match_rut s = Some (g, rest) ->
  _normalize_ruts_in_query s =
  "'" +:+ normalize_rut g +:+ "'" +:+ _normalize_ruts_in_query rest.
Proof.
  intros Hm. unfold _normalize_ruts_in_query.
  pose proof (match_rut_shorter _ _ _ Hm) as Hlen.
  destruct (String.length s) as [|n] eqn:Hs; [lia|].
  cbn [sub_ruts]. rewrite Hm.
  rewrite (sub_ruts_fuel n (String.length rest) rest) by lia. reflexivity.
Qed.

Lemma normalize_no_match c s :
  match_rut (String c s) = None ->
  _normalize_ruts_in_query (String c s) = String c (_normalize_ruts_in_query s).
Proof.
  intros Hm. unfold _normalize_ruts_in_query. cbn [String.length sub_ruts].
  rewrite Hm. reflexivity.
Qed.

(** A character that is not a quote is copied. *)
Lemma normalize_other c s :
  c <> "'"%char ->
  _normalize_ruts_in_query (String c s) = String c (_normalize_ruts_in_query s).
Proof.
  intros Hc. apply normalize_no_match.
  destruct (match_rut (String c s)) as [[g rest]|] eqn:Hm; [|reflexivity].
  apply match_rut_head in Hm. contradiction.
Qed.

(** Induction on texts by their length. *)
Lemma string_length_ind (P : string -> Prop) :
  (forall s, (forall t, String.length t < String.length s -> P t) -> P s) ->
  forall s, P s.
Proof.
  intros Hstep s.
  assert (H : forall n t, String.length t < n -> P t).
  { induction n as [|n IH]; intros t Ht; [lia|].
    apply Hstep. intros u Hu. apply IH. lia. }
  apply (H (S (String.length s))). lia.
Qed.

(** *** Normalisation only takes dots out *)

Lemma dots_removed_refl s : dots_removed s s.
Proof. induction s; constructor; assumption. Qed.

Lemma digit_eqb_dot c : is_digit c = true -> Ascii.eqb c "." = false.
Proof. intros H. apply Ascii.eqb_neq. intros ->. discriminate. Qed.

Lemma check_digit_eqb_dot c : is_check_digit c = true -> Ascii.eqb c "." = false.
Proof. intros H. apply Ascii.eqb_neq. intros ->. discriminate. Qed.

(** The undotted text of a dotted RUT. *)
Lemma normalize_rut_dotted g :
  dotted_rut g ->
  exists lead a1 a2 a3 b1 b2 b3 v,
    g = lead +:+ rut_body a1 a2 a3 b1 b2 b3 v /\
    normalize_rut g =
    lead +:+ String a1 (String a2 (String a3 (String b1 (String b2 (String b3
               (String "-" (String v ""))))))) /\
    (lead <> "" /\ forallb is_digit (list_ascii_of_string lead) = true) /\
    is_digit a1 = true /\ is_digit a2 = true /\ is_digit a3 = true /\
    is_digit b1 = true /\ is_digit b2 = true /\ is_digit b3 = true /\
    is_check_digit v = true.
Proof.
  intros [d1 a1 a2 a3 b1 b2 b3 v Hd1 Ha1 Ha2 Ha3 Hb1 Hb2 Hb3 Hv
         |d1 d2 a1 a2 a3 b1 b2 b3 v Hd1 Hd2 Ha1 Ha2 Ha3 Hb1 Hb2 Hb3 Hv].
  - exists (String d1 ""), a1, a2, a3, b1, b2, b3, v.
    split; [reflexivity|]. split.
    + unfold normalize_rut, rut_body. cbn [Py.remove_char].
      rewrite (digit_eqb_dot _ Hd1), (digit_eqb_dot _ Ha1), (digit_eqb_dot _ Ha2),
        (digit_eqb_dot _ Ha3), (digit_eqb_dot _ Hb1), (digit_eqb_dot _ Hb2),
        (digit_eqb_dot _ Hb3), (check_digit_eqb_dot _ Hv).
      reflexivity.
    + split; [split; [discriminate|cbn; rewrite Hd1; reflexivity]|].
      repeat split; assumption.
  - exists (String d1 (String d2 "")), a1, a2, a3, b1, b2, b3, v.
    split; [reflexivity|]. split.
    + unfold normalize_rut, rut_body. cbn [Py.remove_char].
      rewrite (digit_eqb_dot _ Hd1), (digit_eqb_dot _ Hd2), (digit_eqb_dot _ Ha1),
        (digit_eqb_dot _ Ha2), (digit_eqb_dot _ Ha3), (digit_eqb_dot _ Hb1),
        (digit_eqb_dot _ Hb2), (digit_eqb_dot _ Hb3), (check_digit_eqb_dot _ Hv).
      reflexivity.
    + split; [split; [discriminate|cbn; rewrite Hd1, Hd2; reflexivity]|].
      repeat split; assumption.
Qed.

Lemma dots_removed_rut g x y :
  dotted_rut g -> dots_removed x y ->
  dots_removed (g +:+ x) (normalize_rut g +:+ y).
Proof.
  intros Hg Hxy.
  destruct (normalize_rut_dotted g Hg)
    as (lead & a1 & a2 & a3 & b1 & b2 & b3 & v & -> & -> & _ & Ha1 & _ & _ & Hb1 & _).
  rewrite !append_assoc. unfold rut_body. rewrite !append_cons, !append_nil_l.
  clear Hg.
  induction lead as [|c lead IH];
    [|rewrite !append_cons; apply dots_removed_keep; exact IH].
  rewrite !append_nil_l.
  apply dots_removed_drop; [exact Ha1|]. do 3 apply dots_removed_keep.
  apply dots_removed_drop; [exact Hb1|]. do 5 apply dots_removed_keep. exact Hxy.
Qed.

(** The normalised query is the query without some dots that stood before
    digits. *)
Lemma normalize_removes_dots query :
  dots_removed query (_normalize_ruts_in_query query).
Proof.
  induction query as [query IH] using string_length_ind.
  destruct (match_rut query) as [[g rest]|] eqn:Hm.
  - rewrite (normalize_match _ _ _ Hm).
    pose proof (match_rut_shorter _ _ _ Hm) as Hlen.
    apply match_rut_inv in Hm. destruct Hm as [Hg ->].
    rewrite !append_cons, !append_nil_l. apply dots_removed_keep.
    apply dots_removed_rut; [exact Hg|].
    apply dots_removed_keep. apply IH, Hlen.
  - destruct query as [|c s]; [constructor|].
    rewrite (normalize_no_match _ _ Hm). apply dots_removed_keep. apply IH. cbn. lia.
Qed.

Lemma upper_char_digit c : is_digit c = true -> Py.upper_char c = c.
Proof.
  unfold is_digit, Py.upper_char. intros H.
  apply andb_true_iff in H. destruct H as [H1 H2].
  apply Nat.leb_le in H1, H2.
  destruct (Nat.leb_spec 97 (nat_of_ascii c)); [lia|reflexivity].
Qed.

Lemma lower_char_digit c : is_digit c = true -> Py.lower_char c = c.
Proof.
  unfold is_digit, Py.lower_char. intros H.
  apply andb_true_iff in H. destruct H as [H1 H2].
  apply Nat.leb_le in H1, H2.
  destruct (Nat.leb_spec 65 (nat_of_ascii c)); [lia|reflexivity].
Qed.

Lemma digit_not_space c : is_digit c = true -> Py.is_space c = false.
Proof.
  unfold is_digit, Py.is_space. intros H.
  apply andb_true_iff in H. destruct H as [H1 H2].
  apply Nat.leb_le in H1, H2.
  destruct (Nat.leb_spec 9 (nat_of_ascii c)), (Nat.leb_spec (nat_of_ascii c) 13),
    (Nat.leb_spec 28 (nat_of_ascii c)), (Nat.leb_spec (nat_of_ascii c) 31),
    (Nat.eqb_spec (nat_of_ascii c) 32); cbn; try reflexivity; lia.
Qed.

Lemma dots_removed_head_digit s t :
  starts_with_digit s = true -> dots_removed s t ->
  exists d s' t', s = String d s' /\ t = String d t' /\ is_digit d = true.
Proof.
  intros Hd Hst. destruct Hst as [|c s t Hst|s t Hs Hst]; [discriminate| |discriminate].
  cbn in Hd. eauto 6.
Qed.

Lemma dots_removed_upper s t :
  dots_removed s t -> dots_removed (Py.upper s) (Py.upper t).
Proof.
  induction 1 as [|c s t Hst IH|s t Hd Hst IH]; cbn [Py.upper].
  - constructor.
  - apply dots_removed_keep, IH.
  - change (Py.upper_char ".") with "."%char. apply dots_removed_drop; [|exact IH].
    destruct s as [|d s']; [discriminate|]. cbn in Hd |- *.
    rewrite (upper_char_digit _ Hd). exact Hd.
Qed.

Lemma dots_removed_lower s t :
  dots_removed s t -> dots_removed (Py.lower s) (Py.lower t).
Proof.
  induction 1 as [|c s t Hst IH|s t Hd Hst IH]; cbn [Py.lower].
  - constructor.
  - apply dots_removed_keep, IH.
  - change (Py.lower_char ".") with "."%char. apply dots_removed_drop; [|exact IH].
    destruct s as [|d s']; [discriminate|]. cbn in Hd |- *.
    rewrite (lower_char_digit _ Hd). exact Hd.
Qed.

Lemma dots_removed_lstrip s t :
  dots_removed s t -> dots_removed (Py.lstrip s) (Py.lstrip t).
Proof.
  induction 1 as [|c s t Hst IH|s t Hd Hst IH]; cbn [Py.lstrip].
  - constructor.
  - destruct (Py.is_space c); [exact IH|apply dots_removed_keep, Hst].
  - change (Py.is_space ".") with false. cbv iota.
    destruct (dots_removed_head_digit _ _ Hd Hst) as (d & s' & t' & -> & -> & Hdig).
    cbn [Py.lstrip]. rewrite (digit_not_space _ Hdig).
    apply dots_removed_drop; [exact Hd|exact Hst].
Qed.

(** *** Plain words are found in a text and in its normal form alike *)

Lemma plain_word_cons x w :
  plain_word (String x w) = true ->
  is_digit x = false /\ x <> "."%char /\ Py.is_space x = false /\ plain_word w = true.
Proof.
  cbn [plain_word]. intros H.
  repeat (apply andb_true_iff in H; destruct H as [H ?]).
  apply negb_true_iff in H. repeat split; try assumption.
  - intros ->. discriminate.
  - apply negb_true_iff. assumption.
Qed.

Lemma startswith_dots_removed w : forall s t,
  plain_word w = true -> dots_removed s t ->
  Py.startswith t w = Py.startswith s w.
Proof.
  induction w as [|x w IH]; intros s t Hw Hst; [reflexivity|].
  destruct (plain_word_cons _ _ Hw) as (Hdig & Hdot & _ & Hw').
  destruct Hst as [|c s t Hst|s t Hd Hst]; cbn [Py.startswith].
  - reflexivity.
  - rewrite (IH s t Hw' Hst). reflexivity.
  - destruct (dots_removed_head_digit _ _ Hd Hst) as (d & s' & t' & -> & -> & Hdd).
    cbn [Py.startswith].
    assert (H1 : Ascii.eqb d x = false).
    { apply Ascii.eqb_neq. intros ->. congruence. }
    assert (H2 : Ascii.eqb "." x = false).
    { apply Ascii.eqb_neq. intros <-. congruence. }
    rewrite H1, H2. reflexivity.
Qed.

Lemma contains_unfold w s :
  Py.contains w s =
  Py.startswith s w || match s with "" => false | String _ s' => Py.contains w s' end.
Proof. destruct s; reflexivity. Qed.

Lemma contains_dots_removed w s t :
  plain_word w = true -> dots_removed s t ->
  Py.contains w t = Py.contains w s.
Proof.
  intros Hw Hst. induction Hst as [|c s t Hst IH|s t Hd Hst IH].
  - reflexivity.
  - rewrite (contains_unfold w (String c t)), (contains_unfold w (String c s)).
    rewrite IH, (startswith_dots_removed w (String c s) (String c t) Hw).
    + reflexivity.
    + apply dots_removed_keep, Hst.
  - rewrite (contains_unfold w (String "." s)), <- IH.
    destruct w as [|x w'].
    + destruct t; reflexivity.
    + destruct (plain_word_cons _ _ Hw) as (_ & Hdot & _ & _).
      cbn [Py.startswith].
      assert (H2 : Ascii.eqb "." x = false).
      { apply Ascii.eqb_neq. intros <-. congruence. }
      rewrite H2. reflexivity.
Qed.

Lemma startswith_rstrip w : forall x,
  plain_word w = true -> Py.startswith (Py.rstrip x) w = Py.startswith x w.
Proof.
  induction w as [|y w IH]; intros x Hw; [reflexivity|].
  destruct (plain_word_cons _ _ Hw) as (_ & _ & Hsp & Hw').
  induction x as [|c x IHx]; [reflexivity|].
  cbn [Py.rstrip].
  assert (Hcy : Py.is_space c = true -> Ascii.eqb c y = false).
  { intros Hc. apply Ascii.eqb_neq. intros ->. congruence. }
  destruct (Py.rstrip x) as [|r rs] eqn:Hr.
  - destruct (Py.is_space c) eqn:Hc; cbn [Py.startswith].
    + rewrite (Hcy eq_refl). reflexivity.
    + rewrite <- (IH x Hw'), Hr. reflexivity.
  - cbn [Py.startswith]. rewrite <- (IH x Hw'), Hr. reflexivity.
Qed.

Lemma contains_lstrip w x :
  plain_word w = true -> w <> "" ->
  Py.contains w (Py.lstrip x) = Py.contains w x.
Proof.
  intros Hw Hne. destruct w as [|y w]; [congruence|].
  destruct (plain_word_cons _ _ Hw) as (_ & _ & Hsp & _).
  induction x as [|c x IH]; [reflexivity|].
  cbn [Py.lstrip]. destruct (Py.is_space c) eqn:Hc; [|reflexivity].
  rewrite IH, (contains_unfold _ (String c x)). cbn [Py.startswith].
  assert (Hcy : Ascii.eqb c y = false).
  { apply Ascii.eqb_neq. intros ->. congruence. }
  rewrite Hcy. reflexivity.
Qed.

Lemma contains_rstrip w x :
  plain_word w = true -> w <> "" ->
  Py.contains w (Py.rstrip x) = Py.contains w x.
Proof.
  intros Hw Hne. induction x as [|c x IH]; [reflexivity|].
  rewrite (contains_unfold w (String c x)), <- IH.
  rewrite <- (startswith_rstrip w (String c x) Hw).
  cbn [Py.rstrip]. destruct (Py.rstrip x) as [|r rs] eqn:Hr.
  - destruct (Py.is_space c).
    + destruct w; [congruence|reflexivity].
    + rewrite (contains_unfold w (String c "")). reflexivity.
  - rewrite (contains_unfold w (String c (String r rs))). reflexivity.
Qed.

Lemma contains_strip w x :
  plain_word w = true -> w <> "" ->
  Py.contains w (Py.strip x) = Py.contains w x.
Proof.
  intros Hw Hne. unfold Py.strip.
  rewrite contains_rstrip, contains_lstrip by assumption. reflexivity.
Qed.

(** *** Validation does not see the normalisation *)

Lemma find_ext_in {A : Type} (f g : A -> bool) (l : list A) :
  (forall x, List.In x l -> f x = g x) -> List.find f l = List.find g l.
Proof.
  induction l as [|x l IH]; intros H; [reflexivity|]. cbn [List.find].
  rewrite (H x (or_introl eq_refl)), IH; [reflexivity|].
  intros y Hy. apply H. right. exact Hy.
Qed.

Lemma existsb_ext_in {A : Type} (f g : A -> bool) (l : list A) :
  (forall x, List.In x l -> f x = g x) -> existsb f l = existsb g l.
Proof.
  induction l as [|x l IH]; intros H; [reflexivity|]. cbn [existsb].
  rewrite (H x (or_introl eq_refl)), IH; [reflexivity|].
  intros y Hy. apply H. right. exact Hy.
Qed.

Lemma keywords_plain keyword :
  List.In keyword FORBIDDEN_SQL_KEYWORDS -> plain_word keyword = true /\ keyword <> "".
Proof.
  unfold FORBIDDEN_SQL_KEYWORDS. cbn [List.In].
  intros H. repeat (destruct H as [<-|H]; [split; [reflexivity|discriminate]|]).
  destruct H.
Qed.

Lemma tables_plain table :
  List.In table ALLOWED_TABLES -> plain_word table = true /\ table <> "".
Proof.
  unfold ALLOWED_TABLES. cbn [List.In].
  intros H. repeat (destruct H as [<-|H]; [split; [reflexivity|discriminate]|]).
  destruct H.
Qed.

Lemma startswith_select_normalized query :
  Py.startswith (Py.strip (Py.upper (_normalize_ruts_in_query query))) "SELECT" =
  Py.startswith (Py.strip (Py.upper query)) "SELECT".
Proof.
  unfold Py.strip. rewrite !startswith_rstrip by reflexivity.
  apply startswith_dots_removed; [reflexivity|].
  apply dots_removed_lstrip, dots_removed_upper, normalize_removes_dots.
Qed.

Lemma contains_upper_normalized w query :
  plain_word w = true -> w <> "" ->
  Py.contains w (Py.strip (Py.upper (_normalize_ruts_in_query query))) =
  Py.contains w (Py.upper query).
Proof.
  intros Hw Hne. rewrite contains_strip by assumption.
  apply contains_dots_removed; [exact Hw|].
  apply dots_removed_upper, normalize_removes_dots.
Qed.

Lemma validate_normalized query :
  validate (_normalize_ruts_in_query query) = validate query.
Proof.
  unfold validate. rewrite startswith_select_normalized.
  destruct (Py.startswith (Py.strip (Py.upper query)) "SELECT"); [|reflexivity].
  cbn [negb].
  rewrite (find_ext_in
             (fun keyword =>
                Py.contains keyword (Py.strip (Py.upper (_normalize_ruts_in_query query))))
             (fun keyword => Py.contains keyword (Py.strip (Py.upper query)))).
  2:{ intros keyword Hin. destruct (keywords_plain _ Hin) as [Hw Hne].
      rewrite contains_upper_normalized, contains_strip by assumption. reflexivity. }
  destruct (List.find _ FORBIDDEN_SQL_KEYWORDS); [reflexivity|].
  rewrite (existsb_ext_in
             (fun table => Py.contains table (Py.lower (_normalize_ruts_in_query query)))
             (fun table => Py.contains table (Py.lower query))); [reflexivity|].
  intros table Hin. destruct (tables_plain _ Hin) as [Hw _].
  apply contains_dots_removed; [exact Hw|].
  apply dots_removed_lower, normalize_removes_dots.
Qed.

(** What the validator accepts, and the three ways it refuses. *)
Lemma validate_accepted query : accepted query <-> validate query = (true, "OK").
Proof.
  unfold accepted, validate. split.
  - intros (Hsel & Hkw & table & Hin & Htab). rewrite Hsel. cbn [negb].
    destruct (List.find _ FORBIDDEN_SQL_KEYWORDS) as [keyword|] eqn:Hfind.
    + apply List.find_some in Hfind. destruct Hfind as [Hin' Hc].
      rewrite (Hkw keyword Hin') in Hc. discriminate.
    + assert (He : existsb (fun table => Py.contains table (Py.lower query))
                           ALLOWED_TABLES = true).
      { apply existsb_exists. exists table. split; assumption. }
      rewrite He. reflexivity.
  - destruct (Py.startswith (Py.strip (Py.upper query)) "SELECT"); [|discriminate].
    cbn [negb].
    destruct (List.find _ FORBIDDEN_SQL_KEYWORDS) as [keyword|] eqn:Hfind; [discriminate|].
    destruct (existsb _ ALLOWED_TABLES) eqn:He; [|discriminate].
    intros _. split; [reflexivity|]. split.
    + intros keyword Hin.
      pose proof (List.find_none _ _ Hfind keyword Hin) as H. exact H.
    + apply existsb_exists in He. exact He.
Qed.

Lemma validate_refuses query :
  (Py.startswith (Py.strip (Py.upper query)) "SELECT" = false \/
   (exists keyword, List.In keyword FORBIDDEN_SQL_KEYWORDS /\
                    Py.contains keyword (Py.upper query) = true) \/
   (forall table, List.In table ALLOWED_TABLES ->
                  Py.contains table (Py.lower query) = false)) ->
  fst (validate query) = false.
Proof.
  unfold validate. intros [Hsel|[(keyword & Hin & Hc)|Htab]].
  - rewrite Hsel. reflexivity.
  - destruct (Py.startswith _ "SELECT"); [|reflexivity]. cbn [negb].
    destruct (List.find _ FORBIDDEN_SQL_KEYWORDS) as [k|] eqn:Hfind; [reflexivity|].
    pose proof (List.find_none _ _ Hfind keyword Hin) as H. cbn in H.
    destruct (keywords_plain _ Hin) as [Hw Hne].
    rewrite contains_strip in H by assumption. congruence.
  - destruct (Py.startswith _ "SELECT"); [|reflexivity]. cbn [negb].
    destruct (List.find _ FORBIDDEN_SQL_KEYWORDS); [reflexivity|].
    assert (He : existsb (fun table => Py.contains table (Py.lower query))
                         ALLOWED_TABLES = false).
    { apply not_true_is_false. intros He. apply existsb_exists in He.
      destruct He as (table & Hin & Hc). rewrite (Htab table Hin) in Hc. discriminate. }
    rewrite He. reflexivity.
Qed.

Lemma execute_unsafe db query :
  fst (validate query) = false -> rejected (execute db query).
Proof.
  intros Hv. unfold execute. rewrite validate_normalized.
  destruct (validate query) as [is_safe msg]. cbn in Hv. subst is_safe. cbn.
  split; [eauto|split; reflexivity].
Qed.

Lemma with_limit_normalized query :
  Py.contains "LIMIT" (Py.upper query) = false ->
  with_limit (_normalize_ruts_in_query query) =
  Py.rstrip_char ";" (_normalize_ruts_in_query query) +:+ " LIMIT " +:+
  Py.str_of_nat MAX_SQL_ROWS.
Proof.
  intros H. unfold with_limit.
  rewrite (contains_dots_removed "LIMIT" (Py.upper query)), H; [reflexivity..|].
  apply dots_removed_upper, normalize_removes_dots.
Qed.

Lemma execute_query_field db query :
  accepted query ->
  SQLQueryTool.query (execute db query) = with_limit (_normalize_ruts_in_query query).
Proof.
  intros Hacc. apply validate_accepted in Hacc.
  unfold execute. rewrite validate_normalized, Hacc. cbn [negb].
  destruct (fetch db _); reflexivity.
Qed.




(** *** A dotted RUT literal in its surroundings *)

Lemma dotted_rut_quote_free g : dotted_rut g -> quote_free g = true.
Proof.
  intros Hg. destruct (normalize_rut_dotted g Hg)
    as (lead & a1 & a2 & a3 & b1 & b2 & b3 & v & -> & _ & [_ Hlead]
        & Ha1 & Ha2 & Ha3 & Hb1 & Hb2 & Hb3 & Hv).
  assert (Hd : forall c, is_digit c = true -> negb (Ascii.eqb c "'") = true).
  { intros c Hc. apply negb_true_iff, Ascii.eqb_neq. intros ->. discriminate. }
  assert (Hc : negb (Ascii.eqb v "'") = true).
  { apply negb_true_iff, Ascii.eqb_neq. intros ->. discriminate. }
  clear Hg. induction lead as [|c lead IH].
  - rewrite append_nil_l. unfold rut_body. cbn [quote_free].
    rewrite (Hd _ Ha1), (Hd _ Ha2), (Hd _ Ha3), (Hd _ Hb1), (Hd _ Hb2), (Hd _ Hb3), Hc.
    reflexivity.
  - rewrite append_cons. cbn [quote_free]. cbn in Hlead.
    apply andb_true_iff in Hlead. destruct Hlead as [Hc0 Hlead].
    rewrite (Hd _ Hc0), (IH Hlead). reflexivity.
Qed.

Lemma ends_with_check_digit_cons c s :
  s <> "" -> ends_with_check_digit (String c s) = ends_with_check_digit s.
Proof. destruct s; [congruence|reflexivity]. Qed.

Lemma ends_with_check_digit_app a b :
  b <> "" -> ends_with_check_digit (a +:+ b) = ends_with_check_digit b.
Proof.
  intros Hb. induction a as [|c a IH]; [reflexivity|].
  rewrite append_cons, ends_with_check_digit_cons; [exact IH|].
  destruct a; [exact Hb|discriminate].
Qed.

Lemma dotted_rut_ends g : dotted_rut g -> ends_with_check_digit (String "'" g) = true.
Proof.
  intros [d1 a1 a2 a3 b1 b2 b3 v _ _ _ _ _ _ _ Hv
         |d1 d2 a1 a2 a3 b1 b2 b3 v _ _ _ _ _ _ _ _ Hv]; exact Hv.
Qed.

(** Where the first quote after a text without quotes can be. *)
Lemma first_quote g : forall p s rest,
  quote_free g = true ->
  p +:+ String "'" s = g +:+ String "'" rest ->
  (p = g /\ s = rest) \/ exists w, p = g +:+ String "'" w.
Proof.
  induction g as [|x g IH]; intros p s rest Hg Heq.
  - destruct p as [|c p].
    + left. injection Heq as ->. auto.
    + right. injection Heq as -> _. exists p. reflexivity.
  - cbn [quote_free] in Hg. apply andb_true_iff in Hg. destruct Hg as [Hx Hg].
    apply negb_true_iff, Ascii.eqb_neq in Hx.
    destruct p as [|c p].
    + injection Heq as <- _. congruence.
    + injection Heq as -> Heq.
      destruct (IH _ _ _ Hg Heq) as [[-> ->]|(w & ->)]; [left; auto|].
      right. exists w. reflexivity.
Qed.

(** No match of the scan straddles the opening quote of a literal that
    does not directly follow a digit or [k]. *)
Lemma normalize_before_quote pre : forall s,
  ends_with_check_digit pre = false ->
  _normalize_ruts_in_query (pre +:+ String "'" s) =
  _normalize_ruts_in_query pre +:+ _normalize_ruts_in_query (String "'" s).
Proof.
  induction pre as [pre IH] using string_length_ind. intros s Hend.
  destruct (match_rut pre) as [[g rest]|] eqn:Hm.
  - pose proof (match_rut_shorter _ _ _ Hm) as Hlen.
    rewrite (normalize_match _ _ _ Hm).
    apply match_rut_inv in Hm. destruct Hm as [Hg ->].
    rewrite (normalize_match _ g (rest +:+ String "'" s)).
    2:{ rewrite <- (match_rut_intro g (rest +:+ String "'" s) Hg).
        f_equal. rewrite !append_assoc. reflexivity. }
    rewrite IH; [rewrite !append_assoc; reflexivity|exact Hlen|].
    destruct rest as [|c rest]; [reflexivity|].
    rewrite <- Hend. symmetry.
    rewrite <- !append_assoc. apply ends_with_check_digit_app. discriminate.
  - destruct pre as [|c p]; [reflexivity|].
    rewrite (normalize_no_match _ _ Hm).
    rewrite (append_cons c p), (append_cons c (_normalize_ruts_in_query p)).
    assert (Hp : ends_with_check_digit p = false).
    { destruct p as [|c' p']; [reflexivity|].
      rewrite <- Hend. symmetry. apply ends_with_check_digit_cons. discriminate. }
    rewrite normalize_no_match; [rewrite IH by (cbn; lia || exact Hp); reflexivity|].
    destruct (match_rut (String c (p +:+ String "'" s))) as [[g rest]|] eqn:Hm';
      [|reflexivity].
    exfalso. apply match_rut_inv in Hm'. destruct Hm' as [Hg Heq].
    injection Heq as -> Heq.
    destruct (first_quote g p s rest (dotted_rut_quote_free _ Hg) Heq)
      as [[-> _]|(w & ->)].
    + pose proof (dotted_rut_ends g Hg) as He. congruence.
    + assert (Habs : Some (g, w) = None); [|discriminate].
      rewrite <- Hm. symmetry. exact (match_rut_intro g w Hg).
Qed.

Lemma normalize_quote_free x y :
  quote_free x = true ->
  _normalize_ruts_in_query (x +:+ y) = x +:+ _normalize_ruts_in_query y.
Proof.
  induction x as [|c x IH]; intros Hx; [reflexivity|].
  cbn [quote_free] in Hx. apply andb_true_iff in Hx. destruct Hx as [Hc Hx].
  apply negb_true_iff, Ascii.eqb_neq in Hc.
  rewrite !append_cons, normalize_other, IH by assumption. reflexivity.
Qed.

Lemma remove_char_idem x s : Py.remove_char x (Py.remove_char x s) = Py.remove_char x s.
Proof.
  induction s as [|c s IH]; [reflexivity|]. cbn [Py.remove_char].
  destruct (Ascii.eqb c x) eqn:Hc; [exact IH|].
  cbn [Py.remove_char]. rewrite Hc, IH. reflexivity.
Qed.

Lemma remove_char_quote_free x s :
  quote_free s = true -> quote_free (Py.remove_char x s) = true.
Proof.
  induction s as [|c s IH]; [reflexivity|]. cbn [quote_free Py.remove_char].
  intros H. apply andb_true_iff in H. destruct H as [Hc Hs].
  destruct (Ascii.eqb c x); [apply IH, Hs|].
  cbn [quote_free]. rewrite Hc, (IH Hs). reflexivity.
Qed.

Lemma dotted_rut_changes g : dotted_rut g -> normalize_rut g <> g.
Proof.
  intros Hg Heq. apply (f_equal String.length) in Heq.
  destruct (normalize_rut_dotted g Hg)
    as (lead & a1 & a2 & a3 & b1 & b2 & b3 & v & Hshape & Hnorm & _).
  rewrite Hnorm in Heq. rewrite Hshape in Heq.
  rewrite !length_append in Heq. cbn in Heq. lia.
Qed.

Lemma dotted_rut_starts g rest :
  dotted_rut g -> starts_with_digit (g +:+ rest) = true.
Proof.
  intros [d1 a1 a2 a3 b1 b2 b3 v Hd1 _ _ _ _ _ _ _
         |d1 d2 a1 a2 a3 b1 b2 b3 v Hd1 _ _ _ _ _ _ _ _]; exact Hd1.
Qed.

(** The scan leaves an undotted literal alone. *)
Lemma normalize_undotted rut post :
  dotted_rut rut -> starts_with_digit post = false ->
  _normalize_ruts_in_query (String "'" (normalize_rut rut +:+ String "'" post)) =
  String "'" (normalize_rut rut +:+ String "'" (_normalize_ruts_in_query post)).
Proof.
  intros Hrut Hpost.
  assert (Hfree : quote_free (normalize_rut rut) = true).
  { apply remove_char_quote_free, dotted_rut_quote_free, Hrut. }
  rewrite normalize_no_match.
  - rewrite normalize_quote_free by exact Hfree.
    rewrite normalize_no_match; [reflexivity|].
    destruct (match_rut (String "'" post)) as [[g rest]|] eqn:Hm; [|reflexivity].
    exfalso. apply match_rut_inv in Hm. destruct Hm as [Hg Heq].
    injection Heq as Heq.
    assert (Hs : starts_with_digit post = true)
      by (rewrite Heq; exact (dotted_rut_starts g _ Hg)).
    congruence.
  - destruct (match_rut _) as [[g rest]|] eqn:Hm; [|reflexivity].
    exfalso. apply match_rut_inv in Hm. destruct Hm as [Hg Heq].
    injection Heq as Heq.
    destruct (first_quote g _ _ _ (dotted_rut_quote_free _ Hg) Heq)
      as [[Hu _]|(w & Hu)].
    + apply (dotted_rut_changes g Hg).
      rewrite <- Hu at 1. unfold normalize_rut. rewrite remove_char_idem.
      exact Hu.
    + rewrite Hu in Hfree. clear -Hfree.
      induction g as [|c g IH]; cbn in Hfree; [discriminate|].
      apply andb_true_iff in Hfree. destruct Hfree as [_ Hfree]. apply IH, Hfree.
Qed.




End SQLFacts.


(** ** The reasoning loop *)

Module BuscadorFacts.

Import AgenteBuscador.

Section Loop.

Context {ArgVal : Type}.
Variable repr_items : list (string * ArgVal) -> string.
Variable summarize : string -> list (Observation (ArgVal := ArgVal)) -> string.
Variable gateway : Gateway (ArgVal := ArgVal).
Variable max_iterations : nat.

Local Abbreviation signature := (AgenteBuscador.signature repr_items).
Local Abbreviation count_signature := (AgenteBuscador.count_signature repr_items).
Local Abbreviation _detect_loop := (AgenteBuscador._detect_loop repr_items).
Local Abbreviation plan_phase := (AgenteBuscador.plan_phase gateway).
Local Abbreviation body := (AgenteBuscador.body repr_items summarize gateway).
Local Abbreviation body_in_spec_order :=
  (AgenteBuscador.body_in_spec_order repr_items summarize gateway).
Local Abbreviation iterate :=
  (AgenteBuscador.iterate repr_items summarize gateway max_iterations).
Local Abbreviation run := (AgenteBuscador.run repr_items summarize gateway max_iterations).
Local Abbreviation trace := (AgenteBuscador.trace repr_items summarize gateway).
Local Abbreviation _fallback_response := (AgenteBuscador._fallback_response max_iterations).

(** *** Loop detection *)

(** The signature depends on the tool and on the argument pairs only. *)
Lemma same_action_same_signature (o1 o2 : Observation) :
  tool o1 = tool o2 -> input o1 = input o2 -> signature o1 = signature o2.
Proof. unfold AgenteBuscador.signature. intros -> ->. reflexivity. Qed.

Lemma count_signature_le sig (observations : list Observation) :
  count_signature sig observations <= length observations.
Proof. unfold AgenteBuscador.count_signature. apply length_filter. Qed.

Lemma count_signature_app sig (l1 l2 : list Observation) :
  count_signature sig (l1 ++ l2) = count_signature sig l1 + count_signature sig l2.
Proof.
  unfold AgenteBuscador.count_signature. rewrite filter_app, length_app. reflexivity.
Qed.

(** After an observation has been appended, [_detect_loop] answers whether
    its signature has occurred [max_repeats] times. *)
Lemma detect_loop_snoc (observations : list Observation) (o : Observation) max_repeats :
  _detect_loop (observations ++ [o]) max_repeats =
  Ok (max_repeats <=? count_signature (signature o) (observations ++ [o])).
Proof.
  unfold AgenteBuscador._detect_loop.
  destruct (Nat.ltb_spec (length (observations ++ [o])) max_repeats) as [Hlt|Hge].
  - pose proof (count_signature_le (signature o) (observations ++ [o])).
    destruct (Nat.leb_spec max_repeats
                (count_signature (signature o) (observations ++ [o]))); [lia|reflexivity].
  - rewrite last_snoc. reflexivity.
Qed.


(** *** What one iteration does to the state *)

Lemma body_continue (query : string) (st st' : State) :
  body query st = Continue st' ->
  iteration st' = S (iteration st) /\
  (observations st' = observations st \/
   exists t arguments result,
     is_finish t = false /\
     observations st' =
     observations st ++ [mkObservation (iteration st + 1) t arguments result]).
Proof.
  unfold AgenteBuscador.body.
  destruct (plan_phase query st) as [plan|e]; [|discriminate].
  destruct (act_for gateway _ _ _ _) as [text|t arguments result|msg]; [| |discriminate].
  - unfold text_outcome. destruct (observations st) eqn:Hobs.
    + intros [= <-]. cbn. auto.
    + destruct (Py.truthy_str _); discriminate.
  - cbv zeta. rewrite detect_loop_snoc.
    destruct (_ <=? _); [discriminate|].
    destruct (is_finish t) eqn:Hfin.
    + unfold finish_response. destruct (out_summary result); discriminate.
    + intros [= <-]. cbn. split; [reflexivity|]. right. eauto.
Qed.

Lemma body_return (query : string) (st : State) (r : AgentResponse) :
  body query st = Return r ->
  md_iterations (metadata r) = iteration st + 1 /\
  (md_observations (metadata r) = observations st \/
   exists o, step o = iteration st + 1 /\
             md_observations (metadata r) = observations st ++ [o]).
Proof.
  unfold AgenteBuscador.body.
  destruct (plan_phase query st) as [plan|e]; [|discriminate].
  destruct (act_for gateway _ _ _ _) as [text|t arguments result|msg]; [| |discriminate].
  - unfold text_outcome. destruct (observations st) eqn:Hobs; [discriminate|].
    destruct (Py.truthy_str _); intros [= <-]; cbn; auto.
  - cbv zeta. rewrite detect_loop_snoc.
    destruct (_ <=? _).
    + intros [= <-]. cbn. split; [reflexivity|]. right. eexists. split; [|reflexivity].
      reflexivity.
    + destruct (is_finish t); [|discriminate].
      unfold finish_response. destruct (out_summary result); [|discriminate].
      intros [= <-]. cbn. split; [reflexivity|]. right. eexists. split; [|reflexivity].
      reflexivity.
Qed.

(** *** The finish tool and loop detection *)

Lemma no_finish_continue (query : string) (st st' : State) :
  no_finish st -> body query st = Continue st' -> no_finish st'.
Proof.
  unfold no_finish. intros Hinv Hbody.
  destruct (body_continue _ _ _ Hbody) as [_ [->|(t & a & r & Hfin & ->)]]; [exact Hinv|].
  apply Forall_app. split; [exact Hinv|]. constructor; [exact Hfin|constructor].
Qed.

Lemma trace_no_finish (query : string) (remaining : nat) (st0 st : State) :
  no_finish st0 -> List.In st (trace remaining query st0) -> no_finish st.
Proof.
  revert st0. induction remaining as [|k IH]; intros st0 Hinv;
    cbn [AgenteBuscador.trace List.In].
  - intros [<-|[]]. exact Hinv.
  - intros [<-|Hin]; [exact Hinv|].
    destruct (body query st0) as [st'|r|e] eqn:Hbody; try destruct Hin.
    eapply (IH st'); [eapply no_finish_continue; eauto|exact Hin].
Qed.

(** Signatures of different tools differ: the tool name comes first and
    is closed by a colon. *)
Lemma signature_tool (o1 o2 : Observation) :
  signature o1 = signature o2 -> tool o1 = tool o2.
Proof.
  unfold AgenteBuscador.signature.
  destruct (tool o1), (tool o2); cbn; intros H; try reflexivity; discriminate.
Qed.

Lemma finish_signature_is_new (observations : list Observation) (o : Observation) :
  Forall (fun o' : Observation => is_finish (tool o') = false) observations ->
  tool o = finish ->
  count_signature (signature o) (observations ++ [o]) = 1.
Proof.
  intros Hinv Hfin. rewrite count_signature_app.
  unfold AgenteBuscador.count_signature at 2. cbn [filter].
  rewrite filter_cons_True by reflexivity.
  assert (H0 : count_signature (signature o) observations = 0); [|rewrite H0; reflexivity].
  unfold AgenteBuscador.count_signature.
  induction Hinv as [|o' rest Ho' _ IH]; [reflexivity|].
  rewrite filter_cons_False; [exact IH|].
  intros Hsig. apply signature_tool in Hsig. rewrite Hsig, Hfin in Ho'. discriminate.
Qed.


(** *** The history only grows *)

Lemma strictly_increasing_snoc (l : list nat) (x : nat) :
  strictly_increasing l -> Forall (fun y => y < x) l -> strictly_increasing (l ++ [x]).
Proof.
  induction l as [|a l IH]; intros Hl Hall; [simpl; auto|].
  inversion Hall as [|? ? Ha Hrest]; subst. destruct Hl as [Hhead Htail].
  cbn [app strictly_increasing]. split; [|apply IH; assumption].
  destruct l as [|b l']; simpl; [exact Ha|exact Hhead].
Qed.

Lemma steps_ok_snoc upto (history : list (Observation (ArgVal := ArgVal)))
      (o : Observation) :
  steps_ok upto history -> step o = S upto -> steps_ok (S upto) (history ++ [o]).
Proof.
  intros [Hinc Hall] Hstep. split.
  - rewrite List.map_app. apply strictly_increasing_snoc; [exact Hinc|].
    apply List.Forall_map. eapply List.Forall_impl; [|exact Hall].
    cbn. intros o' Ho'. cbn [map]. lia.
  - apply Forall_app. split.
    + eapply List.Forall_impl; [|exact Hall]. cbn. intros; lia.
    + constructor; [lia|constructor].
Qed.

Lemma steps_ok_weaken upto upto' (history : list (Observation (ArgVal := ArgVal))) :
  upto <= upto' -> steps_ok upto history -> steps_ok upto' history.
Proof.
  intros Hle [Hinc Hall]. split; [exact Hinc|].
  eapply List.Forall_impl; [|exact Hall]. cbn. intros; lia.
Qed.

Lemma steps_ok_continue (query : string) (st st' : State) :
  steps_ok (iteration st) (observations st) -> body query st = Continue st' ->
  steps_ok (iteration st') (observations st').
Proof.
  intros Hinv Hbody.
  destruct (body_continue _ _ _ Hbody) as [-> [->|(t & a & r & _ & ->)]].
  - eapply steps_ok_weaken; [|exact Hinv]. lia.
  - apply steps_ok_snoc; [exact Hinv|]. cbn. lia.
Qed.

Lemma steps_ok_return (query : string) (st : State) (r : AgentResponse) :
  steps_ok (iteration st) (observations st) -> body query st = Return r ->
  steps_ok (md_iterations (metadata r)) (md_observations (metadata r)).
Proof.
  intros Hinv Hbody.
  destruct (body_return _ _ _ Hbody) as [-> [->|(o & Hstep & ->)]].
  - eapply steps_ok_weaken; [|exact Hinv]. lia.
  - rewrite Nat.add_1_r. apply steps_ok_snoc; [exact Hinv|]. lia.
Qed.

(** Two consecutive states of the run: the later history is the earlier
    one, or the earlier one with the observation of that iteration added at
    the end. *)
Lemma trace_step (query : string) (remaining : nat) (st0 : State) i st st' :
  trace remaining query st0 !! i = Some st ->
  trace remaining query st0 !! S i = Some st' ->
  body query st = Continue st'.
Proof.
  revert st0 i. induction remaining as [|k IH]; intros st0 i;
    cbn [AgenteBuscador.trace].
  - destruct i; discriminate.
  - destruct (body query st0) as [st1|r|e] eqn:Hbody.
    + destruct i as [|i]; cbn.
      * intros [= <-]. destruct k; cbn; intros [= <-]; exact Hbody.
      * apply IH.
    + destruct i as [|[|i]]; discriminate.
    + destruct i as [|[|i]]; discriminate.
Qed.

Lemma trace_steps_ok (query : string) (remaining : nat) (st0 st : State) :
  steps_ok (iteration st0) (observations st0) ->
  List.In st (trace remaining query st0) ->
  steps_ok (iteration st) (observations st).
Proof.
  revert st0. induction remaining as [|k IH]; intros st0 Hinv;
    cbn [AgenteBuscador.trace List.In].
  - intros [<-|[]]. exact Hinv.
  - intros [<-|Hin]; [exact Hinv|].
    destruct (body query st0) as [st'|r|e] eqn:Hbody; try destruct Hin.
    eapply (IH st'); [eapply steps_ok_continue; eauto|exact Hin].
Qed.

Lemma prefix_continue (query : string) (st st' : State) :
  body query st = Continue st' -> observations st `prefix_of` observations st'.
Proof.
  intros Hbody.
  destruct (body_continue _ _ _ Hbody) as [_ [->|(t & a & r & _ & ->)]];
    [reflexivity|apply prefix_app_r; reflexivity].
Qed.

(** What [run] returns, seen from the states it went through. *)
Lemma iterate_response (query : string) (remaining : nat) (st0 : State)
      (r : AgentResponse) :
  iteration st0 + remaining = max_iterations ->
  steps_ok (iteration st0) (observations st0) ->
  iterate remaining query st0 = Ok r ->
  steps_ok (md_iterations (metadata r)) (md_observations (metadata r)) /\
  forall st, List.In st (trace remaining query st0) ->
             observations st `prefix_of` md_observations (metadata r).
Proof.
  revert st0. induction remaining as [|k IH]; intros st0 Hbudget Hinv;
    cbn [AgenteBuscador.iterate AgenteBuscador.trace List.In].
  - intros [= <-]. cbn. split.
    + eapply steps_ok_weaken; [|exact Hinv]. lia.
    + intros st [<-|[]]. reflexivity.
  - destruct (body query st0) as [st'|r'|e] eqn:Hbody; [| |discriminate].
    + intros Hrun.
      destruct (IH st') as [Hok Hpre]; [| |exact Hrun|].
      * destruct (body_continue _ _ _ Hbody) as [-> _]. lia.
      * eapply steps_ok_continue; eauto.
      * split; [exact Hok|]. intros st [<-|Hin]; [|apply Hpre, Hin].
        etransitivity; [apply (prefix_continue _ _ _ Hbody)|].
        apply Hpre. destruct k; left; reflexivity.
    + intros [= <-]. split; [eapply steps_ok_return; eauto|].
      intros st [<-|[]].
      destruct (body_return _ _ _ Hbody) as [_ [->|(o & _ & ->)]];
        [reflexivity|apply prefix_app_r; reflexivity].
Qed.

(** C8, as the code has it.  Along a run, each iteration leaves the history
    as it is or adds one observation at its end, whose [step] is the number
    of that iteration counted from 1; so the steps increase strictly and lie
    between 1 and the number of iterations run, every history the run went
    through is a prefix of the one in the response, and nothing recorded is
    ever changed or removed.  The first step is 1 only if the first
    iteration recorded an observation. *)
Theorem history_is_append_only (query : string) :
  (forall i st st',
     trace max_iterations query initial !! i = Some st ->
     trace max_iterations query initial !! S i = Some st' ->
     iteration st' = S (iteration st) /\
     (observations st' = observations st \/
      exists o, step o = S (iteration st) /\
                observations st' = observations st ++ [o])) /\
  (forall st, List.In st (trace max_iterations query initial) ->
     steps_ok (iteration st) (observations st)) /\
  (forall r, run query = Ok r ->
     steps_ok (md_iterations (metadata r)) (md_observations (metadata r)) /\
     forall st, List.In st (trace max_iterations query initial) ->
                observations st `prefix_of` md_observations (metadata r)).
Proof.
  assert (H0 : steps_ok (iteration (initial (ArgVal := ArgVal)))
                        (observations (initial (ArgVal := ArgVal)))).
  { split; constructor. }
  split; [|split].
  - intros i st st' Hi Hi'.
    pose proof (trace_step _ _ _ _ _ _ Hi Hi') as Hbody.
    destruct (body_continue _ _ _ Hbody) as [Hit [Hobs|(t & a & r & _ & Hobs)]].
    + split; [exact Hit|left; exact Hobs].
    + split; [exact Hit|]. right. eexists. split; [|exact Hobs]. cbn. lia.
  - intros st Hin. eapply trace_steps_ok; [exact H0|exact Hin].
  - intros r Hrun. apply (iterate_response query max_iterations initial r);
      [reflexivity|exact H0|exact Hrun].
Qed.

End Loop.

(** *** The theorems at work *)



Lemma history_is_append_only_witness :
  exists r,
    run plain_repr no_summary hesitant 10 "afiliados" = Ok r /\
    steps_ok (md_iterations (metadata r)) (md_observations (metadata r)) /\
    observations hesitated `prefix_of` md_observations (metadata r).
Proof.
  eexists. split; [reflexivity|].
  destruct (history_is_append_only plain_repr no_summary hesitant 10 "afiliados")
    as (_ & _ & Hrun).
  destruct (Hrun _ eq_refl) as [Hok Hpre].
  split; [exact Hok|]. apply Hpre. right. left. reflexivity.
Defined.

(** C8, as the specification states it, fails when the model answers the
    first iteration with text: nothing is recorded, the loop goes on, and
    the observation of the second iteration carries step 2. *)
Lemma first_step_is_not_one :
  exists r,
    run plain_repr no_summary hesitant MAX_ITERATIONS "afiliados" = Ok r /\
    map step (md_observations (metadata r)) = [2] /\
    ~ steps_from_one (md_observations (metadata r)).
Proof.
  eexists. split; [reflexivity|]. split; [reflexivity|].
  cbn. discriminate.
Qed.

End BuscadorFacts.


(** ** The reasoning loop: budget, repetitions, text answers, plans *)

Module BuscadorMore.

Import AgenteBuscador BuscadorFacts.

Section Loop.

Context {ArgVal : Type}.
Variable repr_items : list (string * ArgVal) -> string.
Variable summarize : string -> list (Observation (ArgVal := ArgVal)) -> string.
Variable gateway : Gateway (ArgVal := ArgVal).
Variable max_iterations : nat.

Local Abbreviation signature := (AgenteBuscador.signature repr_items).
Local Abbreviation count_signature := (AgenteBuscador.count_signature repr_items).
Local Abbreviation _detect_loop := (AgenteBuscador._detect_loop repr_items).
Local Abbreviation plan_phase := (AgenteBuscador.plan_phase gateway).
Local Abbreviation _generate_plan := (AgenteBuscador._generate_plan gateway).
Local Abbreviation body := (AgenteBuscador.body repr_items summarize gateway).
Local Abbreviation iterate :=
  (AgenteBuscador.iterate repr_items summarize gateway max_iterations).
Local Abbreviation run := (AgenteBuscador.run repr_items summarize gateway max_iterations).
Local Abbreviation trace := (AgenteBuscador.trace repr_items summarize gateway).
Local Abbreviation _fallback_response := (AgenteBuscador._fallback_response max_iterations).

(** *** The budget of iterations *)

Lemma iterate_budget (query : string) (remaining : nat) (st0 : State)
      (r : AgentResponse) :
  iteration st0 + remaining = max_iterations ->
  length (observations st0) <= iteration st0 ->
  iterate remaining query st0 = Ok r ->
  md_iterations (metadata r) <= max_iterations /\
  length (md_observations (metadata r)) <= md_iterations (metadata r) /\
  (0 < max_iterations -> 1 <= md_iterations (metadata r)).
Proof.
  revert st0. induction remaining as [|k IH]; intros st0 Hbudget Hlen;
    cbn [AgenteBuscador.iterate].
  - intros [= <-]. cbn. lia.
  - destruct (body query st0) as [st'|r'|e] eqn:Hbody; [| |discriminate].
    + intros Hrun.
      destruct (body_continue _ _ _ _ _ _ Hbody) as [Hit Hobs].
      apply (IH st'); [lia| |exact Hrun].
      destruct Hobs as [->|(t & a & res & _ & ->)]; [lia|].
      rewrite length_app. cbn. lia.
    + intros [= <-].
      destruct (body_return _ _ _ _ _ _ Hbody) as [Hit Hobs]. rewrite Hit.
      split; [lia|]. split; [|lia].
      destruct Hobs as [->|(o & _ & ->)]; [lia|].
      rewrite length_app. cbn. lia.
Qed.

(** X1.  Whatever the model does, a response of [run] reports at most
    [max_iterations] iterations (at least one when the budget is positive)
    and holds at most one observation per iteration it reports. *)
Theorem run_stays_within_budget (query : string) (r : AgentResponse) :
  run query = Ok r ->
  md_iterations (metadata r) <= max_iterations /\
  length (md_observations (metadata r)) <= md_iterations (metadata r) /\
  (0 < max_iterations -> 1 <= md_iterations (metadata r)).
Proof.
  apply (iterate_budget query max_iterations initial r); cbn; lia.
Qed.

(** *** How often an action can be repeated *)

(** Every signature has occurred fewer than [bound] times. *)
Local Abbreviation repeats_below bound history :=
  (forall sig, count_signature sig history < bound).

Lemma count_signature_snoc sig (history : list Observation) (o : Observation) :
  count_signature sig (history ++ [o]) <= S (count_signature sig history).
Proof.
  rewrite count_signature_app.
  pose proof (count_signature_le repr_items sig [o]) as H.
  change (length [o]) with 1 in H. lia.
Qed.

Lemma count_signature_other sig (history : list Observation) (o : Observation) :
  signature o <> sig ->
  count_signature sig (history ++ [o]) = count_signature sig history.
Proof.
  intros Hne. rewrite count_signature_app.
  unfold AgenteBuscador.count_signature at 2.
  rewrite filter_cons_False by exact Hne. cbn. lia.
Qed.

Lemma repeats_continue (query : string) (st st' : State) :
  repeats_below MAX_LOOP_REPEATS (observations st) ->
  body query st = Continue st' ->
  repeats_below MAX_LOOP_REPEATS (observations st').
Proof.
  intros Hinv. unfold AgenteBuscador.body.
  destruct (plan_phase query st) as [plan|e]; [|discriminate].
  destruct (act_for gateway _ _ _ _) as [text|t arguments result|msg]; [| |discriminate].
  - unfold text_outcome. destruct (observations st) eqn:Hobs.
    + intros [= <-]. cbn. exact Hinv.
    + destruct (Py.truthy_str _); discriminate.
  - cbv zeta. rewrite detect_loop_snoc.
    destruct (Nat.leb_spec MAX_LOOP_REPEATS
                (count_signature
                   (signature (mkObservation (iteration st + 1) t arguments result))
                   (observations st ++
                    [mkObservation (iteration st + 1) t arguments result])))
      as [|Hlt]; [discriminate|].
    destruct (is_finish t).
    + unfold finish_response. destruct (out_summary result); discriminate.
    + intros [= <-]. cbn [observations]. intros sig.
      destruct (decide (signature (mkObservation (iteration st + 1) t arguments result)
                        = sig)) as [<-|Hne]; [exact Hlt|].
      rewrite count_signature_other by exact Hne. apply Hinv.
Qed.

Lemma repeats_iterate (query : string) (remaining : nat) (st0 : State)
      (r : AgentResponse) :
  repeats_below MAX_LOOP_REPEATS (observations st0) ->
  iterate remaining query st0 = Ok r ->
  forall sig, count_signature sig (md_observations (metadata r)) <= MAX_LOOP_REPEATS.
Proof.
  revert st0. induction remaining as [|k IH]; intros st0 Hinv;
    cbn [AgenteBuscador.iterate].
  - intros [= <-] sig. apply Nat.lt_le_incl, Hinv.
  - destruct (body query st0) as [st'|r'|e] eqn:Hbody; [| |discriminate].
    + apply IH. eapply repeats_continue; eauto.
    + intros [= <-] sig.
      destruct (body_return _ _ _ _ _ _ Hbody) as [_ [->|(o & _ & ->)]].
      * apply Nat.lt_le_incl, Hinv.
      * eapply Nat.le_trans; [apply count_signature_snoc|]. apply Hinv.
Qed.

Lemma repeats_trace (query : string) (remaining : nat) (st0 st : State) :
  repeats_below MAX_LOOP_REPEATS (observations st0) ->
  List.In st (trace remaining query st0) ->
  repeats_below MAX_LOOP_REPEATS (observations st).
Proof.
  revert st0. induction remaining as [|k IH]; intros st0 Hinv;
    cbn [AgenteBuscador.trace List.In].
  - intros [<-|[]]. exact Hinv.
  - intros [<-|Hin]; [exact Hinv|].
    destruct (body query st0) as [st'|r|e] eqn:Hbody; try destruct Hin.
    eapply (IH st'); [eapply repeats_continue; eauto|exact Hin].
Qed.


(** *** A model that answers with text before any tool has run *)

Lemma text_only_iterate (query plan : string) (remaining : nat) (n : nat) :
  (forall n, exists text, act_for gateway n query plan [] = TextResponse text) ->
  n + remaining = max_iterations ->
  iterate remaining query (mkState n [] (Some plan)) =
  Ok (_fallback_response query [] (Some plan)).
Proof.
  intros Htext. revert n. induction remaining as [|k IH]; intros n Hbudget;
    cbn [AgenteBuscador.iterate]; [reflexivity|].
  unfold AgenteBuscador.body, AgenteBuscador.plan_phase. cbn.
  destruct (Htext n) as [text ->]. cbn. apply IH. lia.
Qed.

Lemma text_only_trace (query plan : string) (remaining : nat) (n : nat) :
  (forall n, exists text, act_for gateway n query plan [] = TextResponse text) ->
  length (trace remaining query (mkState n [] (Some plan))) = S remaining.
Proof.
  intros Htext. revert n. induction remaining as [|k IH]; intros n;
    cbn [AgenteBuscador.trace]; [reflexivity|].
  unfold AgenteBuscador.body, AgenteBuscador.plan_phase. cbn.
  destruct (Htext n) as [text ->]. cbn. rewrite IH. reflexivity.
Qed.

(** X3.  Text the model answers with while the history is empty is thrown
    away: if the model answers every action prompt with text, [run] goes
    through all its [max_iterations] iterations, records nothing, and
    returns the fallback response (error [max_iterations_reached]) with the
    plan of the first iteration and no observations. *)
Theorem text_before_any_tool_is_dropped (query plan : string) :
  0 < max_iterations ->
  _generate_plan 0 query [] = Ok plan ->
  (forall n, exists text, act_for gateway n query plan [] = TextResponse text) ->
  run query = Ok (_fallback_response query [] (Some plan)) /\
  length (trace max_iterations query initial) = S max_iterations.
Proof.
  intros Hpos Hplan Htext.
  unfold AgenteBuscador.run. destruct max_iterations as [|k] eqn:Hmax; [lia|].
  cbn [AgenteBuscador.iterate AgenteBuscador.trace].
  unfold AgenteBuscador.body, AgenteBuscador.plan_phase. cbn. rewrite Hplan.
  destruct (Htext 0) as [text ->]. cbn. split.
  - rewrite <- Hmax. apply text_only_iterate; [exact Htext|lia].
  - rewrite text_only_trace by exact Htext. reflexivity.
Qed.

(** *** The finish tool *)

(** X4.  At every iteration the run reaches, a call of [finish] whose
    result comes from [FinishTool.execute] ends the run with the summary
    given to the tool as the content, the sources given ([[]] when there
    are none) and the confidence given ([medium] by default); the
    [KeyError] for a result without summary cannot happen. *)
Theorem finish_tool_ends_run (query : string) (st : State) (plan summary : string)
        (arguments : gmap string ArgVal) (sources : option (list string))
        (confidence : option string) :
  List.In st (trace max_iterations query initial) ->
  plan_phase query st = Ok plan ->
  act_for gateway (iteration st) query plan (observations st)
  = ToolCall finish arguments
      (finish_output (FinishTool.execute summary sources confidence)) ->
  body query st =
  Return (mkAgentResponse summary
            (mkResponseMetadata (Some plan)
               (observations st ++
                [mkObservation (iteration st + 1) finish arguments
                   (finish_output (FinishTool.execute summary sources confidence))])
               (iteration st + 1) None None
               (Some (default [] sources)) (Some (default "medium" confidence)) None)).
Proof.
  intros Hreach Hplan Hact.
  assert (Hinv : no_finish st).
  { eapply trace_no_finish; [|exact Hreach]. constructor. }
  unfold AgenteBuscador.body. rewrite Hplan, Hact. cbv zeta.
  rewrite detect_loop_snoc, finish_signature_is_new by (exact Hinv || reflexivity).
  cbn. destruct sources, confidence; reflexivity.
Qed.

(** *** When the plan changes *)

Lemma body_plan (query : string) (st st' : State) :
  body query st = Continue st' ->
  exists plan, plan_phase query st = Ok plan /\ current_plan st' = Some plan.
Proof.
  unfold AgenteBuscador.body.
  destruct (plan_phase query st) as [plan|e]; [|discriminate].
  destruct (act_for gateway _ _ _ _) as [text|t arguments result|msg]; [| |discriminate].
  - unfold text_outcome. destruct (observations st).
    + intros [= <-]. eauto.
    + destruct (Py.truthy_str _); discriminate.
  - cbv zeta. destruct (_detect_loop _ _) as [[|]|]; try discriminate.
    destruct (is_finish t).
    + unfold finish_response. destruct (out_summary result); discriminate.
    + intros [= <-]. eauto.
Qed.


(** *** What makes a run raise *)

Lemma body_raised (query : string) (st : State) (e : Exn) :
  body query st = Raised e ->
  (exists msg, e = RuntimeError msg /\
     (plan_for gateway (iteration st) query (observations st) = PlanError msg \/
      exists plan, act_for gateway (iteration st) query plan (observations st)
                   = ActionError msg)) \/
  (e = KeyError "summary" /\
   exists plan arguments result,
     act_for gateway (iteration st) query plan (observations st)
     = ToolCall finish arguments result /\ out_summary result = None).
Proof.
  unfold AgenteBuscador.body.
  destruct (plan_phase query st) as [plan|e'] eqn:Hplan.
  - destruct (act_for gateway _ _ _ _) as [text|t arguments result|msg] eqn:Hact.
    + unfold text_outcome. destruct (observations st); [discriminate|].
      destruct (Py.truthy_str _); discriminate.
    + cbv zeta. rewrite detect_loop_snoc. destruct (_ <=? _); [discriminate|].
      destruct t; cbn [is_finish]; try discriminate.
      unfold finish_response. destruct (out_summary result) eqn:Hsum; [discriminate|].
      intros [= <-]. right. split; [reflexivity|]. eauto.
    + intros [= <-]. left. eauto.
  - intros [= <-]. left.
    assert (Hgen : _generate_plan (iteration st) query (observations st) = Raise e').
    { unfold AgenteBuscador.plan_phase in Hplan.
      destruct (current_plan st); [|exact Hplan].
      destruct (_should_replan _); [exact Hplan|discriminate]. }
    unfold AgenteBuscador._generate_plan in Hgen.
    destruct (plan_for gateway _ _ _) as [?| |msg] eqn:Hp; try discriminate.
    injection Hgen as <-. eauto.
Qed.


End Loop.

(** *** The theorems at work *)

Lemma run_stays_within_budget_witness :
  exists r,
    run plain_repr no_summary stubborn 10 "afiliados" = Ok r /\
    md_iterations (metadata r) <= 10 /\
    length (md_observations (metadata r)) <= md_iterations (metadata r) /\
    (0 < 10 -> 1 <= md_iterations (metadata r)).
Proof.
  eexists. split; [reflexivity|].
  apply (run_stays_within_budget plain_repr no_summary stubborn 10 "afiliados").
  reflexivity.
Defined.


Lemma text_before_any_tool_is_dropped_witness :
  run plain_repr no_summary BuscadorSamples.chatty 10 "hola" =
  Ok (_fallback_response 10 "hola" [] (Some "1. responder")) /\
  length (trace plain_repr no_summary BuscadorSamples.chatty 10 "hola" initial) = 11.
Proof.
  apply (text_before_any_tool_is_dropped plain_repr no_summary BuscadorSamples.chatty
           10 "hola" "1. responder").
  - lia.
  - reflexivity.
  - intros n. eexists. reflexivity.
Defined.

Lemma finish_tool_ends_run_witness :
  body plain_repr no_summary hesitant "afiliados" hesitated =
  Return (mkAgentResponse "listo"
            (mkResponseMetadata (Some "1. terminar")
               (observations hesitated ++
                [mkObservation (iteration hesitated + 1) finish ∅
                   (finish_output (FinishTool.execute "listo" None None))])
               (iteration hesitated + 1) None None
               (Some (default [] None)) (Some (default "medium" None)) None)).
Proof.
  apply (finish_tool_ends_run plain_repr no_summary hesitant 10 "afiliados" hesitated
           "1. terminar" "listo" ∅ None None).
  - right. left. reflexivity.
  - reflexivity.
  - reflexivity.
Defined.



End BuscadorMore.


(** ** The structured-query tool: what normalisation changes, what reaches
    the database *)

Module SQLMore.

Import SQLQueryTool StringFacts SQLFacts.

(** *** Normalisation *)

Lemma dots_removed_undotted s t :
  dots_removed s t -> Py.remove_char "." t = Py.remove_char "." s.
Proof.
  induction 1 as [|c s t _ IH|s t _ _ IH]; [reflexivity| |].
  - cbn [Py.remove_char]. rewrite IH. reflexivity.
  - cbn [Py.remove_char]. exact IH.
Qed.

Lemma dots_removed_length s t :
  dots_removed s t -> String.length t <= String.length s.
Proof.
  induction 1 as [|c s t _ IH|s t _ _ IH]; cbn [String.length]; lia.
Qed.

Lemma dots_removed_dotless s t :
  dots_removed s t -> Py.remove_char "." s = s -> t = s.
Proof.
  induction 1 as [|c s t _ IH|s t _ _ IH]; [reflexivity| |].
  - cbn [Py.remove_char]. destruct (Ascii.eqb c "."); intros H.
    + pose proof (f_equal String.length H) as Hlen. cbn [String.length] in Hlen.
      assert (Hle : forall u, String.length (Py.remove_char "." u) <= String.length u).
      { induction u as [|x u IHu]; cbn [Py.remove_char]; [lia|].
        destruct (Ascii.eqb x "."); cbn [String.length]; lia. }
      specialize (Hle s). lia.
    + injection H as H. rewrite (IH H). reflexivity.
  - cbn. intros H.
    pose proof (f_equal String.length H) as Hlen. cbn [String.length] in Hlen.
    assert (Hle : forall u, String.length (Py.remove_char "." u) <= String.length u).
    { induction u as [|x u IHu]; cbn [Py.remove_char]; [lia|].
      destruct (Ascii.eqb x "."); cbn [String.length]; lia. }
    specialize (Hle s). lia.
Qed.

(** X7.  Normalisation takes dots out and changes nothing else: the
    normalised query and the query are the same text once all dots are
    removed, the normalised query is never longer, a query without dots or
    without quotes comes back as it is, and the validator gives the query
    and its normalised form the same verdict and message. *)
Theorem normalisation_only_removes_dots (query : string) :
  Py.remove_char "." (_normalize_ruts_in_query query) = Py.remove_char "." query /\
  String.length (_normalize_ruts_in_query query) <= String.length query /\
  (Py.remove_char "." query = query -> _normalize_ruts_in_query query = query) /\
  (quote_free query = true -> _normalize_ruts_in_query query = query) /\
  validate (_normalize_ruts_in_query query) = validate query.
Proof.
  pose proof (normalize_removes_dots query) as H.
  split; [apply dots_removed_undotted, H|].
  split; [apply dots_removed_length, H|].
  split; [apply dots_removed_dotless, H|].
  split; [|apply validate_normalized].
  clear H. intros Hq. induction query as [|c s IH]; [reflexivity|].
  cbn [quote_free] in Hq. apply andb_true_iff in Hq. destruct Hq as [Hc Hs].
  rewrite normalize_no_match.
  - rewrite (IH Hs). reflexivity.
  - unfold match_rut, lit, one. apply negb_true_iff in Hc.
    rewrite Ascii.eqb_sym, Hc. reflexivity.
Qed.

(** *** Texts that end in semicolons *)

Lemma rstrip_char_split x q :
  exists t, q = Py.rstrip_char x q +:+ t /\ Py.remove_char x t = "".
Proof.
  induction q as [|c q (t & Hq & Ht)].
  - exists "". split; reflexivity.
  - cbn [Py.rstrip_char]. destruct (Py.rstrip_char x q) as [|r rs] eqn:Hr.
    + destruct (Ascii.eqb c x) eqn:Hc.
      * exists (String c q). split; [reflexivity|].
        cbn [Py.remove_char]. rewrite Hc. rewrite Hq, append_nil_l. exact Ht.
      * exists t. split; [|exact Ht]. rewrite append_cons, append_nil_l.
        rewrite Hq at 1. rewrite append_nil_l. reflexivity.
    + exists t. split; [|exact Ht]. rewrite append_cons. f_equal. exact Hq.
Qed.

Lemma upper_append a b : Py.upper (a +:+ b) = Py.upper a +:+ Py.upper b.
Proof.
  induction a as [|c a IH]; [reflexivity|].
  rewrite append_cons. cbn [Py.upper]. rewrite IH, append_cons. reflexivity.
Qed.

Lemma lower_append a b : Py.lower (a +:+ b) = Py.lower a +:+ Py.lower b.
Proof.
  induction a as [|c a IH]; [reflexivity|].
  rewrite append_cons. cbn [Py.lower]. rewrite IH, append_cons. reflexivity.
Qed.

Lemma only_semicolons_head c t :
  Py.remove_char ";" (String c t) = "" -> c = ";"%char /\ Py.remove_char ";" t = "".
Proof.
  cbn [Py.remove_char]. destruct (Ascii.eqb_spec c ";"); [auto|discriminate].
Qed.

Lemma only_semicolons_upper t : Py.remove_char ";" t = "" -> Py.upper t = t.
Proof.
  induction t as [|c t IH]; [reflexivity|]. intros H.
  apply only_semicolons_head in H. destruct H as [-> H].
  cbn [Py.upper]. rewrite (IH H). reflexivity.
Qed.

Lemma only_semicolons_lower t : Py.remove_char ";" t = "" -> Py.lower t = t.
Proof.
  induction t as [|c t IH]; [reflexivity|]. intros H.
  apply only_semicolons_head in H. destruct H as [-> H].
  cbn [Py.lower]. rewrite (IH H). reflexivity.
Qed.

(** A word without a semicolon that starts [a] followed by semicolons
    starts [a]. *)
Lemma startswith_before_semicolons w : forall a t,
  Py.remove_char ";" w = w -> Py.remove_char ";" t = "" ->
  Py.startswith (a +:+ t) w = true -> Py.startswith a w = true.
Proof.
  induction w as [|x w IH]; intros a t Hw Ht; [reflexivity|].
  cbn [Py.remove_char] in Hw. destruct (Ascii.eqb_spec x ";") as [->|Hx].
  - exfalso. pose proof (f_equal String.length Hw) as Hlen.
    cbn [String.length] in Hlen.
    assert (Hle : forall u, String.length (Py.remove_char ";" u) <= String.length u).
    { induction u as [|y u IHu]; cbn [Py.remove_char]; [lia|].
      destruct (Ascii.eqb y ";"); cbn [String.length]; lia. }
    specialize (Hle w). lia.
  - injection Hw as Hw. destruct a as [|c a].
    + rewrite append_nil_l. destruct t as [|c t]; [discriminate|].
      apply only_semicolons_head in Ht. destruct Ht as [-> _].
      cbn [Py.startswith]. intros H. apply andb_true_iff in H. destruct H as [H _].
      apply Ascii.eqb_eq in H. congruence.
    + rewrite append_cons. cbn [Py.startswith]. intros H.
      apply andb_true_iff in H. destruct H as [-> H]. cbn [andb].
      apply (IH a t Hw Ht H).
Qed.

Lemma contains_startswith w s : Py.startswith s w = true -> Py.contains w s = true.
Proof. intros H. rewrite contains_unfold, H. reflexivity. Qed.

Lemma contains_append_r w a b : Py.contains w a = true -> Py.contains w (a +:+ b) = true.
Proof.
  induction a as [|c a IH].
  - destruct w as [|x w]; [intros _; destruct b; reflexivity|discriminate].
  - rewrite append_cons, (contains_unfold w (String c a)),
      (contains_unfold w (String c (a +:+ b))).
    intros H. apply orb_true_iff in H. destruct H as [H|H].
    + rewrite <- append_cons, (startswith_append _ _ _ H). reflexivity.
    + rewrite (IH H). apply orb_true_r.
Qed.

Lemma contains_append_l w a b : Py.contains w b = true -> Py.contains w (a +:+ b) = true.
Proof.
  intros H. induction a as [|c a IH]; [exact H|].
  rewrite append_cons, contains_unfold, IH. apply orb_true_r.
Qed.

Lemma contains_before_semicolons w a t :
  w <> "" -> Py.remove_char ";" w = w -> Py.remove_char ";" t = "" ->
  Py.contains w (a +:+ t) = true -> Py.contains w a = true.
Proof.
  intros Hne Hw Ht. induction a as [|c a IH].
  - rewrite append_nil_l. intros H. exfalso.
    clear -Hne Hw Ht H. induction t as [|c t IH]; [destruct w; [congruence|discriminate]|].
    pose proof Ht as Ht0. apply only_semicolons_head in Ht. destruct Ht as [-> Ht].
    rewrite contains_unfold in H. apply orb_true_iff in H. destruct H as [H|H].
    + assert (H' : Py.startswith ("" +:+ String ";" t) w = true) by exact H.
      apply (startswith_before_semicolons w "" _ Hw Ht0) in H'.
      destruct w; [congruence|discriminate].
    + apply (IH Ht H).
  - rewrite append_cons, (contains_unfold w (String c (a +:+ t))),
      (contains_unfold w (String c a)).
    intros H. apply orb_true_iff in H. destruct H as [H|H].
    + rewrite <- append_cons in H.
      rewrite (startswith_before_semicolons w _ t Hw Ht H). reflexivity.
    + rewrite (IH H). apply orb_true_r.
Qed.

(** A word without white space that starts [a], a space and [b], starts
    [a]; so it occurs in [a], a space and [b] only if it occurs in [a] or
    in [b]. *)
Lemma startswith_before_space w : forall a b,
  plain_word w = true ->
  Py.startswith (a +:+ String " " b) w = true -> Py.startswith a w = true.
Proof.
  induction w as [|x w IH]; intros a b Hw; [reflexivity|].
  destruct (plain_word_cons _ _ Hw) as (_ & _ & Hsp & Hw').
  destruct a as [|c a].
  - rewrite append_nil_l. cbn [Py.startswith]. intros H.
    apply andb_true_iff in H. destruct H as [H _]. apply Ascii.eqb_eq in H.
    subst x. discriminate.
  - rewrite append_cons. cbn [Py.startswith]. intros H.
    apply andb_true_iff in H. destruct H as [-> H]. cbn [andb].
    apply (IH a b Hw' H).
Qed.

Lemma contains_across_space w a b :
  plain_word w = true -> w <> "" ->
  Py.contains w a = false -> Py.contains w b = false ->
  Py.contains w (a +:+ String " " b) = false.
Proof.
  intros Hw Hne Ha Hb. induction a as [|c a IH].
  - rewrite append_nil_l, contains_unfold, Hb, orb_false_r.
    destruct w as [|x w]; [congruence|].
    destruct (plain_word_cons _ _ Hw) as (_ & _ & Hsp & _).
    cbn [Py.startswith]. destruct (Ascii.eqb_spec " " x) as [<-|]; [discriminate|reflexivity].
  - rewrite (contains_unfold w (String c a)) in Ha.
    apply orb_false_iff in Ha. destruct Ha as [Hst Ha].
    rewrite append_cons, contains_unfold, (IH Ha), orb_false_r.
    rewrite <- append_cons.
    destruct (Py.startswith (String c a +:+ String " " b) w) eqn:H; [|reflexivity].
    apply (startswith_before_space w _ _ Hw) in H.
    pose proof (eq_trans (eq_sym H) Hst) as X. discriminate X.
Qed.

Lemma contains_false_prefix w a t :
  Py.contains w (a +:+ t) = false -> Py.contains w a = false.
Proof.
  intros H. destruct (Py.contains w a) eqn:Ha; [|reflexivity].
  rewrite (contains_append_r w a t Ha) in H. discriminate.
Qed.

Lemma keywords_not_in_limit keyword :
  List.In keyword FORBIDDEN_SQL_KEYWORDS ->
  Py.contains keyword "LIMIT 100" = false /\ Py.remove_char ";" keyword = keyword.
Proof.
  unfold FORBIDDEN_SQL_KEYWORDS. cbn [List.In].
  intros H. repeat (destruct H as [<-|H]; [split; reflexivity|]).
  destruct H.
Qed.

Lemma tables_without_semicolon table :
  List.In table ALLOWED_TABLES -> Py.remove_char ";" table = table.
Proof.
  unfold ALLOWED_TABLES. cbn [List.In].
  intros H. repeat (destruct H as [<-|H]; [reflexivity|]).
  destruct H.
Qed.

Lemma lstrip_append a b :
  Py.lstrip a <> "" -> Py.lstrip (a +:+ b) = Py.lstrip a +:+ b.
Proof.
  induction a as [|c a IH]; [intros H; exfalso; apply H; reflexivity|].
  rewrite append_cons. cbn [Py.lstrip]. destruct (Py.is_space c); [exact IH|].
  intros _. rewrite append_cons. reflexivity.
Qed.

Lemma lstrip_blank a b : Py.lstrip a = "" -> Py.lstrip (a +:+ b) = Py.lstrip b.
Proof.
  induction a as [|c a IH]; [reflexivity|].
  rewrite append_cons. cbn [Py.lstrip]. destruct (Py.is_space c); [exact IH|discriminate].
Qed.

(** The row limit does not undo validation. *)
Lemma with_limit_accepted query :
  validate query = (true, "OK") -> validate (with_limit query) = (true, "OK").
Proof.
  intros Hv. unfold with_limit.
  destruct (Py.contains "LIMIT" (Py.upper query)); [exact Hv|]. cbn [negb].
  apply validate_accepted in Hv. destruct Hv as (Hsel & Hkw & table & Hin & Htab).
  apply validate_accepted.
  destruct (rstrip_char_split ";" query) as (t & Hq & Ht).
  set (q' := Py.rstrip_char ";" query) in *.
  change (" LIMIT " +:+ Py.str_of_nat MAX_SQL_ROWS) with (String " " "LIMIT 100").
  split; [|split].
  - unfold Py.strip in *. rewrite startswith_rstrip in * by reflexivity.
    rewrite Hq, upper_append, (only_semicolons_upper t Ht) in Hsel.
    rewrite upper_append.
    assert (Hne : Py.lstrip (Py.upper q') <> "").
    { intros He. rewrite (lstrip_blank _ t He) in Hsel.
      destruct t as [|c t]; [discriminate|].
      apply only_semicolons_head in Ht. destruct Ht as [-> _]. discriminate. }
    rewrite lstrip_append in Hsel |- * by exact Hne.
    apply startswith_append.
    apply (startswith_before_semicolons "SELECT" _ t); [reflexivity|exact Ht|exact Hsel].
  - intros keyword Hk. specialize (Hkw keyword Hk).
    destruct (keywords_plain _ Hk) as [Hw Hne].
    destruct (keywords_not_in_limit _ Hk) as [Hlim _].
    rewrite contains_strip in * by assumption.
    rewrite upper_append. change (Py.upper (String " " "LIMIT 100"))
      with (String " " "LIMIT 100").
    apply contains_across_space; [assumption..| |exact Hlim].
    rewrite Hq, upper_append in Hkw. apply (contains_false_prefix _ _ _ Hkw).
  - exists table. split; [exact Hin|].
    destruct (tables_plain _ Hin) as [Hw Hne].
    rewrite lower_append. apply contains_append_r.
    rewrite Hq, lower_append, (only_semicolons_lower t Ht) in Htab.
    apply (contains_before_semicolons table _ t);
      [exact Hne|apply tables_without_semicolon, Hin|exact Ht|exact Htab].
Qed.

Lemma with_limit_has_limit query :
  Py.contains "LIMIT" (Py.upper (with_limit query)) = true.
Proof.
  unfold with_limit. destruct (Py.contains "LIMIT" (Py.upper query)) eqn:H; [exact H|].
  cbn [negb]. rewrite upper_append. apply contains_append_l. reflexivity.
Qed.


Lemma normalisation_only_removes_dots_witness :
  _normalize_ruts_in_query "SELECT rut FROM afiliados WHERE rut = '12345678-9'" =
  "SELECT rut FROM afiliados WHERE rut = '12345678-9'" /\
  _normalize_ruts_in_query "SELECT a.rut FROM afiliados a" =
  "SELECT a.rut FROM afiliados a".
Proof.
  split.
  - destruct (normalisation_only_removes_dots
                "SELECT rut FROM afiliados WHERE rut = '12345678-9'")
      as (_ & _ & Hdotless & _ & _).
    apply Hdotless. reflexivity.
  - destruct (normalisation_only_removes_dots "SELECT a.rut FROM afiliados a")
      as (_ & _ & _ & Hquotes & _).
    apply Hquotes. reflexivity.
Defined.

End SQLMore.


(** ** Retrieval: evaluations, ranking, the phases and the index files *)

Module RetrievalMore.

Import AgentRAGIndexer ChunkEvaluator AgentRetrieval StringFacts RetrievalFacts.
Import RetrievalSamples.

(** *** Evaluations *)

Lemma obj_get_set_same key v fields : obj_get key (obj_set key v fields) = Some v.
Proof.
  induction fields as [|[k v0] rest IH]; cbn.
  - rewrite String.eqb_refl. reflexivity.
  - destruct (String.eqb k key) eqn:Hk; cbn; rewrite Hk; [reflexivity|exact IH].
Qed.

Lemma obj_get_set_other key key' v fields :
  key' <> key -> obj_get key' (obj_set key v fields) = obj_get key' fields.
Proof.
  intros Hne. induction fields as [|[k v0] rest IH]; cbn.
  - destruct (String.eqb_spec key key'); [congruence|reflexivity].
  - destruct (String.eqb_spec k key) as [->|Hk]; cbn.
    + destruct (String.eqb_spec key key'); [congruence|reflexivity].
    + destruct (String.eqb k key'); [reflexivity|exact IH].
Qed.

(** X9.  [evaluate_relevance] always returns an evaluation that carries
    the id of the document it was asked about, whatever the model answers
    (an id the model puts in its answer is overwritten), and leaves every
    other field of a parsed answer as the model gave it. *)
Theorem evaluation_carries_document_id (w : World) (n : nat) (query : string)
        (document : Document) :
  obj_get "document_id" (evaluate_relevance w n query document)
  = Some (JStr (doc_id document)) /\
  (forall response fields key,
     generate w n (_build_evaluation_prompt query (doc_content document)
                     (doc_metadata document)) = GenText response ->
     _parse_json_response w response = JObj fields ->
     key <> "document_id" ->
     obj_get key (evaluate_relevance w n query document) = obj_get key fields).
Proof.
  unfold evaluate_relevance. split.
  - destruct (generate w n _) as [msg|response|]; try reflexivity.
    destruct (_parse_json_response w response); try reflexivity.
    apply obj_get_set_same.
  - intros response fields key -> -> Hne. apply obj_get_set_other, Hne.
Qed.

(** *** One answer without a score *)

Lemma score_documents_missing w query key : forall documents n i document,
  documents !! i = Some document ->
  List.In key ["relevance_score"; "reasoning"; "relevant_sections"] ->
  obj_get key (evaluate_relevance w (n + i) query document) = None ->
  exists key', score_documents w n query documents = Raise (KeyError key').
Proof.
  induction documents as [|d rest IH]; intros n i document Hi Hkey Hmiss; [discriminate|].
  cbn [score_documents].
  destruct (score_document d (evaluate_relevance w n query d)) as [sd|e] eqn:Hd.
  - cbn [rbind]. destruct i as [|i].
    + exfalso. injection Hi as ->. rewrite Nat.add_0_r in Hmiss.
      unfold score_document, obj_item in Hd.
      destruct Hkey as [<-|[<-|[<-|[]]]]; rewrite Hmiss in Hd;
        repeat (cbn [rbind] in Hd;
                match type of Hd with
                | context [match ?x with _ => _ end] => destruct x
                end); discriminate.
    + destruct (IH (S n) i document Hi Hkey) as [key' Hr].
      { replace (S n + i) with (n + S i) by lia. exact Hmiss. }
      rewrite Hr. exists key'. reflexivity.
  - cbn [rbind]. unfold score_document, obj_item in Hd.
    repeat match type of Hd with
           | context [match ?x with _ => _ end] =>
               destruct x; cbn [rbind] in Hd; try discriminate
           end; injection Hd as <-; eauto.
Qed.

(** X10.  One answer without a score fails the whole retrieval: if the
    answer of the model about some document parses to a JSON object without
    [relevance_score] (or without [reasoning] or [relevant_sections]),
    [retrieve] raises [KeyError], whatever [k] is and whatever the other
    documents are. *)
Theorem one_answer_without_score_fails_retrieval (w : World) (query : string) (k : Z)
        (documents : list Document) (i : nat) (document : Document)
        (response : string) (fields : list (string * json)) (key : string) :
  documents !! i = Some document ->
  generate w i (_build_evaluation_prompt query (doc_content document)
                  (doc_metadata document)) = GenText response ->
  _parse_json_response w response = JObj fields ->
  List.In key ["relevance_score"; "reasoning"; "relevant_sections"] ->
  obj_get key fields = None ->
  exists key', retrieve w query k (Ok documents) = Raise (KeyError key').
Proof.
  intros Hi Hgen Hparse Hkey Hmiss.
  destruct (score_documents_missing w query key documents 0 i document Hi Hkey)
    as [key' Hr].
  - cbn [Nat.add]. unfold evaluate_relevance. rewrite Hgen, Hparse.
    rewrite obj_get_set_other; [exact Hmiss|].
    destruct Hkey as [<-|[<-|[<-|[]]]]; discriminate.
  - exists key'. unfold retrieve. cbn [rbind]. rewrite Hr. reflexivity.
Qed.

(** *** The k best *)

Lemma score_documents_inv w query : forall documents n raw,
  score_documents w n query documents = Ok raw ->
  length raw = length documents /\
  forall i document d, documents !! i = Some document -> raw !! i = Some d ->
    rs_content d = doc_content document /\
    obj_get "relevance_score" (evaluate_relevance w (n + i) query document)
    = Some (rs_score d).
Proof.
  induction documents as [|doc rest IH]; intros n raw; cbn [score_documents].
  - intros [= <-]. split; [reflexivity|]. intros i ? ? Hi. discriminate.
  - destruct (score_document doc (evaluate_relevance w n query doc)) as [sd|e] eqn:Hd;
      [|discriminate]. cbn [rbind].
    destruct (score_documents w (S n) query rest) as [raw'|e] eqn:Hrest; [|discriminate].
    cbn [rbind]. intros [= <-]. destruct (IH (S n) raw' Hrest) as [Hlen Hall].
    split; [cbn; lia|]. intros [|i] document d; cbn.
    + intros [= <-] [= <-]. rewrite Nat.add_0_r.
      unfold score_document, obj_item in Hd.
      destruct (obj_get "relevance_score" _) as [s|]; [|discriminate]. cbn [rbind] in Hd.
      destruct (obj_get "reasoning" _); [|discriminate]. cbn [rbind] in Hd.
      destruct (obj_get "relevant_sections" _); [|discriminate]. cbn [rbind] in Hd.
      injection Hd as <-. split; reflexivity.
    + intros Hi Hr. replace (n + S i) with (S n + i) by lia. apply Hall; assumption.
Qed.

Lemma numeric_scores_inv : forall raw scored,
  numeric_scores raw = Ok scored ->
  length scored = length raw /\
  forall i d s, raw !! i = Some d -> scored !! i = Some s ->
    sc_content s = rs_content d /\ as_number (rs_score d) = Ok (sc_score s).
Proof.
  induction raw as [|d rest IH]; intros scored; cbn [numeric_scores].
  - intros [= <-]. split; [reflexivity|]. intros i ? ? Hi. discriminate.
  - destruct (as_number (rs_score d)) as [q|e] eqn:Hq; [|discriminate]. cbn [rbind].
    destruct (numeric_scores rest) as [scored'|e] eqn:Hrest; [|discriminate].
    cbn [rbind]. intros [= <-]. destruct (IH scored' eq_refl) as [Hlen Hall].
    split; [cbn; lia|]. intros [|i] d' s; cbn.
    + intros [= <-] [= <-]. split; [reflexivity|exact Hq].
    + apply Hall.
Qed.

Lemma insert_desc_perm d l : insert_desc d l ≡ₚ d :: l.
Proof.
  induction l as [|e rest IH]; cbn; [reflexivity|].
  destruct (Qltb _ _); [|reflexivity].
  rewrite IH. apply perm_swap.
Qed.

Lemma sort_desc_perm l : sort_desc l ≡ₚ l.
Proof.
  induction l as [|d rest IH]; cbn; [reflexivity|].
  rewrite insert_desc_perm, IH. reflexivity.
Qed.


(** *** How many chunks *)

Lemma retrieve_length w query k documents result :
  retrieve w query k (Ok documents) = Ok result ->
  method result = "agent_rag" /\
  length (chunks result) =
  if (0 <=? k)%Z then Nat.min (Z.to_nat k) (length documents)
  else length documents - Z.to_nat (- k).
Proof.
  unfold retrieve. cbn [rbind].
  destruct (score_documents w 0 query documents) as [raw|e] eqn:Hraw; [|discriminate].
  cbn [rbind].
  destruct (numeric_scores raw) as [scored|e] eqn:Hscored; [|discriminate].
  cbn [rbind]. intros [= <-]. cbn [chunks method]. split; [reflexivity|].
  destruct (score_documents_inv _ _ _ _ _ Hraw) as [Hlen1 _].
  destruct (numeric_scores_inv _ _ Hscored) as [Hlen2 _].
  rewrite length_map. unfold slice_to.
  destruct (0 <=? k)%Z; rewrite length_take, sort_desc_length; lia.
Qed.


(** *** Phase 1 *)

Lemma select_documents_known indices reason : forall ids l,
  select_documents indices reason ids = Some l ->
  Forall (fun item => indices !! item.1.1 = Some item.1.2) l.
Proof.
  induction ids as [|id rest IH]; intros l; cbn [select_documents].
  - intros [= <-]. constructor.
  - destruct id as [ |b|q|doc_id|items|fields]; try discriminate; try apply IH.
    destruct (select_documents indices reason rest) as [tail|]; [|discriminate].
    cbn. destruct (indices !! doc_id) as [index|] eqn:Hidx; intros [= <-].
    + constructor; [exact Hidx|apply IH; reflexivity].
    + apply IH. reflexivity.
Qed.

(** X13.  Phase 1 returns only documents that have an index: every
    document it returns is a key of the loaded indices and comes with the
    index stored under that key, so an id the model makes up is dropped.
    It asks the model at most once. *)
Theorem phase1_returns_indexed_documents (w : IndexWorld) (query : string)
        (indices : gmap string IndexData) :
  Forall (fun item => indices !! item.1.1 = Some item.1.2)
         (fst (_filter_relevant_documents w query indices)) /\
  length (snd (_filter_relevant_documents w query indices)) <= 1.
Proof.
  unfold _filter_relevant_documents.
  destruct (decide (indices = ∅)); [split; [constructor|cbn; lia]|].
  unfold lbind, log, lret.
  destruct (chat w _) as [msg|content|]; try (split; [constructor|cbn; lia]).
  destruct (clean_markdown _) as [response_text|e]; try (split; [constructor|cbn; lia]).
  destruct (loads w response_text) as [result|]; try (split; [constructor|cbn; lia]).
  split; [|cbn; lia]. cbn [fst].
  unfold relevant_documents_of. destruct result; try constructor.
  destruct (match obj_get "relevant_documents" fields with
            | Some (JStr s) => _ | Some (JArr ids) => _ | Some (JObj kvs) => _
            | Some _ => _ | None => _ end) as [ids|]; [|constructor].
  cbn. destruct (select_documents indices _ ids) as [l|] eqn:Hsel; [|constructor].
  cbn. eapply select_documents_known, Hsel.
Qed.

(** *** The index files *)

Lemma load_entries_sound (entries : list (string * FileContent)) id data :
  foldr load_one ∅ entries !! id = Some data ->
  exists name, (name, JsonFile data) ∈ entries /\ glob_index_json name = true /\
               id = default (stem name) (d_document_id data).
Proof.
  induction entries as [|[name file] rest IH]; cbn [foldr].
  - rewrite lookup_empty. discriminate.
  - unfold load_one at 1. destruct (glob_index_json name) eqn:Hglob.
    + destruct file as [index_data|].
      * rewrite lookup_insert_Some. intros [[<- <-]|[_ H]].
        -- exists name. split; [left|split; [exact Hglob|reflexivity]].
        -- destruct (IH H) as (name' & Hin & Hrest). exists name'.
           split; [right; exact Hin|exact Hrest].
      * intros H. destruct (IH H) as (name' & Hin & Hrest). exists name'.
        split; [right; exact Hin|exact Hrest].
    + intros H. destruct (IH H) as (name' & Hin & Hrest). exists name'.
      split; [right; exact Hin|exact Hrest].
Qed.

Lemma load_entries_complete (entries : list (string * FileContent)) name data :
  (name, JsonFile data) ∈ entries -> glob_index_json name = true ->
  is_Some (foldr load_one ∅ entries !! default (stem name) (d_document_id data)).
Proof.
  intros Hin Hglob. induction entries as [|[name' file] rest IH]; cbn [foldr].
  - inversion Hin.
  - apply elem_of_cons in Hin. destruct Hin as [[= <- <-]|Hin].
    + unfold load_one at 1. rewrite Hglob. apply lookup_insert_is_Some. left. reflexivity.
    + specialize (IH Hin). unfold load_one at 1.
      destruct (glob_index_json name'); [|exact IH].
      destruct file as [index_data|]; [|exact IH].
      apply lookup_insert_is_Some'. right. exact IH.
Qed.



(** *** How often the index-guided path asks the model *)

Lemma filter_sections_log w query document_index :
  snd (_filter_relevant_sections w query document_index) = [] \/
  exists p, snd (_filter_relevant_sections w query document_index) = [Phase2Call p].
Proof.
  unfold _filter_relevant_sections. cbv zeta.
  destruct (d_sections document_index); [left; reflexivity|]. right.
  unfold lbind, log, lret. eexists.
  destruct (chat w _) as [msg|content|]; try reflexivity.
  destruct (clean_markdown _) as [response_text|e]; try reflexivity.
  destruct (loads w response_text) as [[]|]; reflexivity.
Qed.

Lemma lbind_snd {A B : Type} (m : Logged A) (k : A -> Logged B) :
  snd (lbind m k) = snd m ++ snd (k (fst m)).
Proof. unfold lbind. destruct m as [a l1]. cbn [fst snd]. destruct (k a). reflexivity. Qed.

Lemma collect_sections_log w query : forall relevant_docs,
  length (List.filter is_model_call (snd (collect_sections w query relevant_docs)))
  <= length relevant_docs /\
  Forall (fun e => match e with Phase2Call _ | Phase3Load _ _ => True | _ => False end)
         (snd (collect_sections w query relevant_docs)).
Proof.
  induction relevant_docs as [|[[doc_id doc_index] reason] rest [IHn IHs]];
    cbn [collect_sections]; [split; [cbn; lia|constructor]|].
  rewrite lbind_snd.
  assert (Hn : length (List.filter is_model_call
                         (snd (_filter_relevant_sections w query doc_index))) <= 1 /\
               Forall (fun e => match e with
                                | Phase2Call _ | Phase3Load _ _ => True
                                | _ => False end)
                      (snd (_filter_relevant_sections w query doc_index))).
  { destruct (filter_sections_log w query doc_index) as [->|[p ->]];
      split; cbn; try lia; repeat constructor. }
  destruct Hn as [Hn Hs].
  rewrite List.filter_app, length_app, Forall_app.
  destruct (json_truthy _).
  - destruct (joinable _).
    + rewrite !lbind_snd. cbn [log lret snd fst]. rewrite app_nil_r.
      cbn [app List.filter is_model_call]. split; [cbn [length]; lia|].
      split; [exact Hs|]. constructor; [exact I|exact IHs].
    + cbn [lret snd List.filter length]. split; [lia|]. split; [exact Hs|constructor].
  - split; [cbn [length]; lia|]. split; [exact Hs|exact IHs].
Qed.

(** X16.  With indices loaded, the index-guided path asks the model at
    most once for phase 1, once for each document phase 1 returned, and
    once for the answer: the first event is the phase 1 call, and the
    answer call, if there is one, is the last event. *)
Theorem indexed_retrieval_call_budget (w : IndexWorld) (judge : World) (query : string)
        (indices_dir : option (gmap string FileContent))
        (read_all_documents : Result (list Document)) :
  _load_all_indices indices_dir <> ∅ ->
  let events :=
    snd (retrieve_with_index w judge query indices_dir read_all_documents) in
  length (List.filter is_model_call events)
  <= 2 + length (fst (_filter_relevant_documents w query
                        (_load_all_indices indices_dir))) /\
  head events = Some (Phase1Call (DocumentFilterPrompt query
                                    (map_to_list (_load_all_indices indices_dir)))) /\
  (forall i p, events !! i = Some (Phase3Call p) -> S i = length events).
Proof.
  intros Hne. cbv zeta. unfold retrieve_with_index. cbv zeta.
  destruct (decide (_load_all_indices indices_dir = ∅)) as [|_]; [contradiction|].
  rewrite lbind_snd, (filter_documents_log w query _ Hne).
  destruct (fst (_filter_relevant_documents w query (_load_all_indices indices_dir)))
    as [|doc rest] eqn:Hdocs.
  - cbn. split; [lia|]. split; [reflexivity|].
    intros [|i] p H; discriminate.
  - rewrite lbind_snd.
    destruct (collect_sections_log w query (doc :: rest)) as [Hn Hs].
    set (ev2 := snd (collect_sections w query (doc :: rest))) in *.
    destruct (fst (collect_sections w query (doc :: rest))) as [all_sections|e].
    + rewrite lbind_snd. cbn [lret snd]. rewrite app_nil_r.
      set (ev3 := snd (_generate_response_with_sections w query all_sections)).
      assert (Hgen : ev3 = [] \/ exists p, ev3 = [Phase3Call p]).
      { subst ev3. unfold _generate_response_with_sections.
        destruct all_sections; [left; reflexivity|]. right.
        rewrite lbind_snd. cbn [log snd fst]. eexists.
        destruct (chat w _); reflexivity. }
      split; [|split; [reflexivity|]].
      * cbn [app List.filter is_model_call].
        rewrite List.filter_app. cbn [length] in *. rewrite length_app.
        destruct Hgen as [->|[p ->]]; cbn; lia.
      * intros i p Hi. cbn [app] in Hi. destruct i as [|i]; [discriminate|].
        cbn in Hi. apply lookup_app_Some in Hi. destruct Hi as [Hi|[Hge Hi]].
        -- exfalso. rewrite Forall_lookup in Hs. apply (Hs _ _ Hi).
        -- destruct Hgen as [->|[p' ->]]; [destruct (i - length ev2); discriminate|].
           destruct (i - length ev2) as [|j] eqn:Hj; [|destruct j; discriminate].
           cbn. rewrite length_app. cbn. lia.
    + cbn [lret snd]. rewrite app_nil_r.
      split; [|split; [reflexivity|]].
      * cbn [app List.filter is_model_call]. cbn [length] in *. lia.
      * intros i p Hi. cbn [app] in Hi. destruct i as [|i]; [discriminate|].
        cbn in Hi. exfalso. rewrite Forall_lookup in Hs. apply (Hs _ _ Hi).
Qed.

(** *** The theorems at work *)

Lemma evaluation_carries_document_id_witness :
  obj_get "relevance_score"
    (evaluate_relevance terse_judge 0 "jubilacion" sample_document)
  = obj_get "relevance_score" [].
Proof.
  destruct (evaluation_carries_document_id terse_judge 0 "jubilacion" sample_document)
    as [_ Hother].
  apply (Hother "{}" [] "relevance_score").
  - reflexivity.
  - reflexivity.
  - discriminate.
Defined.

Lemma one_answer_without_score_fails_retrieval_witness :
  exists key',
    retrieve terse_judge "jubilacion" 5 (Ok [sample_document]) = Raise (KeyError key').
Proof.
  apply (one_answer_without_score_fails_retrieval terse_judge "jubilacion" 5
           [sample_document] 0 sample_document "{}" [] "relevance_score").
  - reflexivity.
  - reflexivity.
  - reflexivity.
  - left. reflexivity.
  - reflexivity.
Defined.





Lemma indexed_retrieval_call_budget_witness :
  let events :=
    snd (retrieve_with_index silent_index_world failing_judge "jubilacion"
           (Some one_index_dir) (Ok [])) in
  length (List.filter is_model_call events)
  <= 2 + length (fst (_filter_relevant_documents silent_index_world "jubilacion"
                        (_load_all_indices (Some one_index_dir)))) /\
  head events = Some (Phase1Call (DocumentFilterPrompt "jubilacion"
                                    (map_to_list (_load_all_indices
                                                    (Some one_index_dir))))) /\
  (forall i p, events !! i = Some (Phase3Call p) -> S i = length events).
Proof.
  apply (indexed_retrieval_call_budget silent_index_world failing_judge "jubilacion"
           (Some one_index_dir) (Ok [])).
  rewrite one_index_loaded. apply insert_non_empty.
Defined.

End RetrievalMore.


(** ** The indexer: outcomes, numbering, the file written *)

Module IndexerMore.

Import AgentRAGIndexer StringFacts IndexerFacts.

(** *** How many batches *)

Lemma ceil_div_step (d n : nat) :
  1 <= n -> 1 <= d -> (d + n - 1) / n = S ((d - n + n - 1) / n).
Proof.
  intros Hn Hd. destruct (Nat.le_gt_cases n d) as [Hle|Hlt].
  - replace (d + n - 1) with ((d - n + n - 1) + 1 * n) by lia.
    rewrite Nat.div_add by lia. lia.
  - replace (d - n + n - 1) with (n - 1) by lia.
    rewrite (Nat.div_small (n - 1)) by lia.
    symmetry. apply (Nat.div_unique _ _ 1 (d - 1)); lia.
Qed.

Lemma range_from_length (n stop : nat) : forall fuel start,
  1 <= n -> stop - start <= fuel ->
  length (range_from fuel start stop n) = (stop - start + n - 1) / n.
Proof.
  induction fuel as [|fuel IH]; intros start Hn Hfuel; cbn [range_from].
  - replace (stop - start + n - 1) with (n - 1) by lia.
    rewrite Nat.div_small by lia. reflexivity.
  - destruct (Nat.ltb_spec start stop) as [Hlt|Hge].
    + cbn [length]. rewrite IH by lia.
      rewrite (ceil_div_step (stop - start) n) by lia.
      do 2 f_equal. lia.
    + replace (stop - start + n - 1) with (n - 1) by lia.
      rewrite Nat.div_small by lia. reflexivity.
Qed.

Lemma make_sections_numbered env : forall batches i ss,
  make_sections env i batches = Ok ss ->
  length ss = length batches /\
  map section_id ss = map Py.str_of_nat (seq i (length batches)) /\
  map title ss = map (fun j => "Sección " +:+ Py.str_of_nat j) (seq i (length batches)).
Proof.
  induction batches as [|b rest IH]; intros i ss; cbn [make_sections].
  - intros [= <-]. repeat split.
  - destruct b as [|first more]; [discriminate|]. unfold make_section. cbn [rbind].
    destruct (make_sections env (S i) rest) as [ss'|e] eqn:Hrest; [|discriminate].
    cbn [rbind]. intros [= <-]. destruct (IH _ _ Hrest) as (Hlen & Hid & Ht).
    cbn [length map seq section_id title]. rewrite Hlen, Hid, Ht. repeat split.
Qed.

(** What [index_document] does on a document with text, for a positive
    batch size. *)
Lemma index_document_positive env doc dir batch_size :
  (1 <= batch_size)%Z -> _read_pdf_pages doc <> [] ->
  exists ss,
    make_sections env 1
      (map (fun i => slice (_read_pdf_pages doc) i (i + Z.to_nat batch_size))
           (range_from (length (_read_pdf_pages doc)) 0 (length (_read_pdf_pages doc))
              (Z.to_nat batch_size))) = Ok ss /\
    index_document env (Some doc) dir batch_size =
    Ok (_create_index (_extract_metadata_from_content env (_read_pdf_pages doc))
          (summarize_document env ss) ss,
        fst (_save_index
               (_create_index (_extract_metadata_from_content env (_read_pdf_pages doc))
                  (summarize_document env ss) ss) dir)).
Proof.
  intros Hb Hne.
  pose proof (create_batches_ok (_read_pdf_pages doc) batch_size Hb) as Hbat.
  set (batches := map _ _) in *.
  assert (Hshape : full_but_last (Z.to_nat batch_size) batches).
  { apply range_from_shape; lia. }
  assert (Hnonempty : Forall (fun b => b <> []) batches).
  { eapply full_but_last_nonempty; [|exact Hshape]. lia. }
  destruct (make_sections_ok env 1 batches Hnonempty) as (ss & Hss & _ & _).
  exists ss. split; [exact Hss|].
  unfold index_document. destruct (_read_pdf_pages doc) as [|p ps] eqn:Hread;
    [congruence|].
  rewrite Hbat. cbn [rbind]. rewrite Hss. cbn [rbind]. reflexivity.
Qed.


(** X18.  For a positive batch size, the index of a document with [n]
    pages of text has [ceil(n / batch_size)] sections, numbered 1, 2, 3,
    ... in order, with the titles [Sección 1], [Sección 2], ... *)
Theorem index_document_numbers_sections (env : Collaborators) (doc : list string)
        (dir : gmap string FileContent) (batch_size : Z) :
  (1 <= batch_size)%Z ->
  _read_pdf_pages doc <> [] ->
  exists index dir',
    index_document env (Some doc) dir batch_size = Ok (index, dir') /\
    length (sections index) =
    (length (_read_pdf_pages doc) + Z.to_nat batch_size - 1) / Z.to_nat batch_size /\
    1 <= length (sections index) /\
    map section_id (sections index) =
    map Py.str_of_nat (seq 1 (length (sections index))) /\
    map title (sections index) =
    map (fun j => "Sección " +:+ Py.str_of_nat j) (seq 1 (length (sections index))).
Proof.
  intros Hb Hne.
  destruct (index_document_positive env doc dir batch_size Hb Hne) as (ss & Hss & Hidx).
  eexists _, _. split; [exact Hidx|].
  cbn [sections _create_index].
  destruct (make_sections_numbered env _ _ _ Hss) as (Hlen & Hid & Ht).
  rewrite length_map in Hlen, Hid, Ht.
  rewrite range_from_length in Hlen, Hid, Ht by lia.
  rewrite Nat.sub_0_r in Hlen, Hid, Ht. rewrite Hlen.
  split; [reflexivity|]. split; [|split; [exact Hid|exact Ht]].
  assert (Hpos : 1 <= length (_read_pdf_pages doc)).
  { destruct (_read_pdf_pages doc); [congruence|cbn; lia]. }
  rewrite (ceil_div_step (length (_read_pdf_pages doc)) (Z.to_nat batch_size)) by lia.
  lia.
Qed.



Lemma index_document_numbers_sections_witness :
  exists index dir',
    index_document plain_env (Some ["uno"; "dos"; "tres"]) ∅ 2 = Ok (index, dir') /\
    length (sections index) =
    (length (_read_pdf_pages ["uno"; "dos"; "tres"]) + Z.to_nat 2 - 1) / Z.to_nat 2 /\
    1 <= length (sections index) /\
    map section_id (sections index) =
    map Py.str_of_nat (seq 1 (length (sections index))) /\
    map title (sections index) =
    map (fun j => "Sección " +:+ Py.str_of_nat j) (seq 1 (length (sections index))).
Proof.
  apply (index_document_numbers_sections plain_env ["uno"; "dos"; "tres"] ∅ 2);
    [lia|vm_compute; discriminate].
Defined.


End IndexerMore.


(** ** Reading the pages of a section back *)

Module ReadBack.

Import AgentRAGIndexer DocumentReader StringFacts IndexerFacts IndexerMore.

(** The test of [read_pdf_pages] on the page at index [i]. *)
Local Abbreviation page_has_text doc :=
  (fun i : nat => has_text (default EmptyString (doc !! i))).

(** The part of the output for the page at index [i]. *)
Local Abbreviation part_at doc :=
  (fun i : nat => page_part i (default EmptyString (doc !! i))).

Lemma filter_none {A : Type} (f : A -> bool) (l : list A) :
  (forall x, List.In x l -> f x = false) -> List.filter f l = [].
Proof.
  induction l as [|x l IH]; intros H; cbn [List.filter]; [reflexivity|].
  rewrite (H x) by (left; reflexivity). apply IH. intros y Hy. apply H. right. exact Hy.
Qed.

Lemma filter_every {A : Type} (f : A -> bool) (l : list A) :
  (forall x, List.In x l -> f x = true) -> List.filter f l = l.
Proof.
  induction l as [|x l IH]; intros H; cbn [List.filter]; [reflexivity|].
  rewrite (H x) by (left; reflexivity). f_equal. apply IH. intros y Hy. apply H.
  right. exact Hy.
Qed.

Lemma filter_swap {A : Type} (f g : A -> bool) (l : list A) :
  List.filter f (List.filter g l) = List.filter g (List.filter f l).
Proof.
  induction l as [|x l IH]; cbn [List.filter]; [reflexivity|].
  destruct (g x) eqn:Hg, (f x) eqn:Hf; cbn [List.filter]; rewrite ?Hg, ?Hf, IH;
    reflexivity.
Qed.

(** The pages [_read_pdf_pages] keeps are the pages with text, numbered
    from one. *)
Lemma read_pages_from_filter doc : forall k,
  map page_num (read_pages_from k doc) =
  map (fun i => i + 1)
      (List.filter (fun i => has_text (default EmptyString (doc !! (i - k))))
                   (seq k (length doc))).
Proof.
  induction doc as [|t rest IH]; intros k; [reflexivity|].
  cbn [read_pages_from length seq List.filter].
  assert (Hrest : List.filter
                    (fun i => has_text (default EmptyString ((t :: rest) !! (i - k))))
                    (seq (S k) (length rest)) =
                  List.filter
                    (fun i => has_text (default EmptyString (rest !! (i - S k))))
                    (seq (S k) (length rest))).
  { apply List.filter_ext_in. intros i Hi. apply List.in_seq in Hi.
    replace (i - k) with (S (i - S k)) by lia. reflexivity. }
  rewrite Hrest, Nat.sub_diag.
  change (default EmptyString ((t :: rest) !! 0)) with t. unfold has_text at 1.
  destruct (Py.truthy_str t && Py.truthy_str (Py.strip t)); cbn [map page_num];
    rewrite IH; reflexivity.
Qed.

Lemma read_pdf_pages_indices doc :
  map page_num (_read_pdf_pages doc) =
  map (fun i => i + 1) (List.filter (page_has_text doc) (seq 0 (length doc))).
Proof.
  unfold _read_pdf_pages. rewrite read_pages_from_filter. f_equal.
  apply List.filter_ext. intros i. rewrite Nat.sub_0_r. reflexivity.
Qed.

(** Within the document the loop of [read_pdf_pages] never fails. *)
Lemma read_range_in_document doc : forall page_nums,
  Forall (fun i => i < length doc) page_nums ->
  read_range doc page_nums =
  Ok (map (part_at doc) (List.filter (page_has_text doc) page_nums)).
Proof.
  induction page_nums as [|i rest IH]; intros Hall; [reflexivity|].
  inversion Hall as [|? ? Hi Hrest]; subst. cbn [read_range List.filter].
  destruct (lookup_lt_is_Some_2 doc i Hi) as [t Ht]. rewrite Ht.
  rewrite (IH Hrest). cbn [rbind default]. unfold id.
  destruct (has_text t); [|reflexivity]. cbn [map]. rewrite Ht. reflexivity.
Qed.

Lemma page_indices_in_document (doc : list string) (page_start page_end : Z) :
  (1 <= page_start)%Z -> (page_end <= Z.of_nat (length doc))%Z ->
  Forall (fun i => i < length doc) (page_indices page_start page_end).
Proof.
  intros Hs He. apply List.Forall_forall. intros i Hi. unfold page_indices in Hi.
  apply List.in_seq in Hi. lia.
Qed.

(** A run of consecutive elements of an increasing list is what lies
    between its first and its last element. *)
Lemma sorted_run_between (l1 run l2 : list nat) :
  StronglySorted lt (l1 ++ run ++ l2) -> run <> [] ->
  List.filter (fun x => (List.hd 0 run <=? x) && (x <=? List.last run 0))
              (l1 ++ run ++ l2) = run.
Proof.
  intros Hs Hne. rewrite !List.filter_app.
  pose proof (StronglySorted_app_1_r _ _ _ Hs) as Hs2.
  pose proof (StronglySorted_app_1_l _ _ _ Hs2) as Hrun.
  rewrite (filter_none _ l1), (filter_every _ run), (filter_none _ l2).
  - rewrite List.app_nil_r. reflexivity.
  - intros x Hx.
    assert (Hlt : List.last run 0 < x).
    { apply (StronglySorted_app_1_elem_of _ _ _ _ _ Hs2).
      - apply list_elem_of_In, last_in, Hne.
      - apply list_elem_of_In, Hx. }
    apply andb_false_iff. right. apply Nat.leb_gt. exact Hlt.
  - intros x Hx. pose proof (sorted_bounds run x Hrun Hx) as [Hlo Hhi].
    apply andb_true_iff. split; apply Nat.leb_le; assumption.
  - intros x Hx.
    assert (Hlt : x < List.hd 0 run).
    { apply (StronglySorted_app_1_elem_of _ _ _ _ _ Hs).
      - apply list_elem_of_In, Hx.
      - apply list_elem_of_In, List.in_or_app. left. apply hd_in, Hne. }
    apply andb_false_iff. left. apply Nat.leb_gt. exact Hlt.
Qed.

Lemma seq_between (a b n : nat) :
  a <= b -> b < n ->
  List.filter (fun x => (a <=? x) && (x <=? b)) (seq 0 n) = seq a (b + 1 - a).
Proof.
  intros Hab Hbn.
  replace n with (a + ((b + 1 - a) + (n - (b + 1)))) by lia.
  rewrite !seq_app, !List.filter_app. cbn [Nat.add].
  rewrite (filter_none _ (seq 0 a)), (filter_every _ (seq a (b + 1 - a))),
    (filter_none _ (seq _ (n - (b + 1)))).
  - rewrite List.app_nil_r. reflexivity.
  - intros x Hx. apply List.in_seq in Hx. apply andb_false_iff. right.
    apply Nat.leb_gt. lia.
  - intros x Hx. apply List.in_seq in Hx. apply andb_true_iff.
    split; apply Nat.leb_le; lia.
  - intros x Hx. apply List.in_seq in Hx. apply andb_false_iff. left.
    apply Nat.leb_gt. lia.
Qed.

Lemma filter_seq_sorted (f : nat -> bool) (a n : nat) :
  StronglySorted lt (List.filter f (seq a n)).
Proof.
  revert a. induction n as [|n IH]; intros a; cbn [seq List.filter]; [constructor|].
  destruct (f a); [|apply IH]. constructor; [apply IH|].
  apply List.Forall_forall. intros x Hx. apply List.filter_In in Hx.
  destruct Hx as [Hx _]. apply List.in_seq in Hx. lia.
Qed.

(** A run of the indices of the pages with text: the pages with text
    between its first and its last index are the run itself. *)
Lemma text_pages_run doc (i n : nat) :
  let indices := List.filter (page_has_text doc) (seq 0 (length doc)) in
  let run := take n (drop i indices) in
  run <> [] ->
  List.last run 0 < length doc /\
  List.filter (page_has_text doc)
              (seq (List.hd 0 run) (List.last run 0 + 1 - List.hd 0 run)) = run.
Proof.
  intros indices run Hne.
  assert (Hsplit : indices = take i indices ++ run ++ drop n (drop i indices)).
  { unfold run. rewrite take_drop, take_drop. reflexivity. }
  assert (Hs : StronglySorted lt (take i indices ++ run ++ drop n (drop i indices))).
  { rewrite <- Hsplit. apply filter_seq_sorted. }
  pose proof (sorted_run_between _ _ _ Hs Hne) as Hrun.
  rewrite <- Hsplit in Hrun.
  assert (Hin : forall x, List.In x run -> x < length doc).
  { intros x Hx.
    assert (Hxi : List.In x indices).
    { rewrite Hsplit. apply List.in_or_app. right. apply List.in_or_app. left. exact Hx. }
    apply List.filter_In in Hxi. destruct Hxi as [Hxi _]. apply List.in_seq in Hxi. lia. }
  assert (Hlast : List.last run 0 < length doc) by (apply Hin, last_in, Hne).
  split; [exact Hlast|].
  assert (Hle : List.hd 0 run <= List.last run 0).
  { apply sorted_hd_le_last.
    eapply StronglySorted_app_1_l, StronglySorted_app_1_r. exact Hs. }
  rewrite <- (seq_between _ _ (length doc) Hle Hlast).
  rewrite filter_swap. exact Hrun.
Qed.

Lemma hd_map_nonempty {A B : Type} (f : A -> B) (l : list A) (d : A) (d' : B) :
  l <> [] -> List.hd d' (map f l) = f (List.hd d l).
Proof. destruct l; [congruence|reflexivity]. Qed.

(** Every section [make_sections] builds lists the pages of one batch. *)
Lemma make_sections_pages env : forall batches i ss s,
  make_sections env i batches = Ok ss -> List.In s ss ->
  exists batch, List.In batch batches /\ batch <> [] /\ pages s = map page_num batch.
Proof.
  induction batches as [|b rest IH]; intros i ss s; cbn [make_sections].
  - intros [= <-] [].
  - destruct b as [|first more]; [discriminate|]. unfold make_section. cbn [rbind].
    destruct (make_sections env (S i) rest) as [ss'|e] eqn:Hrest; [|discriminate].
    cbn [rbind]. intros [= <-] [<-|Hin].
    + exists (first :: more). split; [left; reflexivity|]. split; [discriminate|].
      reflexivity.
    + destruct (IH _ _ _ Hrest Hin) as (batch & Hb & Hne & Hp).
      exists batch. split; [right; exact Hb|]. split; assumption.
Qed.

(** What [read_pdf_pages] returns for the bounds of a run of the pages
    with text. *)
Lemma read_run_back doc (i n : nat) :
  let numbers := map page_num (_read_pdf_pages doc) in
  let run := take n (drop i numbers) in
  run <> [] ->
  1 <= List.hd 0 run /\ List.hd 0 run <= List.last run 0 /\
  List.last run 0 <= length doc /\
  Forall (fun p => exists t, doc !! (p - 1) = Some t /\ has_text t = true) run /\
  read_pdf_pages doc (Z.of_nat (List.hd 0 run)) (Z.of_nat (List.last run 0)) =
  Ok (String.concat (newline +:+ newline)
        (map (fun p => page_part (p - 1) (default EmptyString (doc !! (p - 1)))) run)).
Proof.
  intros numbers run. unfold run, numbers. clear run numbers.
  rewrite read_pdf_pages_indices.
  set (indices := List.filter (page_has_text doc) (seq 0 (length doc))).
  change (map (fun i0 => i0 + 1) indices) with ((fun i0 => i0 + 1) <$> indices).
  rewrite <- fmap_drop, <- fmap_take.
  set (run := take n (drop i indices)). intros Hne.
  assert (Hrun : run <> []) by (intros Hnil; apply Hne; rewrite Hnil; reflexivity).
  destruct (text_pages_run doc i n Hrun) as [Hlast Hfilter].
  fold indices in Hlast, Hfilter. fold run in Hlast, Hfilter.
  change ((fun i0 => i0 + 1) <$> run) with (map (fun i0 => i0 + 1) run).
  rewrite (hd_map_nonempty (fun i0 => i0 + 1) run 0 0 Hrun).
  rewrite (last_map_nonempty (fun i0 => i0 + 1) run 0 0 Hrun).
  assert (Hle : List.hd 0 run <= List.last run 0).
  { apply sorted_hd_le_last. rewrite <- Hfilter. apply filter_seq_sorted. }
  cbn beta. split; [lia|]. split; [lia|]. split; [lia|]. split.
  - apply List.Forall_forall. intros p Hp. apply List.in_map_iff in Hp.
    destruct Hp as (j & <- & Hj). rewrite <- Hfilter in Hj.
    apply List.filter_In in Hj. destruct Hj as [Hj Ht]. apply List.in_seq in Hj.
    replace (j + 1 - 1) with j by lia.
    destruct (doc !! j) as [t|] eqn:Hdoc.
    + exists t. split; [reflexivity|exact Ht].
    + cbn in Ht. discriminate.
  - unfold read_pdf_pages.
    destruct (Z.ltb_spec (Z.of_nat (List.hd 0 run + 1)) 1) as [?|_]; [lia|].
    destruct (Z.ltb_spec (Z.of_nat (length doc)) (Z.of_nat (List.last run 0 + 1)))
      as [?|_]; [lia|].
    cbn [orb]. rewrite read_range_in_document
      by (apply page_indices_in_document; lia).
    cbn [rbind]. do 2 f_equal. unfold page_indices.
    replace (Z.to_nat (Z.of_nat (List.hd 0 run + 1) - 1)) with (List.hd 0 run) by lia.
    replace (Z.to_nat (Z.of_nat (List.last run 0 + 1) -
                       (Z.of_nat (List.hd 0 run + 1) - 1)))
      with (List.last run 0 + 1 - List.hd 0 run) by lia.
    rewrite Hfilter, List.map_map. apply List.map_ext. intros j.
    replace (j + 1 - 1) with j by lia. reflexivity.
Qed.

(** X20.  [read_pdf_pages] raises [ValueError] when the first page is
    below one or the last page beyond the document, and only then: within
    the document it returns the parts of the pages with text, joined by a
    blank line, and an empty range gives the empty string. *)
Theorem read_pdf_pages_outcomes (doc : list string) (page_start page_end : Z) :
  ((page_start < 1)%Z \/ (Z.of_nat (length doc) < page_end)%Z ->
   exists msg, read_pdf_pages doc page_start page_end = Raise (ValueError msg)) /\
  ((1 <= page_start)%Z -> (page_end <= Z.of_nat (length doc))%Z ->
   read_pdf_pages doc page_start page_end =
   Ok (String.concat (newline +:+ newline)
         (map (fun i => page_part i (default EmptyString (doc !! i)))
              (List.filter (fun i => has_text (default EmptyString (doc !! i)))
                           (page_indices page_start page_end))))) /\
  ((1 <= page_start)%Z -> (page_end <= Z.of_nat (length doc))%Z ->
   (page_end < page_start)%Z ->
   read_pdf_pages doc page_start page_end = Ok EmptyString).
Proof.
  assert (Hin : (1 <= page_start)%Z -> (page_end <= Z.of_nat (length doc))%Z ->
                read_pdf_pages doc page_start page_end =
                Ok (String.concat (newline +:+ newline)
                      (map (part_at doc)
                           (List.filter (page_has_text doc)
                                        (page_indices page_start page_end))))).
  { intros Hs He. unfold read_pdf_pages.
    destruct (Z.ltb_spec page_start 1) as [?|_]; [lia|].
    destruct (Z.ltb_spec (Z.of_nat (length doc)) page_end) as [?|_]; [lia|].
    cbn [orb]. rewrite read_range_in_document
      by (apply page_indices_in_document; assumption).
    reflexivity. }
  split; [|split].
  - intros Hout. unfold read_pdf_pages.
    destruct (Z.ltb_spec page_start 1) as [?|?]; [eexists; reflexivity|].
    destruct (Z.ltb_spec (Z.of_nat (length doc)) page_end) as [?|?];
      [eexists; reflexivity|]. lia.
  - exact Hin.
  - intros Hs He Hempty. rewrite (Hin Hs He). unfold page_indices.
    replace (Z.to_nat (page_end - (page_start - 1))) with 0 by lia. reflexivity.
Qed.

Lemma read_pdf_pages_outcomes_witness :
  read_pdf_pages blank_middle 1 3 =
  Ok ("--- Página 1 ---" +:+ newline +:+ "uno" +:+ newline +:+ newline +:+
      "--- Página 3 ---" +:+ newline +:+ "tres") /\
  read_pdf_pages blank_middle 3 2 = Ok EmptyString /\
  exists msg, read_pdf_pages blank_middle 1 4 = Raise (ValueError msg).
Proof.
  destruct (read_pdf_pages_outcomes blank_middle 1 3) as (_ & Hin & _).
  destruct (read_pdf_pages_outcomes blank_middle 3 2) as (_ & _ & Hempty).
  destruct (read_pdf_pages_outcomes blank_middle 1 4) as (Hout & _ & _).
  split; [|split].
  - rewrite Hin by (cbn; lia). reflexivity.
  - apply Hempty; cbn; lia.
  - apply Hout. right. cbn. lia.
Defined.

(** X21.  The page bounds the indexer records for a section can be read
    back: for a positive batch size, [read_pdf_pages] on the same PDF with
    the first and the last page of a section succeeds and returns exactly
    the pages the section lists, each of which has text (a page without
    text between them adds nothing). *)
Theorem indexed_sections_read_back (env : Collaborators) (doc : list string)
        (dir : gmap string FileContent) (batch_size : Z) :
  (1 <= batch_size)%Z ->
  _read_pdf_pages doc <> [] ->
  exists index dir',
    index_document env (Some doc) dir batch_size = Ok (index, dir') /\
    Forall (fun s =>
              1 <= range_lo s /\ range_lo s <= range_hi s /\
              range_hi s <= length doc /\
              Forall (fun p => exists t, doc !! (p - 1) = Some t /\ has_text t = true)
                     (pages s) /\
              read_pdf_pages doc (Z.of_nat (range_lo s)) (Z.of_nat (range_hi s)) =
              Ok (String.concat (newline +:+ newline)
                    (map (fun p => page_part (p - 1)
                                     (default EmptyString (doc !! (p - 1))))
                         (pages s))))
           (sections index).
Proof.
  intros Hb Hne.
  destruct (index_document_positive env doc dir batch_size Hb Hne) as (ss & Hss & Hidx).
  eexists _, _. split; [exact Hidx|]. cbn [sections _create_index].
  apply List.Forall_forall. intros s Hs.
  destruct (make_sections_pages env _ _ _ s Hss Hs) as (batch & Hbatch & Hbne & Hpages).
  apply List.in_map_iff in Hbatch. destruct Hbatch as (i & <- & _).
  unfold slice in Hpages, Hbne.
  replace (i + Z.to_nat batch_size - i) with (Z.to_nat batch_size) in Hpages, Hbne by lia.
  change (map page_num (firstn (Z.to_nat batch_size) (skipn i (_read_pdf_pages doc))))
    with (page_num <$> take (Z.to_nat batch_size) (drop i (_read_pdf_pages doc)))
    in Hpages.
  rewrite fmap_take, fmap_drop in Hpages.
  unfold range_lo, range_hi. rewrite Hpages.
  apply (read_run_back doc i (Z.to_nat batch_size)).
  change (map page_num (_read_pdf_pages doc)) with (page_num <$> _read_pdf_pages doc).
  rewrite <- fmap_drop, <- fmap_take. intros Hnil.
  apply fmap_nil_inv in Hnil. apply Hbne. exact Hnil.
Qed.

Lemma indexed_sections_read_back_witness :
  exists index dir',
    index_document plain_env (Some blank_middle) ∅ 2 = Ok (index, dir') /\
    Forall (fun s =>
              1 <= range_lo s /\ range_lo s <= range_hi s /\
              range_hi s <= length blank_middle /\
              Forall (fun p => exists t, blank_middle !! (p - 1) = Some t /\
                                         has_text t = true)
                     (pages s) /\
              read_pdf_pages blank_middle (Z.of_nat (range_lo s)) (Z.of_nat (range_hi s)) =
              Ok (String.concat (newline +:+ newline)
                    (map (fun p => page_part (p - 1)
                                     (default EmptyString (blank_middle !! (p - 1))))
                         (pages s))))
           (sections index).
Proof.
  apply (indexed_sections_read_back plain_env blank_middle ∅ 2);
    [lia|vm_compute; discriminate].
Defined.

End ReadBack.


(** ** Loading the content of sections *)

Module LoaderFacts.

Import AgentRAGIndexer ChunkEvaluator AgentRetrieval DocumentReader SectionLoader.
Import StringFacts IndexerFacts IndexerMore ReadBack.

(** *** Numbers printed by [str] and read by [int] *)

Lemma digit_is_not_space c : SQLQueryTool.is_digit c = true -> Py.is_space c = false.
Proof.
  destruct c as [[] [] [] [] [] [] [] []]; intros H; try reflexivity;
    vm_compute in H; discriminate H.
Qed.

Lemma digit_not_sign c :
  SQLQueryTool.is_digit c = true ->
  Ascii.eqb c "-" = false /\ Ascii.eqb c "+" = false /\ Ascii.eqb c "_" = false.
Proof.
  destruct c as [[] [] [] [] [] [] [] []]; intros H; try (repeat split; reflexivity);
    vm_compute in H; discriminate H.
Qed.

Lemma all_digits_uint d : all_digits (NilEmpty.string_of_uint d) = true.
Proof. induction d; cbn [NilEmpty.string_of_uint all_digits]; try rewrite IHd; reflexivity. Qed.

Lemma all_digits_str n : all_digits (Py.str_of_nat n) = true.
Proof. apply all_digits_uint. Qed.

Lemma to_uint_nonnil n : Nat.to_uint n <> Decimal.Nil.
Proof.
  rewrite <- (Unsigned.of_to n) at 1. rewrite Unsigned.to_of. apply unorm_nonnil.
Qed.

Lemma str_of_nat_nonempty n : Py.str_of_nat n <> EmptyString.
Proof.
  unfold Py.str_of_nat. pose proof (to_uint_nonnil n) as H.
  destruct (Nat.to_uint n); [congruence|..]; discriminate.
Qed.

Lemma lstrip_digits s : all_digits s = true -> Py.lstrip s = s.
Proof.
  destruct s as [|c s]; [reflexivity|]. cbn [all_digits Py.lstrip]. intros H.
  apply andb_true_iff in H. destruct H as [Hc _].
  rewrite (digit_is_not_space c Hc). reflexivity.
Qed.

Lemma rstrip_digits s : all_digits s = true -> Py.rstrip s = s.
Proof.
  induction s as [|c s IH]; [reflexivity|]. cbn [all_digits Py.rstrip]. intros H.
  apply andb_true_iff in H. destruct H as [Hc Hs]. rewrite (IH Hs).
  rewrite (digit_is_not_space c Hc). destruct s; reflexivity.
Qed.

Lemma strip_digits s : all_digits s = true -> Py.strip s = s.
Proof.
  intros H. unfold Py.strip. rewrite (lstrip_digits s H). apply rstrip_digits, H.
Qed.

Lemma parse_digits_uint d : forall acc,
  parse_digits (Z.of_nat acc) true (NilEmpty.string_of_uint d) =
  Some (Z.of_nat (Nat.of_uint_acc d acc)).
Proof.
  induction d; intros acc; cbn [NilEmpty.string_of_uint Nat.of_uint_acc];
    [reflexivity|..];
    cbn [parse_digits]; rewrite Nat.tail_mul_spec;
    match goal with
    | |- context [Ascii.eqb ?c "_"] =>
        change (Ascii.eqb c "_") with false;
        change (SQLQueryTool.is_digit c) with true;
        cbv iota
    end;
    rewrite <- IHd; f_equal; vm_compute (nat_of_ascii _ - 48); lia.
Qed.

Lemma parse_digits_uint_start d :
  d <> Decimal.Nil ->
  parse_digits 0 false (NilEmpty.string_of_uint d) = Some (Z.of_nat (Nat.of_uint d)).
Proof.
  intros Hne. unfold Nat.of_uint.
  destruct d; [congruence|..];
    cbn [NilEmpty.string_of_uint Nat.of_uint_acc parse_digits];
    match goal with
    | |- context [Ascii.eqb ?c "_"] =>
        change (Ascii.eqb c "_") with false;
        change (SQLQueryTool.is_digit c) with true;
        cbv iota
    end;
    rewrite <- parse_digits_uint; f_equal.
Qed.

(** [int(str(n))] is [n]. *)
Lemma int_of_str_of_nat n : py_int_of_str (Py.str_of_nat n) = Some (Z.of_nat n).
Proof.
  unfold py_int_of_str. rewrite (strip_digits _ (all_digits_str n)).
  assert (Hparse : parse_digits 0 false (Py.str_of_nat n) = Some (Z.of_nat n)).
  { unfold Py.str_of_nat. rewrite (parse_digits_uint_start _ (to_uint_nonnil n)).
    rewrite Unsigned.of_to. reflexivity. }
  pose proof (all_digits_str n) as Hd.
  destruct (Py.str_of_nat n) as [|c s] eqn:Hs; [exact Hparse|].
  cbn [all_digits] in Hd. apply andb_true_iff in Hd. destruct Hd as [Hc _].
  destruct (digit_not_sign c Hc) as (Hminus & Hplus & _).
  destruct (Ascii.eqb_spec c "+") as [->|_]; [discriminate|].
  destruct (Ascii.eqb_spec c "-") as [->|_]; [discriminate|].
  destruct c as [[] [] [] [] [] [] [] []]; try exact Hparse;
    vm_compute in Hc; discriminate Hc.
Qed.

Lemma split_on_digits a : all_digits a = true -> split_on "-" a = [a].
Proof.
  induction a as [|c a IH]; [reflexivity|]. cbn [all_digits split_on]. intros H.
  apply andb_true_iff in H. destruct H as [Hc Ha].
  destruct (digit_not_sign c Hc) as (-> & _ & _). rewrite (IH Ha). reflexivity.
Qed.

(** [(a + "-" + b).split("-")] gives [a] and [b] back. *)
Lemma split_on_range a b :
  all_digits a = true -> all_digits b = true ->
  split_on "-" (a +:+ "-" +:+ b) = [a; b].
Proof.
  intros Ha Hb. induction a as [|c a IH].
  - rewrite append_nil_l, append_cons. cbn [split_on].
    change (Ascii.eqb "-" "-") with true. cbv iota. rewrite append_nil_l.
    rewrite (split_on_digits b Hb). reflexivity.
  - cbn [all_digits] in Ha. apply andb_true_iff in Ha. destruct Ha as [Hc Ha].
    rewrite append_cons. cbn [split_on].
    destruct (digit_not_sign c Hc) as (-> & _ & _). rewrite (IH Ha). reflexivity.
Qed.

(** *** The bounds of a section *)

Lemma foldr_min_least (p : nat) (ps : list nat) :
  List.In (foldr Nat.min p ps) (p :: ps) /\
  (forall x, List.In x (p :: ps) -> foldr Nat.min p ps <= x).
Proof.
  induction ps as [|y ps [IHin IHle]]; cbn [foldr].
  - split; [left; reflexivity|]. intros x [<-|[]]. lia.
  - split.
    + destruct (Nat.min_spec y (foldr Nat.min p ps)) as [[_ ->]|[_ ->]].
      * right. left. reflexivity.
      * destruct IHin as [<-|Hin]; [left; reflexivity|right; right; exact Hin].
    + intros x [<-|[<-|Hin]].
      * pose proof (IHle p (or_introl eq_refl)). lia.
      * lia.
      * pose proof (IHle x (or_intror Hin)). lia.
Qed.

Lemma foldr_max_greatest (p : nat) (ps : list nat) :
  List.In (foldr Nat.max p ps) (p :: ps) /\
  (forall x, List.In x (p :: ps) -> x <= foldr Nat.max p ps).
Proof.
  induction ps as [|y ps [IHin IHle]]; cbn [foldr].
  - split; [left; reflexivity|]. intros x [<-|[]]. lia.
  - split.
    + destruct (Nat.max_spec y (foldr Nat.max p ps)) as [[_ ->]|[_ ->]].
      * destruct IHin as [<-|Hin]; [left; reflexivity|right; right; exact Hin].
      * right. left. reflexivity.
    + intros x [<-|[<-|Hin]].
      * pose proof (IHle p (or_introl eq_refl)). lia.
      * lia.
      * pose proof (IHle x (or_intror Hin)). lia.
Qed.

(** In an increasing list the least element is the first one and the
    greatest the last one. *)
Lemma sorted_min_max (p : nat) (ps : list nat) :
  StronglySorted lt (p :: ps) ->
  foldr Nat.min p ps = List.hd 0 (p :: ps) /\
  foldr Nat.max p ps = List.last (p :: ps) 0.
Proof.
  intros Hs.
  destruct (foldr_min_least p ps) as [Hmin_in Hmin_le].
  destruct (foldr_max_greatest p ps) as [Hmax_in Hmax_le].
  assert (Hne : p :: ps <> []) by discriminate.
  pose proof (sorted_bounds _ _ Hs Hmin_in) as [Hlo _].
  pose proof (sorted_bounds _ _ Hs Hmax_in) as [_ Hhi].
  pose proof (Hmin_le _ (hd_in _ Hne)).
  pose proof (Hmax_le _ (last_in _ Hne)).
  split; lia.
Qed.

Lemma page_bounds_of_pages (section : SectionData) (p : nat) (ps : list nat) :
  sd_pages section = Some (p :: ps) -> StronglySorted lt (p :: ps) ->
  page_bounds section =
  (Some (Z.of_nat (List.hd 0 (p :: ps))), Some (Z.of_nat (List.last (p :: ps) 0))).
Proof.
  intros Hpages Hs. unfold page_bounds. rewrite Hpages.
  destruct (sorted_min_max p ps Hs) as [-> ->]. reflexivity.
Qed.

Lemma page_bounds_of_range (section : SectionData) (a b : nat) :
  sd_pages section = None ->
  sd_page_range section = Some (Py.str_of_nat a +:+ "-" +:+ Py.str_of_nat b) ->
  page_bounds section = (Some (Z.of_nat a), Some (Z.of_nat b)).
Proof.
  intros Hpages Hrange. unfold page_bounds. rewrite Hpages, Hrange.
  pose proof (split_on_range _ _ (all_digits_str a) (all_digits_str b)) as Hsplit.
  pose proof (str_of_nat_nonempty a) as Hne.
  destruct (Py.str_of_nat a +:+ "-" +:+ Py.str_of_nat b) as [|c r] eqn:Hs.
  - destruct (Py.str_of_nat a); [congruence|]. rewrite append_cons in Hs. discriminate.
  - rewrite Hsplit, !int_of_str_of_nat. reflexivity.
Qed.

(** The pages of a section of the index are a run of the pages with
    text. *)
Lemma section_pages_run env doc (n : nat) ss s :
  make_sections env 1
    (map (fun i => slice (_read_pdf_pages doc) i (i + n))
         (range_from (length (_read_pdf_pages doc)) 0 (length (_read_pdf_pages doc)) n))
  = Ok ss ->
  List.In s ss ->
  exists i, pages s = take n (drop i (map page_num (_read_pdf_pages doc))) /\
            pages s <> [].
Proof.
  intros Hss Hs.
  destruct (make_sections_pages env _ _ _ s Hss Hs) as (batch & Hbatch & Hbne & Hpages).
  apply List.in_map_iff in Hbatch. destruct Hbatch as (i & <- & _).
  exists i. unfold slice in Hpages, Hbne.
  replace (i + n - i) with n in Hpages, Hbne by lia.
  change (map page_num (firstn n (skipn i (_read_pdf_pages doc))))
    with (page_num <$> take n (drop i (_read_pdf_pages doc))) in Hpages.
  rewrite fmap_take, fmap_drop in Hpages. split; [exact Hpages|].
  rewrite Hpages.
  change (map page_num (_read_pdf_pages doc)) with (page_num <$> _read_pdf_pages doc).
  rewrite <- fmap_drop, <- fmap_take. intros Hnil.
  apply fmap_nil_inv in Hnil. apply Hbne. exact Hnil.
Qed.

Lemma run_sorted (l : list nat) (i n : nat) :
  StronglySorted lt l -> StronglySorted lt (take n (drop i l)).
Proof.
  intros Hs. rewrite <- (take_drop i l), <- (take_drop n (drop i l)) in Hs.
  eapply StronglySorted_app_1_l, StronglySorted_app_1_r. exact Hs.
Qed.

(** What the loader finds for a section of the index of [doc]. *)
Lemma indexed_section_facts env doc (n : nat) ss s :
  make_sections env 1
    (map (fun i => slice (_read_pdf_pages doc) i (i + n))
         (range_from (length (_read_pdf_pages doc)) 0 (length (_read_pdf_pages doc)) n))
  = Ok ss ->
  List.In s ss ->
  1 <= range_lo s <= range_hi s /\
  page_bounds (section_to_json s) =
    (Some (Z.of_nat (range_lo s)), Some (Z.of_nat (range_hi s))) /\
  page_bounds (range_only s) =
    (Some (Z.of_nat (range_lo s)), Some (Z.of_nat (range_hi s))) /\
  read_pdf_pages doc (Z.of_nat (range_lo s)) (Z.of_nat (range_hi s)) =
  Ok (String.concat (newline +:+ newline)
        (map (fun p => page_part (p - 1) (default EmptyString (doc !! (p - 1))))
             (pages s))).
Proof.
  intros Hss Hs.
  destruct (section_pages_run env doc n ss s Hss Hs) as (i & Hpages & Hne).
  assert (Hsorted : StronglySorted lt (pages s)).
  { rewrite Hpages. apply run_sorted, read_pages_from_sorted. }
  pose proof (make_sections_ranges env _ _ _ Hss) as Hranges.
  rewrite List.Forall_forall in Hranges. specialize (Hranges s Hs).
  rewrite Hpages in Hne.
  destruct (read_run_back doc i n Hne) as (Hlo & Hle & _ & _ & Hread).
  rewrite <- Hpages in Hlo, Hle, Hread.
  split; [split; [exact Hlo|exact Hle]|]. split; [|split; [|exact Hread]].
  - unfold range_lo, range_hi. destruct (pages s) as [|p ps] eqn:Hp; [cbn in Hlo; lia|].
    apply page_bounds_of_pages; [cbn; rewrite Hp; reflexivity|exact Hsorted].
  - apply page_bounds_of_range; [reflexivity|]. cbn [range_only sd_page_range].
    rewrite Hranges. reflexivity.
Qed.

(** X22.  The two ways the indexer records the pages of a section agree
    when the loader reads them: from the list [pages] and from the string
    [page_range] alone it finds the same bounds, the first and the last
    page of the section. *)
Theorem indexed_page_bounds_agree (env : Collaborators) (doc : list string)
        (dir : gmap string FileContent) (batch_size : Z) :
  (1 <= batch_size)%Z ->
  _read_pdf_pages doc <> [] ->
  exists index dir',
    index_document env (Some doc) dir batch_size = Ok (index, dir') /\
    Forall (fun s =>
              page_bounds (section_to_json s) =
                (Some (Z.of_nat (range_lo s)), Some (Z.of_nat (range_hi s))) /\
              page_bounds (range_only s) = page_bounds (section_to_json s))
           (sections index).
Proof.
  intros Hb Hne.
  destruct (index_document_positive env doc dir batch_size Hb Hne) as (ss & Hss & Hidx).
  eexists _, _. split; [exact Hidx|]. cbn [sections _create_index].
  apply List.Forall_forall. intros s Hs.
  destruct (indexed_section_facts env doc _ ss s Hss Hs) as (_ & Hpages & Hrange & _).
  rewrite Hrange, Hpages. split; reflexivity.
Qed.

Lemma indexed_page_bounds_agree_witness :
  exists index dir',
    index_document plain_env (Some blank_middle) ∅ 2 = Ok (index, dir') /\
    Forall (fun s =>
              page_bounds (section_to_json s) =
                (Some (Z.of_nat (range_lo s)), Some (Z.of_nat (range_hi s))) /\
              page_bounds (range_only s) = page_bounds (section_to_json s))
           (sections index).
Proof.
  apply (indexed_page_bounds_agree plain_env blank_middle ∅ 2);
    [lia|vm_compute; discriminate].
Defined.

(** *** The loop over the sections *)

(** Section ids that can be looked up in: a list, a string or an object. *)
Local Abbreviation searchable section_ids :=
  (match section_ids with
   | JArr _ | JStr _ | JObj _ => True
   | _ => False
   end).

Lemma py_in_searchable x section_ids :
  searchable section_ids -> exists b, py_in x section_ids = Ok b.
Proof. destruct section_ids; intros H; try destruct H; eexists; reflexivity. Qed.

Lemma py_in_raises x section_ids e :
  py_in x section_ids = Raise e ->
  (exists msg, e = TypeError msg) /\ ~ searchable section_ids.
Proof.
  destruct section_ids; try discriminate; intros [= <-];
    (split; [eexists; reflexivity|intros []]).
Qed.

Lemma load_sections_selects fs doc_path is_pdf document_index section_ids :
  forall all_sections l,
  load_sections fs doc_path is_pdf document_index section_ids all_sections = Ok l ->
  sublist (map (fun c => (sec_id c, sec_title c)) l)
          (map (fun section => (sd_section_id section, sd_title section)) all_sections) /\
  Forall (fun c => py_in (sec_id c) section_ids = Ok true /\
                   cm_document_id (sec_metadata c) = d_document_id document_index /\
                   cm_category (sec_metadata c) = d_category document_index) l.
Proof.
  induction all_sections as [|section rest IH]; intros l; cbn [load_sections].
  - intros [= <-]. split; constructor.
  - destruct (py_in (sd_section_id section) section_ids) as [wanted|e] eqn:Hin;
      [|discriminate].
    cbn [rbind]. destruct wanted; cbn [negb].
    + destruct (section_content fs doc_path is_pdf section) as [content|e].
      * destruct (load_sections fs doc_path is_pdf document_index section_ids rest)
          as [others|e] eqn:Hrest; [|discriminate].
        cbn [rbind]. intros [= <-]. destruct (IH _ eq_refl) as [Hsub Hall].
        split.
        -- cbn [map sec_id sec_title]. apply sublist_skip. exact Hsub.
        -- constructor; [|exact Hall]. cbn [sec_id sec_metadata cm_document_id cm_category].
           repeat split. exact Hin.
      * intros Hl. destruct (IH _ Hl) as [Hsub Hall]. split; [|exact Hall].
        cbn [map]. apply sublist_cons. exact Hsub.
    + intros Hl. destruct (IH _ Hl) as [Hsub Hall]. split; [|exact Hall].
      cbn [map]. apply sublist_cons. exact Hsub.
Qed.

Lemma load_sections_outcomes fs doc_path is_pdf document_index section_ids :
  forall all_sections,
  (searchable section_ids ->
   is_ok (load_sections fs doc_path is_pdf document_index section_ids all_sections) = true) /\
  (forall e,
     load_sections fs doc_path is_pdf document_index section_ids all_sections = Raise e ->
     (exists msg, e = TypeError msg) /\ ~ searchable section_ids /\ all_sections <> []).
Proof.
  induction all_sections as [|section rest [IHok IHe]]; cbn [load_sections].
  - split; [reflexivity|discriminate].
  - split.
    + intros Hs. destruct (py_in_searchable (sd_section_id section) _ Hs) as [b ->].
      cbn [rbind]. specialize (IHok Hs).
      destruct (load_sections fs doc_path is_pdf document_index section_ids rest);
        [|discriminate].
      destruct b; cbn [negb]; [|reflexivity].
      destruct (section_content fs doc_path is_pdf section); reflexivity.
    + intros e. destruct (py_in (sd_section_id section) section_ids) as [b|e'] eqn:Hin.
      * cbn [rbind]. intros He.
        assert (Hrest : load_sections fs doc_path is_pdf document_index section_ids rest
                        = Raise e).
        { destruct b; cbn [negb] in He; [|exact He].
          destruct (section_content fs doc_path is_pdf section); [|exact He].
          destruct (load_sections fs doc_path is_pdf document_index section_ids rest);
            [discriminate|exact He]. }
        destruct (IHe _ Hrest) as (Hmsg & Hns & _).
        split; [exact Hmsg|]. split; [exact Hns|discriminate].
      * cbn [rbind]. intros [= <-]. destruct (py_in_raises _ _ _ Hin) as [Hmsg Hns].
        split; [exact Hmsg|]. split; [exact Hns|discriminate].
Qed.

(** X23.  [_load_section_content] returns only sections that were asked
    for, in the order of the index and with the identifiers of the index
    in their metadata; a section whose content cannot be read is left
    out, without an error.  A document whose path does not exist gives the
    empty list, and the only exception is the [TypeError] of looking a
    section up in section ids that are no list, string or object. *)
Theorem load_section_content_selects (fs : Files) (document_index : IndexData)
        (section_ids : json) :
  (path_exists fs (default EmptyString (d_path document_index)) = false ->
   _load_section_content fs document_index section_ids = Ok []) /\
  (forall ids, section_ids = JArr ids ->
     is_ok (_load_section_content fs document_index section_ids) = true) /\
  (forall e, _load_section_content fs document_index section_ids = Raise e ->
     (exists msg, e = TypeError msg) /\
     d_sections document_index <> [] /\
     match section_ids with
     | JArr _ | JStr _ | JObj _ => False
     | _ => True
     end) /\
  (forall l, _load_section_content fs document_index section_ids = Ok l ->
     sublist (map (fun c => (sec_id c, sec_title c)) l)
             (map (fun section => (sd_section_id section, sd_title section))
                  (d_sections document_index)) /\
     Forall (fun c => py_in (sec_id c) section_ids = Ok true /\
                      cm_document_id (sec_metadata c) = d_document_id document_index /\
                      cm_category (sec_metadata c) = d_category document_index) l).
Proof.
  unfold _load_section_content.
  destruct (path_exists fs (default EmptyString (d_path document_index))); cbn [negb].
  - split; [discriminate|]. split; [|split].
    + intros ids ->. apply load_sections_outcomes. exact I.
    + intros e He. destruct (proj2 (load_sections_outcomes _ _ _ _ _ _) e He)
        as (Hmsg & Hns & Hne).
      split; [exact Hmsg|]. split; [exact Hne|].
      destruct section_ids; try exact I; apply Hns; exact I.
    + intros l Hl. eapply load_sections_selects. exact Hl.
  - split; [reflexivity|]. split; [reflexivity|]. split; [discriminate|].
    intros l [= <-]. split; [apply sublist_nil_l|constructor].
Qed.

Lemma load_section_content_selects_witness :
  _load_section_content
    (mkFiles (fun _ => false) (fun _ => ".pdf") (fun _ => Ok blank_middle)
             (fun _ _ => Ok "texto"))
    (mkIndexData (Some "PROC-JUB-001") None None None None
                 (Some "data/proc.pdf") [])
    (JArr [JStr "1"]) = Ok [].
Proof.
  apply load_section_content_selects. reflexivity.
Defined.

(** *** An index without a path *)

Lemma no_path_loads_nothing fs document_index section_ids :
  Py.lower (suffix fs EmptyString) <> ".pdf" ->
  (forall section, is_ok (read_section fs EmptyString section) = false) ->
  searchable section_ids ->
  forall all_sections,
  load_sections fs EmptyString
                (String.eqb (Py.lower (suffix fs EmptyString)) ".pdf")
                document_index section_ids all_sections = Ok [].
Proof.
  intros Hsuffix Hread Hs.
  apply String.eqb_neq in Hsuffix. rewrite Hsuffix.
  induction all_sections as [|section rest IH]; cbn [load_sections]; [reflexivity|].
  destruct (py_in_searchable (sd_section_id section) _ Hs) as [b ->].
  cbn [rbind]. destruct b; cbn [negb]; [|exact IH].
  unfold section_content. destruct (page_bounds section) as [page_start page_end].
  cbn [andb]. specialize (Hread section).
  destruct (read_section fs EmptyString section); [discriminate|exact IH].
Qed.

(** X24.  The index file the indexer writes has no [path] key, so the
    loader looks for the document at the empty path.  When that path has
    no [.pdf] suffix and cannot be read as a text file (it is the current
    directory), no section of such an index is ever loaded, whatever the
    section ids are. *)
Theorem index_without_path_loads_nothing (fs : Files) (index : Index) (ids : list json) :
  Py.lower (suffix fs EmptyString) <> ".pdf" ->
  (forall section, is_ok (read_section fs EmptyString section) = false) ->
  d_path (to_json index) = None /\
  _load_section_content fs (to_json index) (JArr ids) = Ok [].
Proof.
  intros Hsuffix Hread. split; [reflexivity|].
  unfold _load_section_content. cbn [d_path to_json default].
  destruct (path_exists fs EmptyString); cbn [negb]; [|reflexivity].
  change (from_option id EmptyString None) with EmptyString.
  apply no_path_loads_nothing; [exact Hsuffix|exact Hread|exact I].
Qed.

Lemma index_without_path_loads_nothing_witness :
  exists index dir',
    index_document plain_env (Some blank_middle) ∅ 2 = Ok (index, dir') /\
    d_path (to_json index) = None /\
    _load_section_content no_path_files (to_json index) (JArr [JStr "1"; JStr "2"])
    = Ok [].
Proof.
  eexists _, _. split; [reflexivity|].
  apply (index_without_path_loads_nothing no_path_files);
    [vm_compute; discriminate|reflexivity].
Defined.

(** *** An index with the path of its PDF *)

Local Abbreviation asked_for ids :=
  (fun s : Section =>
     existsb (fun i => match i with
                       | JStr x => String.eqb x (section_id s)
                       | _ => false
                       end) ids).

Local Abbreviation loaded doc document_index :=
  (fun s : Section =>
     mkSectionContent (section_id s) (title s)
       (String.concat (newline +:+ newline)
          (map (fun p => page_part (p - 1) (default EmptyString (doc !! (p - 1))))
               (pages s)))
       (mkChunkMetadata (d_document_id document_index)
                        (d_procedure_code document_index)
                        (d_procedure_name document_index)
                        (Some (range_lo s)) (Some (range_hi s))
                        (d_category document_index))).

Lemma load_indexed_sections fs path doc document_index ids (ss : list Section) :
  open_pdf fs path = Ok doc ->
  Forall (fun s =>
            1 <= range_lo s <= range_hi s /\
            page_bounds (section_to_json s) =
              (Some (Z.of_nat (range_lo s)), Some (Z.of_nat (range_hi s))) /\
            read_pdf_pages doc (Z.of_nat (range_lo s)) (Z.of_nat (range_hi s)) =
            Ok (String.concat (newline +:+ newline)
                  (map (fun p => page_part (p - 1) (default EmptyString (doc !! (p - 1))))
                       (pages s)))) ss ->
  load_sections fs path true document_index (JArr ids) (map section_to_json ss) =
  Ok (map (loaded doc document_index) (List.filter (asked_for ids) ss)).
Proof.
  intros Hopen. induction ss as [|s rest IH]; intros Hall; [reflexivity|].
  inversion Hall as [|? ? ([Hlo Hle] & Hbounds & Hread) Hrest]; subst.
  cbn [map load_sections List.filter py_in rbind].
  change (sd_section_id (section_to_json s)) with (section_id s).
  destruct (asked_for ids s); cbn [negb]; [|apply IH, Hrest].
  unfold section_content. rewrite Hbounds. cbn [truthy_num andb].
  destruct (Z.eqb_spec (Z.of_nat (range_lo s)) 0) as [?|_]; [lia|].
  destruct (Z.eqb_spec (Z.of_nat (range_hi s)) 0) as [?|_]; [lia|].
  cbn [negb]. rewrite Hopen. cbn [rbind default fst snd]. unfold id. rewrite Hread.
  rewrite (IH Hrest). cbn [rbind map fmap option_fmap option_map].
  rewrite !Nat2Z.id. reflexivity.
Qed.

(** X25.  When the index of a PDF names the path of that PDF, loading
    gives back, for every section that is asked for, the pages the section
    lists: the loader finds the bounds the indexer recorded, reads that
    range of the PDF and returns the sections in index order with their
    first and last page in the metadata. *)
Theorem loader_reads_indexed_pdf (env : Collaborators) (fs : Files) (doc : list string)
        (dir dir' : gmap string FileContent) (batch_size : Z) (index : Index)
        (path : string) (document_index : IndexData) (ids : list json) :
  (1 <= batch_size)%Z ->
  index_document env (Some doc) dir batch_size = Ok (index, dir') ->
  d_path document_index = Some path ->
  d_sections document_index = map section_to_json (sections index) ->
  path_exists fs path = true ->
  Py.lower (suffix fs path) = ".pdf" ->
  open_pdf fs path = Ok doc ->
  _load_section_content fs document_index (JArr ids) =
  Ok (map (fun s =>
             mkSectionContent (section_id s) (title s)
               (String.concat (newline +:+ newline)
                  (map (fun p => page_part (p - 1)
                                   (default EmptyString (doc !! (p - 1))))
                       (pages s)))
               (mkChunkMetadata (d_document_id document_index)
                                (d_procedure_code document_index)
                                (d_procedure_name document_index)
                                (Some (range_lo s)) (Some (range_hi s))
                                (d_category document_index)))
          (List.filter
             (fun s => existsb (fun i => match i with
                                         | JStr x => String.eqb x (section_id s)
                                         | _ => false
                                         end) ids)
             (sections index))).
Proof.
  intros Hb Hidx Hpath Hsections Hexists Hsuffix Hopen.
  assert (Hne : _read_pdf_pages doc <> []).
  { intros Hnil. unfold index_document in Hidx. rewrite Hnil in Hidx. discriminate. }
  destruct (index_document_positive env doc dir batch_size Hb Hne) as (ss & Hss & Hidx').
  rewrite Hidx' in Hidx. injection Hidx as <- _. cbn [sections _create_index].
  cbn [sections _create_index] in Hsections.
  unfold _load_section_content. rewrite Hpath. cbn [default]. unfold id.
  rewrite Hexists, Hsuffix, Hsections. cbn [negb].
  change (String.eqb ".pdf" ".pdf") with true.
  apply load_indexed_sections; [exact Hopen|].
  apply List.Forall_forall. intros s Hs.
  destruct (indexed_section_facts env doc _ ss s Hss Hs) as (Hlo & Hpages & _ & Hread).
  split; [exact Hlo|]. split; [exact Hpages|exact Hread].
Qed.

Lemma loader_reads_indexed_pdf_witness :
  exists index dir',
    index_document plain_env (Some blank_middle) ∅ 1 = Ok (index, dir') /\
    _load_section_content one_pdf (with_path "proc.pdf" (to_json index))
                          (JArr [JStr "2"]) =
    Ok (map (fun s =>
               mkSectionContent (section_id s) (title s)
                 (String.concat (newline +:+ newline)
                    (map (fun p => page_part (p - 1)
                                     (default EmptyString (blank_middle !! (p - 1))))
                         (pages s)))
                 (mkChunkMetadata (Some (document_id index)) None None
                                  (Some (range_lo s)) (Some (range_hi s))
                                  (Some (category index))))
            (List.filter
               (fun s => existsb (fun i => match i with
                                           | JStr x => String.eqb x (section_id s)
                                           | _ => false
                                           end) [JStr "2"])
               (sections index))).
Proof.
  destruct (index_document plain_env (Some blank_middle) ∅ 1) as [[index dir']|e]
    eqn:Hidx; [|vm_compute in Hidx; discriminate Hidx].
  exists index, dir'. split; [reflexivity|].
  apply (loader_reads_indexed_pdf plain_env one_pdf blank_middle ∅ dir' 1 index
           "proc.pdf" (with_path "proc.pdf" (to_json index)) [JStr "2"]);
    [lia|exact Hidx|reflexivity..].
Defined.

End LoaderFacts.


(** ** The keywords of a summary *)

Module KeywordFacts.

Import IndexerKeywords.

Local Abbreviation occurrences words w := (count_occ string_dec words w).

Local Abbreviation is_stopword w := (existsb (String.eqb w) stopwords).

Lemma dict_get_set x w v d :
  dict_get x (dict_set w v d) = if String.eqb w x then v else dict_get x d.
Proof.
  induction d as [|[w0 n0] rest IH]; cbn [dict_set dict_get].
  - reflexivity.
  - destruct (String.eqb_spec w0 w) as [->|Hne]; cbn [dict_get].
    + destruct (String.eqb w x); reflexivity.
    + destruct (String.eqb_spec w0 x) as [->|Hx].
      * destruct (String.eqb_spec w x) as [->|_]; [congruence|reflexivity].
      * exact IH.
Qed.

Lemma dict_set_keys x w v d :
  List.In x (map fst (dict_set w v d)) <-> x = w \/ List.In x (map fst d).
Proof.
  induction d as [|[w0 n0] rest IH]; cbn [dict_set map fst List.In].
  - split; [intros [<-|[]]; left; reflexivity|intros [->|[]]; left; reflexivity].
  - destruct (String.eqb_spec w0 w) as [->|Hne]; cbn [map fst List.In].
    + split; [intros [<-|H]; auto|intros [->|[<-|H]]; auto].
    + rewrite IH. split; [intros [<-|[->|H]]; auto|intros [->|[<-|H]]; auto].
Qed.

Lemma dict_set_nodup w v d :
  NoDup (map fst d) -> NoDup (map fst (dict_set w v d)).
Proof.
  induction d as [|[w0 n0] rest IH]; cbn [dict_set map fst]; intros Hnd.
  - constructor; [apply not_elem_of_nil|constructor].
  - apply NoDup_cons in Hnd. destruct Hnd as [Hnotin Hnd].
    destruct (String.eqb_spec w0 w) as [->|Hne]; cbn [map fst].
    + apply NoDup_cons. split; assumption.
    + apply NoDup_cons. split; [|apply IH, Hnd].
      intros Hin. apply list_elem_of_In, dict_set_keys in Hin.
      destruct Hin as [->|Hin]; [congruence|].
      apply Hnotin, list_elem_of_In, Hin.
Qed.

Lemma dict_get_in d : NoDup (map fst d) ->
  forall x n, List.In (x, n) d -> dict_get x d = n.
Proof.
  induction d as [|[w0 n0] rest IH]; intros Hnd x n; [intros []|].
  cbn [map fst] in Hnd. apply NoDup_cons in Hnd. destruct Hnd as [Hnotin Hnd].
  cbn [dict_get]. intros [[= -> ->]|Hin].
  - rewrite String.eqb_refl. reflexivity.
  - destruct (String.eqb_spec w0 x) as [->|_]; [|apply IH; assumption].
    exfalso. apply Hnotin, list_elem_of_In.
    change x with (fst (x, n)). apply List.in_map, Hin.
Qed.

(** What the counting loop leaves in [word_freq]: every word that was seen,
    once, with the number of times it was seen. *)
Lemma count_from words : forall seen d,
  NoDup (map fst d) ->
  (forall x, dict_get x d = occurrences seen x) ->
  (forall x, List.In x (map fst d) <-> List.In x seen) ->
  let d' := fold_left (fun word_freq word => bump word word_freq) words d in
  NoDup (map fst d') /\
  (forall x, dict_get x d' = occurrences (seen ++ words) x) /\
  (forall x, List.In x (map fst d') <-> List.In x (seen ++ words)).
Proof.
  induction words as [|w words IH]; intros seen d Hnd Hget Hkeys; cbn [fold_left].
  - rewrite List.app_nil_r. repeat split; try assumption; apply Hkeys.
  - replace (seen ++ w :: words) with ((seen ++ [w]) ++ words)
      by (rewrite <- List.app_assoc; reflexivity).
    apply IH.
    + apply dict_set_nodup, Hnd.
    + intros x. unfold bump. rewrite dict_get_set, count_occ_app, Hget, Hget.
      cbn [count_occ]. destruct (String.eqb_spec w x) as [->|Hne].
      * destruct (string_dec x x); [lia|congruence].
      * destruct (string_dec w x); [congruence|lia].
    + intros x. unfold bump. rewrite dict_set_keys, List.in_app_iff, Hkeys.
      cbn [List.In]. split; [intros [->|H]; auto|intros [H|[->|[]]]; auto].
Qed.

Lemma count_words_spec words :
  NoDup (map fst (count_words words)) /\
  (forall x n, List.In (x, n) (count_words words) ->
               n = occurrences words x /\ List.In x words).
Proof.
  destruct (count_from words [] []) as (Hnd & Hget & Hkeys).
  - constructor.
  - reflexivity.
  - reflexivity.
  - cbn [app] in *. split; [exact Hnd|]. intros x n Hin. split.
    + rewrite <- Hget. symmetry. apply dict_get_in; assumption.
    + apply Hkeys. change x with (fst (x, n)). apply List.in_map, Hin.
Qed.

Lemma count_words_complete words x :
  List.In x words -> List.In (x, occurrences words x) (count_words words).
Proof.
  intros Hin. unfold count_words.
  destruct (count_from words [] []) as (Hnd & Hget & Hkeys);
    [constructor|reflexivity|reflexivity|]. cbn [app] in *.
  apply Hkeys in Hin. apply List.in_map_iff in Hin. destruct Hin as ([y n] & <- & Hyn).
  cbn [fst]. rewrite <- Hget.
  rewrite (dict_get_in _ Hnd y n Hyn). exact Hyn.
Qed.

(** *** Sorting by frequency *)

Lemma insert_by_freq_perm x sorted : Permutation (insert_by_freq x sorted) (x :: sorted).
Proof.
  induction sorted as [|y rest IH]; cbn [insert_by_freq]; [reflexivity|].
  destruct (snd x <? snd y); [|reflexivity].
  rewrite IH. apply perm_swap.
Qed.

Lemma sort_by_freq_perm items : Permutation (sort_by_freq items) items.
Proof.
  induction items as [|x rest IH]; cbn [sort_by_freq]; [reflexivity|].
  rewrite insert_by_freq_perm, IH. reflexivity.
Qed.

Lemma insert_by_freq_sorted x sorted :
  StronglySorted (fun a b => snd b <= snd a) sorted ->
  StronglySorted (fun a b => snd b <= snd a) (insert_by_freq x sorted).
Proof.
  induction sorted as [|y rest IH]; intros Hs; cbn [insert_by_freq].
  - constructor; constructor.
  - inversion Hs as [|? ? Hrest Hall]; subst.
    destruct (Nat.ltb_spec (snd x) (snd y)) as [Hlt|Hge].
    + constructor; [apply IH, Hrest|].
      apply List.Forall_forall. intros z Hz.
      apply (Permutation_in _ (insert_by_freq_perm x rest)) in Hz.
      destruct Hz as [<-|Hz]; [lia|].
      rewrite List.Forall_forall in Hall. apply Hall, Hz.
    + constructor; [exact Hs|]. constructor; [exact Hge|].
      rewrite List.Forall_forall in Hall. apply List.Forall_forall. intros z Hz.
      specialize (Hall z Hz). lia.
Qed.

Lemma sort_by_freq_sorted items :
  StronglySorted (fun a b => snd b <= snd a) (sort_by_freq items).
Proof.
  induction items as [|x rest IH]; cbn [sort_by_freq]; [constructor|].
  apply insert_by_freq_sorted, IH.
Qed.

Lemma occurrences_filter (f : string -> bool) (l : list string) (x : string) :
  f x = true -> occurrences (List.filter f l) x = occurrences l x.
Proof.
  intros Hx. induction l as [|y l IH]; [reflexivity|]. cbn [List.filter count_occ].
  destruct (string_dec y x) as [->|Hne].
  - rewrite Hx. cbn [count_occ]. destruct (string_dec x x); [|congruence].
    rewrite IH. reflexivity.
  - destruct (f y); [|exact IH]. cbn [count_occ].
    destruct (string_dec y x); [congruence|exact IH].
Qed.

Lemma sorted_by_occurrences (words : list string) (items : list (string * nat)) :
  StronglySorted (fun a b => snd b <= snd a) items ->
  Forall (fun a => snd a = occurrences words (fst a)) items ->
  StronglySorted (fun a b => occurrences words b <= occurrences words a)
                 (map fst items).
Proof.
  induction items as [|a rest IH]; intros Hs Hall; cbn [map]; [constructor|].
  inversion Hs as [|? ? Hrest Hle]; subst.
  inversion Hall as [|? ? Ha Hall']; subst.
  constructor; [apply IH; assumption|].
  apply List.Forall_forall. intros w Hw. apply List.in_map_iff in Hw.
  destruct Hw as (b & <- & Hb).
  rewrite List.Forall_forall in Hle, Hall'.
  rewrite <- Ha, <- (Hall' b Hb). apply Hle, Hb.
Qed.

(** X26.  The keywords are words of the text that are no stop words, each
    one once and at most [max_keywords] of them, by decreasing number of
    occurrences; no other such word of the text occurs more often than a
    keyword. *)
Theorem keywords_are_most_frequent (words : list string) (max_keywords : Z) :
  (0 <= max_keywords)%Z ->
  NoDup (_extract_keywords words max_keywords) /\
  length (_extract_keywords words max_keywords) <= Z.to_nat max_keywords /\
  (forall k, List.In k (_extract_keywords words max_keywords) ->
             List.In k words /\ existsb (String.eqb k) stopwords = false) /\
  StronglySorted (fun a b => count_occ string_dec words b <= count_occ string_dec words a)
                 (_extract_keywords words max_keywords) /\
  (forall k w, List.In k (_extract_keywords words max_keywords) ->
               List.In w words -> existsb (String.eqb w) stopwords = false ->
               ~ List.In w (_extract_keywords words max_keywords) ->
               count_occ string_dec words w <= count_occ string_dec words k).
Proof.
  intros Hk. unfold _extract_keywords, AgentRetrieval.slice_to.
  destruct (Z.leb_spec 0 max_keywords) as [_|?]; [|lia].
  set (kept := List.filter (fun w => negb (is_stopword w)) words).
  set (sorted := sort_by_freq (count_words kept)).
  set (n := Z.to_nat max_keywords).
  destruct (count_words_spec kept) as [Hnd Hcount].
  pose proof (sort_by_freq_perm (count_words kept)) as Hperm. fold sorted in Hperm.
  pose proof (sort_by_freq_sorted (count_words kept)) as Hsorted. fold sorted in Hsorted.
  assert (Hkept : forall x, List.In x kept <-> List.In x words /\ is_stopword x = false).
  { intros x. unfold kept. rewrite List.filter_In, negb_true_iff. reflexivity. }
  assert (Hocc : forall x, is_stopword x = false ->
                           occurrences kept x = occurrences words x).
  { intros x Hx. unfold kept.
    apply (occurrences_filter (fun w => negb (is_stopword w))).
    rewrite Hx. reflexivity. }
  assert (Hitems : forall x c, List.In (x, c) sorted ->
                      c = occurrences words x /\ List.In x words /\
                      is_stopword x = false).
  { intros x c Hin. apply (Permutation_in _ Hperm) in Hin.
    destruct (Hcount x c Hin) as [-> Hx]. apply Hkept in Hx. destruct Hx as [Hx Hstop].
    rewrite (Hocc x Hstop). repeat split; assumption. }
  assert (Hsplit : sorted = firstn n sorted ++ skipn n sorted)
    by (symmetry; apply List.firstn_skipn).
  assert (Htop : forall a, List.In a (firstn n sorted) -> List.In a sorted).
  { intros a Ha. rewrite Hsplit. apply List.in_or_app. left. exact Ha. }
  assert (Hnd_sorted : NoDup (map fst sorted)).
  { assert (Hp : Permutation (map fst sorted) (map fst (count_words kept)))
      by (apply Permutation_map, Hperm).
    rewrite Hp. exact Hnd. }
  split; [|split; [|split; [|split]]].
  - rewrite Hsplit, List.map_app in Hnd_sorted.
    apply NoDup_app in Hnd_sorted. apply Hnd_sorted.
  - rewrite length_map, List.length_firstn. lia.
  - intros k Hin. apply List.in_map_iff in Hin. destruct Hin as ([x c] & <- & Hin).
    destruct (Hitems x c (Htop _ Hin)) as (_ & Hx & Hstop). split; assumption.
  - apply sorted_by_occurrences.
    + rewrite Hsplit in Hsorted. eapply StronglySorted_app_1_l. exact Hsorted.
    + apply List.Forall_forall. intros [x c] Hin. apply (Hitems x c (Htop _ Hin)).
  - intros k w Hin Hw Hstop Hnotin.
    apply List.in_map_iff in Hin. destruct Hin as ([x c] & <- & Hin). cbn [fst].
    destruct (Hitems x c (Htop _ Hin)) as (-> & _ & _).
    assert (Hw_kept : List.In w kept) by (apply Hkept; split; assumption).
    pose proof (count_words_complete kept w Hw_kept) as Hw_in.
    apply (Permutation_in _ (Permutation_sym Hperm)) in Hw_in.
    rewrite (Hocc w Hstop) in Hw_in. rewrite Hsplit in Hw_in.
    apply List.in_app_or in Hw_in. destruct Hw_in as [Hw_top|Hw_rest].
    + exfalso. apply Hnotin. change w with (fst (w, occurrences words w)).
      apply List.in_map, Hw_top.
    + rewrite Hsplit in Hsorted.
      apply (StronglySorted_app_1_elem_of _ _ _ (x, occurrences words x)
               (w, occurrences words w) Hsorted);
        apply list_elem_of_In; assumption.
Qed.

Lemma keywords_are_most_frequent_witness :
  _extract_keywords ["pago"; "para"; "pension"; "pago"; "tramite"; "pension"; "pago"] 2
  = ["pago"; "pension"] /\
  NoDup (_extract_keywords
           ["pago"; "para"; "pension"; "pago"; "tramite"; "pension"; "pago"] 2).
Proof.
  split; [reflexivity|].
  apply (keywords_are_most_frequent
           ["pago"; "para"; "pension"; "pago"; "tramite"; "pension"; "pago"] 2).
  lia.
Defined.

End KeywordFacts.
